(** * Verification of the Leetcode problem-set helper (scripts/leetcode.py)

    A shallow embedding of the [Leetcode] class: the slug extractor, the
    metadata fetcher, the directory scaffolder, the index updater and the
    orchestrator, followed by the properties the specification states
    about them and by further properties of the code.

    Modelling conventions.
    - Text is [string]; a character is a code point below 256, and the
      Python predicates [str.isspace] and [str.isdigit] are given at
      those code points as CPython defines them.
    - Files are opened in text mode with the default arguments: on input
      the universal-newlines translation applies, on output (POSIX) no
      translation applies.  The content of a file is its decoded text;
      codec errors are outside the model.
    - The file system is a finite map from a path, as the program spells
      it, to a node; no symbolic links, no permissions, no limit on the
      length of a name.  [os.makedirs] and [os.path.join] follow their
      documentation.  Two spellings are two nodes: the model is that
      of a file system on the paths whose names are plain directory
      entries (not ["."] nor [".."], without the character of code 0),
      and the properties that depend on the identity of a path are
      stated for such names.
    - The clock, the line typed at the prompt and the replies of the
      server are inputs; [str()] of a decoded JSON value, which the
      f-strings of the orchestrator apply to the fields fetched, is a
      parameter of [main].
    - A Python exception of class [Exception] is a value of [exn];
      interrupts of the process ([BaseException] only) are outside the
      model.  [int] applies CPython's limit on the number of digits it
      converts, at its default of 4300. *)

From Stdlib Require Import Ascii String List ZArith NArith QArith Lia.
From Stdlib Require Import Sorted Permutation.
From stdpp Require Import base option list strings gmap pretty.


(** * Part I: the embedding *)

(** ** Text primitives of Python's [str] *)

Module Text.

(** Line feed and carriage return. *)
Definition lf : ascii := "010"%char.
Definition cr : ascii := "013"%char.
Definition LF : string := String lf "".

(** [c in s] for a single character [c]. *)
Fixpoint mem (c : ascii) (s : string) : bool :=
  match s with
  | "" => false
  | String d r => if Ascii.eqb c d then true else mem c r
  end.

(** [s.startswith(p)], returning what follows the prefix. *)
Fixpoint strip_prefix (p s : string) : option string :=
  match p, s with
  | "", _ => Some s
  | String a p', String b s' =>
      if Ascii.eqb a b then strip_prefix p' s' else None
  | String _ _, "" => None
  end.

(** [p in s] for strings: [p] is a substring of [s]. *)
Fixpoint contains (p s : string) : bool :=
  match strip_prefix p s with
  | Some _ => true
  | None => match s with "" => false | String _ r => contains p r end
  end.

(** [str.isspace] at one code point: TAB..CR, FS..US, space, NEL, NBSP. *)
Definition isspace (c : ascii) : bool :=
  let n := nat_of_ascii c in
  ((9 <=? n) && (n <=? 13)) || ((28 <=? n) && (n <=? 32))
  || (n =? 133) || (n =? 160).

(** The characters [int] reads as decimal digits (below 256: ["0"].."9"). *)
Definition isdecimal (c : ascii) : bool :=
  let n := nat_of_ascii c in (48 <=? n) && (n <=? 57).

(** [str.isdigit] at one code point: the decimal digits and the
    superscripts two, three and one. *)
Definition isdigit_char (c : ascii) : bool :=
  let n := nat_of_ascii c in
  isdecimal c || (n =? 178) || (n =? 179) || (n =? 185).

Fixpoint forallb_string (f : ascii -> bool) (s : string) : bool :=
  match s with
  | "" => true
  | String c r => f c && forallb_string f r
  end.

(** [s.isdigit()]: at least one character, all of them digits. *)
Definition isdigit (s : string) : bool :=
  match s with
  | "" => false
  | _ => forallb_string isdigit_char s
  end.

(** [s.lstrip()], [s.rstrip()] and [s.strip()]. *)
Fixpoint lstrip (s : string) : string :=
  match s with
  | "" => ""
  | String c r => if isspace c then lstrip r else s
  end.

Fixpoint rstrip (s : string) : string :=
  match s with
  | "" => ""
  | String c r =>
      match rstrip r with
      | "" => if isspace c then "" else String c ""
      | r' => String c r'
      end
  end.

Definition strip (s : string) : string := rstrip (lstrip s).

(** [s.count(c)] for a one-character [c]. *)
Fixpoint count (c : ascii) (s : string) : nat :=
  match s with
  | "" => 0
  | String d r => (if Ascii.eqb d c then 1 else 0) + count c r
  end.

(** [s.split(c)] for a one-character separator. *)
Fixpoint split (c : ascii) (s : string) : list string :=
  match s with
  | "" => [""]
  | String d r =>
      if Ascii.eqb d c then "" :: split c r
      else match split c r with
           | h :: t => String d h :: t
           | [] => [String d ""]
           end
  end.

(** [sep.join(l)]. *)
Fixpoint join (sep : string) (l : list string) : string :=
  match l with
  | [] => ""
  | [x] => x
  | x :: l' => x +:+ sep +:+ join sep l'
  end.

(** [int(s)] for a string of digits: [None] stands for [ValueError],
    raised on a character that is no decimal digit and on more digits
    than the limit. *)
Fixpoint int_digits (acc : N) (s : string) : option N :=
  match s with
  | "" => Some acc
  | String c r =>
      if isdecimal c
      then int_digits (acc * 10 + (N_of_ascii c - 48))%N r
      else None
  end.

(** The default of [sys.get_int_max_str_digits()]: [int] raises
    [ValueError] on a string of more digits than that. *)
Definition int_max_str_digits : nat := 4300.

Definition int (s : string) : option N :=
  match s with
  | "" => None
  | _ =>
      if int_max_str_digits <? String.length s then None
      else int_digits 0%N s
  end.

(** The universal-newlines translation of text-mode input. *)
Fixpoint universal_newlines (s : string) : string :=
  match s with
  | "" => ""
  | String c r =>
      if Ascii.eqb c cr then
        match r with
        | String d r' =>
            if Ascii.eqb d lf then String lf (universal_newlines r')
            else String lf (universal_newlines r)
        | "" => LF
        end
      else String c (universal_newlines r)
  end.

(** [f.readlines()]: each line keeps its terminator. *)
Fixpoint readlines (s : string) : list string :=
  match s with
  | "" => []
  | String c r =>
      if Ascii.eqb c lf then LF :: readlines r
      else match readlines r with
           | h :: t => String c h :: t
           | [] => [String c ""]
           end
  end.

(** [s[n:]]. *)
Fixpoint drop (n : nat) (s : string) : string :=
  match n, s with
  | 0, _ => s
  | S _, "" => ""
  | S n', String _ r => drop n' r
  end.

End Text.

(** ** Exceptions, the world and the monad of the program *)

(** The exceptions the program can meet (all of class [Exception]). *)
Inductive exn : Type :=
| ValueError
| IndexError
| KeyError (key : string)
| TypeError
| FileNotFoundError
| FileExistsError
| IsADirectoryError
| NotADirectoryError
| ClientError
| ContentTypeError.

Inductive outcome (A : Type) : Type :=
| Return (a : A)
| Raise (e : exn).
Arguments Return {A} a.
Arguments Raise {A} e.

Definition obind {A B : Type} (m : outcome A) (k : A -> outcome B) : outcome B :=
  match m with
  | Return a => k a
  | Raise e => Raise e
  end.

Notation "x <~ m ; k" := (obind m (fun x => k))
  (at level 20, m at level 100, k at level 200, only parsing).

(** A node of the file system. *)
Inductive node : Type :=
| File (content : string)
| Dir.

(** What the program writes on the console. *)
Inductive message : Type :=
| Prompt
| MsgStatusFailed (status : Z)
| MsgInvalidResponse
| MsgFetchError (e : exn)
| MsgInvalidURL
| MsgFetchFailed
| MsgSuccess (title : string).

(** The state the program acts on: the file system, the console and the
    requests sent over the network (the slug each one asks for). *)
Record world : Type := World {
  files : gmap string node;
  console : list message;
  requests : list string
}.

Definition set_files (f : gmap string node) (w : world) : world :=
  {| files := f; console := console w; requests := requests w |}.

(** A computation: from a world to an outcome and the world it leaves.
    A raised exception leaves the world as it was when raised. *)
Definition M (A : Type) : Type := world -> outcome A * world.

Definition ret {A : Type} (a : A) : M A := fun w => (Return a, w).

Definition bind {A B : Type} (m : M A) (k : A -> M B) : M B :=
  fun w =>
    match m w with
    | (Return a, w') => k a w'
    | (Raise e, w') => (Raise e, w')
    end.

Definition lift {A : Type} (o : outcome A) : M A := fun w => (o, w).

(** [try: m except Exception as e: h e]. *)
Definition try_except {A : Type} (m : M A) (h : exn -> M A) : M A :=
  fun w =>
    match m w with
    | (Return a, w') => (Return a, w')
    | (Raise e, w') => h e w'
    end.

Notation "x <- m ; k" := (bind m (fun x => k))
  (at level 20, m at level 100, k at level 200, only parsing).
Notation "m ;;; k" := (bind m (fun _ => k))
  (at level 100, k at level 200, only parsing, right associativity).

Definition print (msg : message) : M unit :=
  fun w =>
    (Return tt,
     {| files := files w; console := console w ++ [msg];
        requests := requests w |}).

(** ** The file system *)

(** A path is looked up as it is spelled.  On paths made of plain
    directory entries this is the file system itself; a path holding
    ["."], [".."] or the character of code 0 is a key like another here,
    where the file system resolves it or refuses it. *)

Module Fs.

Import Text.

(** The prefixes of [p] that end just before a ["/"]. *)
Fixpoint prefixes_before_slash (p : string) : list string :=
  match p with
  | "" => []
  | String c r =>
      (if Ascii.eqb c "/" then [""] else [])
      ++ map (String c) (prefixes_before_slash r)
  end.

(** The directories above [p], outermost first. *)
Definition ancestors (p : string) : list string :=
  filter (fun q => negb (String.eqb q "")) (prefixes_before_slash p).

(** [os.path.join(a, b)] (POSIX). *)
Definition join_path (a b : string) : string :=
  match strip_prefix "/" b with
  | Some _ => b
  | None =>
      match a with
      | "" => b
      | _ =>
          match String.rev a with
          | String "/" _ => a +:+ b
          | _ => a +:+ "/" +:+ b
          end
      end
  end.

(** [os.path.exists(p)]. *)
Definition path_exists (p : string) : M bool :=
  fun w =>
    (Return (match files w !! p with Some _ => true | None => false end), w).

(** The directory that holds [p] must be there for [p] to be created;
    a relative name without ["/"] lives in the current directory. *)
Definition parent_check (f : gmap string node) (p : string) : outcome unit :=
  match last (ancestors p) with
  | None => Return tt
  | Some d =>
      match f !! d with
      | Some Dir => Return tt
      | Some (File _) => Raise NotADirectoryError
      | None => Raise FileNotFoundError
      end
  end.

(** [with open(p, "w") as f: f.write(text)]: create or truncate. *)
Definition write_file (p text : string) : M unit :=
  fun w =>
    match files w !! p with
    | Some Dir => (Raise IsADirectoryError, w)
    | _ =>
        match parent_check (files w) p with
        | Return _ => (Return tt, set_files (<[p := File text]> (files w)) w)
        | Raise e => (Raise e, w)
        end
    end.

(** [with open(p, "r") as f: f.read()]. *)
Definition read_file (p : string) : M string :=
  fun w =>
    match files w !! p with
    | Some (File text) => (Return (universal_newlines text), w)
    | Some Dir => (Raise IsADirectoryError, w)
    | None => (Raise FileNotFoundError, w)
    end.

Definition is_file (f : gmap string node) (p : string) : bool :=
  match f !! p with
  | Some (File _) => true
  | _ => false
  end.

Definition add_dir (p : string) (f : gmap string node) : gmap string node :=
  match f !! p with
  | Some _ => f
  | None => <[p := Dir]> f
  end.

(** [os.makedirs(p, exist_ok=True)]: the leaf and the missing
    directories above it are created; an existing directory is accepted;
    a file in the way raises. *)
Definition makedirs (p : string) : M unit :=
  fun w =>
    match files w !! p with
    | Some Dir => (Return tt, w)
    | Some (File _) => (Raise FileExistsError, w)
    | None =>
        if existsb (is_file (files w)) (ancestors p)
        then (Raise NotADirectoryError, w)
        else (Return tt,
              set_files (foldr add_dir (files w) (ancestors p ++ [p])) w)
    end.

End Fs.

(** ** Decoded JSON and the Python operations the fetcher applies to it *)

(** A value as [json.loads] returns it.  A [JDict] lists the bindings of
    the dictionary in order, its keys distinct; a [JFloat] is the value
    of a finite float. *)
#[warnings="-register-all"]
Inductive json : Type :=
| JNull
| JBool (b : bool)
| JInt (n : Z)
| JFloat (x : Q)
| JStr (s : string)
| JList (items : list json)
| JDict (fields : list (string * json)).

Module Py.

Import Text.

Fixpoint assoc (k : string) (fields : list (string * json)) : option json :=
  match fields with
  | [] => None
  | (k', v) :: rest => if String.eqb k k' then Some v else assoc k rest
  end.

(** [bool(v)]. *)
Definition truthy (v : json) : bool :=
  match v with
  | JNull => false
  | JBool b => b
  | JInt n => negb (Z.eqb n 0)
  | JFloat x => negb (Qeq_bool x 0)
  | JStr s => negb (String.eqb s "")
  | JList items => match items with [] => false | _ => true end
  | JDict fields => match fields with [] => false | _ => true end
  end.

Definition is_str (k : string) (v : json) : bool :=
  match v with
  | JStr s => String.eqb s k
  | _ => false
  end.

(** [k in v] for a string [k]. *)
Definition contains_key (k : string) (v : json) : outcome bool :=
  match v with
  | JDict fields =>
      Return (match assoc k fields with Some _ => true | None => false end)
  | JList items => Return (existsb (is_str k) items)
  | JStr s => Return (contains k s)
  | _ => Raise TypeError
  end.

(** [v[k]] for a string [k]. *)
Definition getitem (v : json) (k : string) : outcome json :=
  match v with
  | JDict fields =>
      match assoc k fields with
      | Some x => Return x
      | None => Raise (KeyError k)
      end
  | _ => Raise TypeError
  end.

(** The elements [for x in v] runs over. *)
Definition iterate (v : json) : outcome (list json) :=
  match v with
  | JList items => Return items
  | JDict fields => Return (map (fun kv => JStr (fst kv)) fields)
  | JStr s =>
      Return (map (fun c => JStr (String c "")) (list_ascii_of_string s))
  | _ => Raise TypeError
  end.

(** [str.join] accepts strings only. *)
Definition as_str (v : json) : outcome string :=
  match v with
  | JStr s => Return s
  | _ => Raise TypeError
  end.

Fixpoint mapM {A B : Type} (f : A -> outcome B) (l : list A)
  : outcome (list B) :=
  match l with
  | [] => Return []
  | x :: l' => y <~ f x ; ys <~ mapM f l' ; Return (y :: ys)
  end.

End Py.

(** ** The [Leetcode] class *)

(** The dictionary [question_data]; [V] is the type of the values taken
    from the response ([json] as fetched, [string] once formatted). *)
Record question_data (V : Type) : Type := QuestionData {
  question_id : V;
  question_title : V;
  question_slug : string;
  difficulty : V;
  topic_tags : string
}.
Arguments QuestionData {V}.
Arguments question_id {V}.
Arguments question_title {V}.
Arguments question_slug {V}.
Arguments difficulty {V}.
Arguments topic_tags {V}.

Definition base_directory : string := "problemset".
Definition root_readme : string := "README.md".

(** *** [fetch_problem_data] *)

(** What the server does with one POST. *)
Inductive reply : Type :=
| TransportFailure (e : exn)
| Response (status : Z) (body : outcome json).

(** A session answers the query for a slug. *)
Definition session : Type := string -> reply.

(** [session.post(graphql_url, json=query, headers=self.headers)]: the
    request is sent; the response is its status and what
    [response.json()] will give. *)
Definition post (s : session) (title_slug : string) : M (Z * outcome json) :=
  fun w =>
    let w' := {| files := files w; console := console w;
                 requests := requests w ++ [title_slug] |} in
    match s title_slug with
    | TransportFailure e => (Raise e, w')
    | Response status body => (Return (status, body), w')
    end.

(** [data["data"]["question"]]. *)
Definition question_of (data : json) : outcome json :=
  d <~ Py.getitem data "data" ; Py.getitem d "question".

(** [", ".join(tag["name"] for tag in question["topicTags"])]. *)
Definition joined_tags (question : json) : outcome string :=
  tags <~ Py.getitem question "topicTags" ;
  items <~ Py.iterate tags ;
  names <~ Py.mapM (fun tag => Py.getitem tag "name") items ;
  strs <~ Py.mapM Py.as_str names ;
  Return (Text.join ", " strs).

Definition fetch_problem_data (s : session) (slug : string)
  : M (option (question_data json)) :=
  try_except
    (response <- post s slug ;
     if negb (Z.eqb (fst response) 200) then
       print (MsgStatusFailed (fst response)) ;;; ret None
     else
       data <- lift (snd response) ;
       has_data <- lift (Py.contains_key "data" data) ;
       invalid <-
         (if negb has_data then ret true
          else q <- lift (question_of data) ; ret (negb (Py.truthy q))) ;
       if invalid : bool then
         print MsgInvalidResponse ;;; ret None
       else
         question <- lift (question_of data) ;
         qid <- lift (Py.getitem question "questionFrontendId") ;
         title <- lift (Py.getitem question "title") ;
         level <- lift (Py.getitem question "difficulty") ;
         tags <- lift (joined_tags question) ;
         ret (Some {| question_id := qid;
                      question_title := title;
                      question_slug := slug;
                      difficulty := level;
                      topic_tags := tags |}))
    (fun e => print (MsgFetchError e) ;;; ret None).

(** *** [extract_question_slug] *)

(** The literal part of the pattern [problems/([^/]+)]. *)
Definition marker : string := "problems/".

(** The greedy run of characters other than ["/"] (here possibly
    empty). *)
Fixpoint non_slash_run (s : string) : string :=
  match s with
  | "" => ""
  | String c r => if Ascii.eqb c "/" then "" else String c (non_slash_run r)
  end.

(** An attempt of the pattern at the start of [s]: the marker, then at
    least one character other than ["/"]; the group is the run. *)
Definition match_here (s : string) : option string :=
  match Text.strip_prefix marker s with
  | Some rest =>
      match non_slash_run rest with
      | "" => None
      | g => Some g
      end
  | None => None
  end.

(** [re.search]: the attempts go from left to right, the first success
    wins; the result is group 1. *)
Fixpoint re_search (s : string) : option string :=
  match match_here s with
  | Some g => Some g
  | None =>
      match s with
      | "" => None
      | String _ r => re_search r
      end
  end.

Definition extract_question_slug (url : string) : option string :=
  re_search url.

(** *** [generate_solution_metadata] and [setup_problem_directory] *)

(** A reading of the clock, [datetime.now()]. *)
Record datetime : Type := DateTime {
  day : nat; month : nat; year : nat;
  hour : nat; minute : nat; second : nat
}.

Definition two_digits (n : nat) : string :=
  if n <? 10 then "0" +:+ pretty n else pretty n.

(** [strftime("%d/%m/%Y %H:%M:%S IST")]. *)
Definition strftime (t : datetime) : string :=
  two_digits (day t) +:+ "/" +:+ two_digits (month t) +:+ "/"
  +:+ pretty (year t) +:+ " " +:+ two_digits (hour t) +:+ ":"
  +:+ two_digits (minute t) +:+ ":" +:+ two_digits (second t) +:+ " IST".

Definition generate_solution_metadata (now : datetime) (title : string)
  : string :=
  "# Author: Abhinav Singh <abhinavsingh@duck.com>" +:+ Text.LF
  +:+ "# Question: " +:+ title +:+ Text.LF
  +:+ "# Solved On: " +:+ strftime now +:+ Text.LF.

Definition folder_path (id slug : string) : string :=
  Fs.join_path base_directory (id +:+ "." +:+ slug).

Definition readme_path (id slug : string) : string :=
  Fs.join_path (folder_path id slug) "README.md".

Definition solution_path (id slug : string) : string :=
  Fs.join_path (folder_path id slug) (slug +:+ ".py").

(** The arguments are used through f-strings only, so the model takes
    them formatted. *)
Definition setup_problem_directory (now : datetime) (id slug title : string)
  : M unit :=
  Fs.makedirs (folder_path id slug) ;;;
  readme_there <- Fs.path_exists (readme_path id slug) ;
  (if readme_there : bool then ret tt
   else Fs.write_file (readme_path id slug) "") ;;;
  solution_there <- Fs.path_exists (solution_path id slug) ;
  if solution_there : bool then ret tt
  else Fs.write_file (solution_path id slug)
         (generate_solution_metadata now title).

(** *** [update_main_readme] *)

(** The header written when the index does not exist. *)
Definition initial_readme : string :=
  "# Leetcode" +:+ Text.LF +:+ Text.LF
  +:+ "### Leetcode Problem Index" +:+ Text.LF +:+ Text.LF
  +:+ "| # | Title | Solution | Tags | Difficulty |" +:+ Text.LF
  +:+ "|:----:|:--------:|:--------:|:-------:|:----------:|" +:+ Text.LF.

(** [[line.strip() for line in f.readlines() if line.strip()]]. *)
Definition stripped_lines (text : string) : list string :=
  map Text.strip
    (filter (fun line => negb (String.eqb (Text.strip line) ""))
       (Text.readlines text)).

Definition new_entry (q : question_data string) (url : string) : string :=
  let folder_name := question_id q +:+ "." +:+ question_slug q in
  let solution := "problemset/" +:+ folder_name +:+ "/"
                  +:+ question_slug q +:+ ".py" in
  "| " +:+ question_id q +:+ " | [" +:+ question_title q +:+ "](" +:+ url
  +:+ ") | [Python](" +:+ solution +:+ ") | " +:+ topic_tags q +:+ " | "
  +:+ difficulty q +:+ " |".

(** [if new_entry not in lines: lines.append(new_entry)]. *)
Definition append_if_new (entry : string) (lines : list string) : list string :=
  if existsb (String.eqb entry) lines then lines else lines ++ [entry].

(** The sort key: an [int], or [float("inf")]. *)
Inductive sort_key : Type :=
| Num (n : N)
| Inf.

(** [a <= b] on keys. *)
Definition key_le (a b : sort_key) : bool :=
  match a, b with
  | Num x, Num y => N.leb x y
  | Num _, Inf => true
  | Inf, Num _ => false
  | Inf, Inf => true
  end.

(** [x.split("|")[1].strip()]. *)
Definition id_column (x : string) : outcome string :=
  match nth_error (Text.split "|" x) 1 with
  | Some col => Return (Text.strip col)
  | None => Raise IndexError
  end.

(** The [key] of the sort:
    [int(c) if c.isdigit() else float("inf")] for the id column [c]. *)
Definition entry_key (x : string) : outcome sort_key :=
  col <~ id_column x ;
  if Text.isdigit col then
    match Text.int col with
    | Some n => Return (Num n)
    | None => Raise ValueError
    end
  else Return Inf.

(** [list.sort] is stable; a stable sort has one possible result, given
    here by insertion. *)
Fixpoint insert_by_key (x : sort_key * string) (l : list (sort_key * string))
  : list (sort_key * string) :=
  match l with
  | [] => [x]
  | y :: l' =>
      if key_le (fst x) (fst y) then x :: l else y :: insert_by_key x l'
  end.

Definition sort_by_key (l : list (sort_key * string))
  : list (sort_key * string) :=
  foldr insert_by_key [] l.

(** [entries.sort(key=...)]: the keys are computed first, for all the
    entries in order; an exception there leaves nothing sorted. *)
Definition sort_entries (entries : list string) : outcome (list string) :=
  keyed <~ Py.mapM (fun x => k <~ entry_key x ; Return (k, x)) entries ;
  Return (map snd (sort_by_key keyed)).

(** The rows the rewrite puts in the file, from the lines read and the
    new entry. *)
Definition rewritten_rows (lines : list string) (entry : string)
  : outcome (list string) :=
  let lines := append_if_new entry lines in
  let header := take 4 lines in
  let entries := drop 4 lines in
  let entries := filter (fun line => 5 <=? Text.count "|" line) entries in
  entries <~ sort_entries entries ;
  Return (header ++ entries).

Definition update_main_readme (q : question_data string) (url : string)
  : M unit :=
  there <- Fs.path_exists root_readme ;
  (if there : bool then ret tt
   else Fs.write_file root_readme initial_readme) ;;;
  text <- Fs.read_file root_readme ;
  rows <- lift (rewritten_rows (stripped_lines text) (new_entry q url)) ;
  Fs.write_file root_readme (Text.join Text.LF rows +:+ Text.LF).

(** *** [main] *)

(** [not question_slug]. *)
Definition slug_missing (slug : option string) : bool :=
  match slug with
  | None => true
  | Some s => String.eqb s ""
  end.

(** [py_str] is [str()] on a decoded JSON value, through which the
    f-strings format the fields of the record; [url] is the line
    [input] returns. *)
Definition main (py_str : json -> string) (s : session) (now : datetime)
  (url : string) : M unit :=
  print Prompt ;;;
  let slug := extract_question_slug url in
  if slug_missing slug then
    print MsgInvalidURL ;;; ret tt
  else
    fetched <- fetch_problem_data s (default "" slug) ;
    match fetched with
    | None => print MsgFetchFailed ;;; ret tt
    | Some q =>
        setup_problem_directory now
          (py_str (question_id q)) (question_slug q)
          (py_str (question_title q)) ;;;
        update_main_readme
          {| question_id := py_str (question_id q);
             question_title := py_str (question_title q);
             question_slug := question_slug q;
             difficulty := py_str (difficulty q);
             topic_tags := topic_tags q |} url ;;;
        print (MsgSuccess (py_str (question_title q)))
    end.

(** ** Notions used in the statements *)

(** The pattern of the extractor matches in [url] at offset [n]: the
    marker is there, followed by a character other than ["/"]. *)
Definition matches_at (url : string) (n : nat) : Prop :=
  exists pre c post,
    url = pre +:+ marker +:+ String c post /\
    String.length pre = n /\ c <> "/"%char.

(** The marker occurs in [url] at offset [n]. *)
Definition marker_at (url : string) (n : nat) : Prop :=
  exists pre post, url = pre +:+ marker +:+ post /\ String.length pre = n.

(** [g] is the longest prefix of [s] without ["/"]. *)
Definition maximal_non_slash_run (g s : string) : Prop :=
  exists tail,
    s = g +:+ tail /\ Text.mem "/" g = false /\
    (tail = "" \/ exists t, tail = String "/" t).

(** The numeric value of the id column of a row, when the column is
    made of decimal digits. *)
Definition numeric_id (row : string) : option N :=
  match id_column row with
  | Return col => if Text.isdigit col then Text.int col else None
  | Raise _ => None
  end.

(** [a] may stand before [b] in the index: ascending numeric ids, rows
    without a numeric id after all the rows with one. *)
Definition id_order (a b : string) : Prop :=
  match numeric_id a, numeric_id b with
  | Some x, Some y => (x <= y)%N
  | Some _, None => True
  | None, Some _ => False
  | None, None => True
  end.

(** The text of the index document, if it is there as a file. *)
Definition index_text (w : world) : option string :=
  match files w !! root_readme with
  | Some (File text) => Some text
  | _ => None
  end.

(** A row has no line break in it. *)
Definition single_line (row : string) : Prop :=
  Text.mem Text.lf row = false /\ Text.mem Text.cr row = false.


(** The order of the keys, on rows paired with a key. *)
Definition keyed_le (a b : sort_key * string) : Prop :=
  key_le (fst a) (fst b) = true.

(** A row is paired with its own key. *)
Definition keyed_right (kx : sort_key * string) : Prop :=
  entry_key (snd kx) = Return (fst kx).

(** The lines [update_main_readme] reads: those of the index, or of the
    header it first writes when there is no index. *)
Definition lines_read (w : world) : list string :=
  match files w !! root_readme with
  | Some (File text) => stripped_lines (Text.universal_newlines text)
  | _ => stripped_lines (Text.universal_newlines initial_readme)
  end.

(** A line looks like a row of the table. *)
Definition row_like (line : string) : bool := 5 <=? Text.count "|" line.

(** Writing [rows] to the index, one per line. *)
Definition with_index (rows : list string) (w : world) : world :=
  set_files
    (<[root_readme := File (Text.join Text.LF rows +:+ Text.LF)]> (files w)) w.

(** A line as the rewrite can read it back: stripped, not blank, on
    one line. *)
Definition clean (row : string) : Prop :=
  Text.strip row = row /\ row <> "" /\ single_line row.

(** A file is created with [text] unless something is already at [p]. *)
Definition ensure_file (p text : string) : M unit :=
  there <- Fs.path_exists p ;
  if there : bool then ret tt else Fs.write_file p text.

(** The three steps of the scaffolder, on any three paths. *)
Definition scaffold (p1 p2 p3 t2 t3 : string) : M unit :=
  Fs.makedirs p1 ;;; ensure_file p2 t2 ;;; ensure_file p3 t3.

(** ** Data of the scenarios *)

Definition empty_world : world :=
  {| files := ∅; console := []; requests := [] |}.

(** A world whose only file is the index, with the given text. *)
Definition world_with_index (text : string) : world :=
  {| files := {[ root_readme := File text ]}; console := []; requests := [] |}.

Definition two_sum : question_data string :=
  {| question_id := "1"; question_title := "Two Sum";
     question_slug := "two-sum"; difficulty := "Easy";
     topic_tags := "Array, Hash Table" |}.

Definition two_sum_url : string := "https://leetcode.com/problems/two-sum/".

Definition two_sum_row : string :=
  "| 1 | [Two Sum](https://leetcode.com/problems/two-sum/) | [Python](problemset/1.two-sum/two-sum.py) | Array, Hash Table | Easy |".

(** The four lines of the header, as the rewrite leaves them. *)
Definition header_lines : list string :=
  [ "# Leetcode"; "### Leetcode Problem Index";
    "| # | Title | Solution | Tags | Difficulty |";
    "|:----:|:--------:|:--------:|:-------:|:----------:|" ].

(** The text of an index with the given rows. *)
Definition index_of (rows : list string) : string :=
  Text.join Text.LF (header_lines ++ rows) +:+ Text.LF.

Definition add_two_numbers_row : string :=
  "| 2 | [Add Two Numbers](https://leetcode.com/problems/add-two-numbers/) | [Python](problemset/2.add-two-numbers/add-two-numbers.py) | Linked List, Math | Medium |".

Definition longest_palindrome_row : string :=
  "| 5 | [Longest Palindromic Substring](https://leetcode.com/problems/longest-palindromic-substring/) | [Python](problemset/5.longest-palindromic-substring/longest-palindromic-substring.py) | String | Medium |".

Definition longest_substring : question_data string :=
  {| question_id := "3";
     question_title := "Longest Substring Without Repeating Characters";
     question_slug := "longest-substring-without-repeating-characters";
     difficulty := "Medium";
     topic_tags := "Hash Table, String, Sliding Window" |}.

Definition longest_substring_url : string :=
  "https://leetcode.com/problems/longest-substring-without-repeating-characters/".

Definition longest_substring_row : string :=
  "| 3 | [Longest Substring Without Repeating Characters](https://leetcode.com/problems/longest-substring-without-repeating-characters/) | [Python](problemset/3.longest-substring-without-repeating-characters/longest-substring-without-repeating-characters.py) | Hash Table, String, Sliding Window | Medium |".

(** The record of Two Sum with a line feed at the end of the
    difficulty. *)
Definition two_sum_line_feed : question_data string :=
  {| question_id := "1"; question_title := "Two Sum";
     question_slug := "two-sum"; difficulty := "Easy" +:+ Text.LF;
     topic_tags := "Array, Hash Table" |}.

(** The first line of the row of [two_sum_line_feed]. *)
Definition two_sum_cut_row : string :=
  "| 1 | [Two Sum](https://leetcode.com/problems/two-sum/) | [Python](problemset/1.two-sum/two-sum.py) | Array, Hash Table | Easy".

(** The body of the reply for Two Sum. *)
Definition two_sum_question : json :=
  JDict [ ("questionFrontendId", JStr "1"); ("title", JStr "Two Sum");
          ("difficulty", JStr "Easy");
          ("topicTags",
           JList [ JDict [("name", JStr "Array")];
                   JDict [("name", JStr "Hash Table")] ]) ].

Definition two_sum_body : json :=
  JDict [ ("data", JDict [ ("question", two_sum_question) ]) ].

(** A session whose every reply is [r]. *)
Definition always (r : reply) : session := fun _ => r.

(** A tag object with a string name. *)
Definition named_tag (tag : json) (name : string) : Prop :=
  exists fields, tag = JDict fields /\ Py.assoc "name" fields = Some (JStr name).

(** A world where the problem directory of Two Sum is there with a
    solution already written. *)
Definition solved_world : world :=
  {| files := {[ "problemset" := Dir;
                 "problemset/1.two-sum" := Dir;
                 "problemset/1.two-sum/two-sum.py" := File "pass" ]};
     console := []; requests := [] |}.

Definition noon : datetime :=
  {| day := 3; month := 11; year := 2026;
     hour := 12; minute := 0; second := 0 |}.

(** The record of Two Sum with a line feed inside the title. *)
Definition two_sum_split_title : question_data string :=
  {| question_id := "1";
     question_title := "Two" +:+ Text.LF +:+ "Sum | II";
     question_slug := "two-sum"; difficulty := "Easy";
     topic_tags := "Array, Hash Table" |}.

(** The two lines of the row of [two_sum_split_title]. *)
Definition two_sum_split_head : string := "| 1 | [Two".

Definition two_sum_split_tail : string :=
  "Sum | II](https://leetcode.com/problems/two-sum/) | [Python](problemset/1.two-sum/two-sum.py) | Array, Hash Table | Easy |".


(** ** Notions of the further properties *)

(** Every character of [s] satisfies [f]. *)
Definition all_chars (f : ascii -> bool) (s : string) : Prop :=
  Text.forallb_string f s = true.

(** The superscript digits: [str.isdigit] accepts them, [int] does not. *)
Definition superscript (c : ascii) : bool :=
  let n := nat_of_ascii c in (n =? 178) || (n =? 179) || (n =? 185).

(** No character of [s] is a superscript digit. *)
Definition plain (s : string) : Prop :=
  all_chars (fun c => negb (superscript c)) s.

(** A path starts like the paths of the scaffolder: inside [problemset]
    or at the root of the file system. *)
Definition scaffold_like (p : string) : Prop :=
  match p with
  | String c _ => c = "p"%char \/ c = "/"%char
  | EmptyString => False
  end.

(** A session that answers for Two Sum. *)
Definition two_sum_session : session :=
  always (Response 200 (Return two_sum_body)).

(** The row has the numeric id [k]; [None] stands for a row without
    one. *)
Definition id_is (k : option N) (row : string) : bool :=
  match numeric_id row, k with
  | Some a, Some b => N.eqb a b
  | None, None => true
  | _, _ => false
  end.

(** The rows of the table among the lines of an index and a new row,
    in the order the rewrite meets them. *)
Definition table_rows (lines : list string) (entry : string) : list string :=
  filter row_like (drop 4 (append_if_new entry lines)).

(** A name without ["/"]: one component of a path. *)
Definition no_slash (s : string) : Prop := Text.mem "/" s = false.


(** The record [main] hands to the index updater: the fields of the
    fetched record, formatted. *)
Definition formatted (py_str : json -> string) (q : question_data json)
  : question_data string :=
  {| question_id := py_str (question_id q);
     question_title := py_str (question_title q);
     question_slug := question_slug q;
     difficulty := py_str (difficulty q);
     topic_tags := topic_tags q |}.

(** What [main] does once the record is fetched. *)
Definition late_steps (py_str : json -> string) (now : datetime)
  (url : string) (q : question_data json) : M unit :=
  setup_problem_directory now (py_str (question_id q)) (question_slug q)
    (py_str (question_title q)) ;;;
  update_main_readme (formatted py_str q) url ;;;
  print (MsgSuccess (py_str (question_title q))).

(** The world when the record is fetched: the prompt printed, one
    request sent. *)
Definition asked (slug : string) (w : world) : world :=
  {| files := files w; console := console w ++ [Prompt];
     requests := requests w ++ [slug] |}.


(** The record fetched for Two Sum. *)
Definition two_sum_fetched : question_data json :=
  {| question_id := JStr "1";
     question_title := JStr "Two Sum";
     question_slug := "two-sum";
     difficulty := JStr "Easy";
     topic_tags := "Array, Hash Table" |}.

(** [str] on the fields of the scenarios, which are all strings: a
    string is formatted as itself. *)
Definition str_of_field (v : json) : string :=
  match v with
  | JStr x => x
  | _ => ""
  end.

(** The record of a problem of id 5 whose difficulty holds a line feed
    followed by what reads as a row of id 2. *)
Definition palindrome_two_lines : question_data string :=
  {| question_id := "5";
     question_title := "Longest Palindromic Substring";
     question_slug := "longest-palindromic-substring";
     difficulty := "Medium" +:+ Text.LF +:+ "| 2 | a | b | c | d";
     topic_tags := "String" |}.

Definition palindrome_url : string :=
  "https://leetcode.com/problems/longest-palindromic-substring/".

(** The two lines of the row of [palindrome_two_lines]. *)
Definition palindrome_cut_row : string :=
  "| 5 | [Longest Palindromic Substring](https://leetcode.com/problems/longest-palindromic-substring/) | [Python](problemset/5.longest-palindromic-substring/longest-palindromic-substring.py) | String | Medium".

Definition stray_row : string := "| 2 | a | b | c | d |".

(** No more characters than [int] accepts digits. *)
Definition short (s : string) : Prop :=
  String.length s <= Text.int_max_str_digits.

(** [int] reads every run of digits of [s]: none is a superscript and
    there are no more than its limit. *)
Definition readable (s : string) : Prop := plain s /\ short s.

(** The character of code 0. *)
Definition nul : ascii := "000"%char.

(** The name of one entry of a directory: not empty, not ["."] nor
    [".."], without ["/"] and without the character of code 0.  A path
    made of such names is spelled in one way only. *)
Definition component (name : string) : Prop :=
  name <> "" /\ name <> "." /\ name <> ".."
  /\ Text.mem "/" name = false /\ Text.mem nul name = false.

(** * Part II: properties *)

(** ** Text *)

Section TextFacts.

Import Text.

Lemma sapp_nil_l (s : string) : "" +:+ s = s.
Proof. reflexivity. Qed.

Lemma sapp_cons (c : ascii) (s t : string) :
  String c s +:+ t = String c (s +:+ t).
Proof. reflexivity. Qed.

Lemma sapp_nil_r (s : string) : s +:+ "" = s.
Proof. induction s as [|c s IH]; [reflexivity|]. now rewrite sapp_cons, IH. Qed.

Lemma sapp_assoc (s t u : string) : (s +:+ t) +:+ u = s +:+ (t +:+ u).
Proof.
  induction s as [|c s IH]; [reflexivity|]. now rewrite !sapp_cons, IH.
Qed.

Lemma strip_prefix_app (p s : string) : strip_prefix p (p +:+ s) = Some s.
Proof.
  induction p as [|a p IH]; [reflexivity|].
  rewrite sapp_cons. cbn [strip_prefix]. now rewrite Ascii.eqb_refl.
Qed.

Lemma strip_prefix_Some (p s r : string) :
  strip_prefix p s = Some r -> s = p +:+ r.
Proof.
  revert s; induction p as [|a p IH]; intros s H.
  - cbn in H. destruct s; now inversion H.
  - destruct s as [|b s]; [discriminate|]. cbn [strip_prefix] in H.
    destruct (Ascii.eqb_spec a b) as [->|]; [|discriminate].
    rewrite sapp_cons. f_equal. now apply IH.
Qed.

Lemma string_drop_app (pre s : string) :
  drop (String.length pre) (pre +:+ s) = s.
Proof. induction pre as [|c pre IH]; [reflexivity|]. exact IH. Qed.

End TextFacts.

(** ** Slug extractor *)

Section SlugExtractor.

Import Text.

Lemma non_slash_run_maximal (s : string) :
  maximal_non_slash_run (non_slash_run s) s.
Proof.
  induction s as [|c s (tail & Hs & Hg & Ht)].
  - exists "". repeat split. now left.
  - cbn [non_slash_run]. destruct (Ascii.eqb_spec c "/") as [->|Hc].
    + exists (String "/" s). repeat split. right. now exists s.
    + exists tail. rewrite sapp_cons, <- Hs. repeat split; [|exact Ht].
      cbn [mem]. rewrite Ascii.eqb_sym.
      destruct (Ascii.eqb_spec c "/"); [contradiction|exact Hg].
Qed.

Lemma maximal_non_slash_run_unique (g g' s : string) :
  maximal_non_slash_run g s -> maximal_non_slash_run g' s -> g = g'.
Proof.
  revert g g'; induction s as [|c s IH];
    intros g g' (t & Hs & Hg & Ht) (t' & Hs' & Hg' & Ht').
  - destruct g; [|discriminate]. destruct g'; [reflexivity|discriminate].
  - destruct g as [|a g], g' as [|a' g'].
    + reflexivity.
    + exfalso. rewrite sapp_nil_l in Hs. rewrite sapp_cons in Hs'.
      destruct Ht as [->|[u ->]]; [discriminate|].
      injection Hs as -> _. injection Hs' as <- _.
      cbn in Hg'. discriminate.
    + exfalso. rewrite sapp_nil_l in Hs'. rewrite sapp_cons in Hs.
      destruct Ht' as [->|[u ->]]; [discriminate|].
      injection Hs' as -> _. injection Hs as <- _.
      cbn in Hg. discriminate.
    + rewrite sapp_cons in Hs, Hs'.
      injection Hs as <- Hs. injection Hs' as <- Hs'.
      cbn [mem] in Hg, Hg'.
      destruct (Ascii.eqb "/" c); [discriminate|].
      f_equal. apply IH; [exists t | exists t']; auto.
Qed.

Lemma non_slash_run_app_slash (g post : string) :
  mem "/" g = false -> non_slash_run (g +:+ String "/" post) = g.
Proof.
  intros H. apply maximal_non_slash_run_unique with (s := g +:+ String "/" post).
  - apply non_slash_run_maximal.
  - exists (String "/" post). repeat split; [exact H|]. right. now exists post.
Qed.

Lemma match_here_Some (s g : string) :
  match_here s = Some g <->
  exists c post, s = marker +:+ String c post /\ c <> "/"%char /\
                 g = non_slash_run (String c post).
Proof.
  unfold match_here. split.
  - destruct (strip_prefix marker s) as [rest|] eqn:E; [|discriminate].
    apply strip_prefix_Some in E. subst s.
    destruct rest as [|c post]; [discriminate|].
    destruct (Ascii.eqb_spec c "/") as [->|Hc].
    + cbn. discriminate.
    + intros H. exists c, post. repeat split; [assumption|].
      destruct (non_slash_run (String c post)); congruence.
  - intros (c & post & -> & Hc & ->).
    rewrite strip_prefix_app. cbn [non_slash_run].
    destruct (Ascii.eqb_spec c "/"); [contradiction|reflexivity].
Qed.

Lemma match_here_None (s : string) :
  match_here s = None <-> ~ matches_at s 0.
Proof.
  split.
  - intros H (pre & c & post & E & Hl & Hc).
    destruct pre; [|discriminate]. rewrite sapp_nil_l in E.
    assert (match_here s = Some (non_slash_run (String c post))) as H'
      by (apply match_here_Some; eauto).
    congruence.
  - intros H. destruct (match_here s) as [g|] eqn:E; [|reflexivity].
    apply match_here_Some in E as (c & post & -> & Hc & _).
    exfalso. apply H. exists "", c, post. auto.
Qed.

Lemma matches_at_S (a : ascii) (s : string) (n : nat) :
  matches_at (String a s) (S n) <-> matches_at s n.
Proof.
  split.
  - intros (pre & c & post & E & Hl & Hc).
    destruct pre as [|b pre]; [discriminate|].
    rewrite sapp_cons in E. injection E as -> ->.
    exists pre, c, post. cbn in Hl. auto with lia.
  - intros (pre & c & post & -> & <- & Hc).
    exists (String a pre), c, post. auto.
Qed.

Lemma matches_at_nil (n : nat) : ~ matches_at "" n.
Proof. intros (pre & c & post & E & _). destruct pre; discriminate. Qed.

(** Whether the pattern matches at an offset can be computed. *)
Lemma matches_at_drop (url : string) (n : nat) :
  matches_at url n <-> match_here (drop n url) <> None.
Proof.
  revert url; induction n as [|n IH]; intros url.
  - cbn [drop]. rewrite match_here_None. split; [tauto|].
    intros H. destruct (match_here url) as [g|] eqn:E.
    + apply match_here_Some in E as (c & post & -> & Hc & _).
      exists "", c, post. auto.
    + exfalso. apply H. intros Hm. apply match_here_None in E. tauto.
  - destruct url as [|a url].
    + cbn. split; [intros H; now apply matches_at_nil in H|congruence].
    + rewrite matches_at_S. apply IH.
Qed.

Lemma re_search_here (s g : string) :
  match_here s = Some g -> re_search s = Some g.
Proof. intros H. destruct s; cbn [re_search]; now rewrite H. Qed.

(** [re.search] returns the group of the leftmost match. *)
Lemma re_search_first (url pre rest : string) (c : ascii) :
  url = pre +:+ marker +:+ String c rest -> c <> "/"%char ->
  (forall k, k < String.length pre -> ~ matches_at url k) ->
  re_search url = Some (non_slash_run (String c rest)).
Proof.
  revert url; induction pre as [|a pre IH]; intros url -> Hc Hfirst.
  - rewrite sapp_nil_l. apply re_search_here, match_here_Some; eauto.
  - rewrite sapp_cons. cbn [re_search].
    assert (match_here (String a (pre +:+ marker +:+ String c rest)) = None)
      as ->.
    { apply match_here_None. rewrite <- sapp_cons. apply Hfirst. cbn. lia. }
    apply IH; [reflexivity|exact Hc|].
    intros k Hk Hm. apply (Hfirst (S k)); [cbn; lia|].
    rewrite sapp_cons. now apply matches_at_S.
Qed.

Lemma re_search_None (url : string) :
  re_search url = None <-> forall n, ~ matches_at url n.
Proof.
  induction url as [|a url IH].
  - split; [|reflexivity]. intros _ n. apply matches_at_nil.
  - cbn [re_search]. destruct (match_here (String a url)) as [g|] eqn:E.
    + split; [discriminate|]. intros H. exfalso.
      assert (match_here (String a url) <> None) as N by congruence.
      apply N, match_here_None, H.
    + rewrite IH. apply match_here_None in E. split.
      * intros H [|n]; [assumption|]. rewrite matches_at_S. apply H.
      * intros H n Hm. apply (H (S n)). now apply matches_at_S.
Qed.

Lemma marker_at_S (a : ascii) (s : string) (n : nat) :
  marker_at (String a s) (S n) <-> marker_at s n.
Proof.
  split.
  - intros (pre & post & E & Hl).
    destruct pre as [|b pre]; [discriminate|].
    rewrite sapp_cons in E. injection E as -> ->.
    exists pre, post. cbn in Hl. auto with lia.
  - intros (pre & post & -> & <-). exists (String a pre), post. auto.
Qed.

(** Whether the marker occurs at an offset can be computed. *)
Lemma marker_at_drop (url : string) (n : nat) :
  marker_at url n <-> strip_prefix marker (drop n url) <> None.
Proof.
  revert url; induction n as [|n IH]; intros url.
  - cbn [drop]. split.
    + intros (pre & post & -> & Hl). destruct pre; [|discriminate].
      rewrite sapp_nil_l, strip_prefix_app. discriminate.
    + destruct (strip_prefix marker url) as [r|] eqn:E; [|congruence].
      intros _. apply strip_prefix_Some in E. now exists "", r.
  - destruct url as [|a url].
    + cbn. split; [|congruence].
      intros (pre & post & E & _). destruct pre; discriminate.
    + rewrite marker_at_S. apply IH.
Qed.

End SlugExtractor.

(** Closes a goal [forall k, k < n -> ~ P url k] at a concrete [url] and
    [n], [P] being decided through [lem]. *)
Ltac no_earlier lem :=
  let k := fresh "k" in
  let Hk := fresh "Hk" in
  let H := fresh "H" in
  intros k Hk; cbn [String.length] in Hk; rewrite lem;
  repeat (destruct k as [|k];
          [vm_compute; intros H; now apply H|rewrite <- Nat.succ_lt_mono in Hk]);
  inversion Hk.

(** C5, as amended.  If [problems/<slug>/] (the slug non-empty and free
    of ["/"]) is where the pattern first matches in the URL, the
    extractor returns exactly [<slug>]; and if the URL nowhere holds the
    marker followed by a character other than ["/"], the extractor
    returns [None]. *)
Theorem extract_question_slug_spec (url pre slug post : string) :
  (url = pre +:+ marker +:+ slug +:+ "/" +:+ post ->
   slug <> "" -> Text.mem "/" slug = false ->
   (forall k, k < String.length pre -> ~ matches_at url k) ->
   extract_question_slug url = Some slug)
  /\ ((forall n, ~ matches_at url n) -> extract_question_slug url = None).
Proof.
  split.
  - intros -> Hne Hslash Hfirst.
    destruct slug as [|c slug]; [contradiction|].
    assert (c <> "/"%char) as Hc.
    { intros ->. cbn in Hslash. discriminate. }
    unfold extract_question_slug.
    etransitivity;
      [exact (re_search_first _ pre (slug +:+ "/" +:+ post) c eq_refl Hc Hfirst)|].
    f_equal. rewrite <- sapp_cons. now apply non_slash_run_app_slash.
  - intros H. now apply re_search_None.
Qed.

Lemma extract_question_slug_spec_witness :
  extract_question_slug "https://leetcode.com/problems/two-sum/description/"
  = Some "two-sum"
  /\ extract_question_slug "https://leetcode.com/discuss/general" = None.
Proof.
  split.
  - apply (proj1 (extract_question_slug_spec
                    "https://leetcode.com/problems/two-sum/description/"
                    "https://leetcode.com/" "two-sum" "description/")).
    + reflexivity.
    + discriminate.
    + reflexivity.
    + no_earlier matches_at_drop.
  - apply (proj2 (extract_question_slug_spec
                    "https://leetcode.com/discuss/general" "" "" "")).
    apply re_search_None. reflexivity.
Defined.

(** C5 as stated fails when [problems/<slug>/] occurs after an earlier
    match: the URL below contains [problems/b/], and the extractor
    returns ["a"]. *)
Lemma extract_question_slug_later_occurrence :
  "https://leetcode.com/problems/a/problems/b/"
  = "https://leetcode.com/problems/a/" +:+ marker +:+ "b" +:+ "/" +:+ ""
  /\ extract_question_slug "https://leetcode.com/problems/a/problems/b/"
     = Some "a"
  /\ extract_question_slug "https://leetcode.com/problems/a/problems/b/"
     <> Some "b".
Proof. repeat split. discriminate. Qed.

(** C10, as amended.  The extractor returns the maximal run of
    characters other than ["/"] that follows the first occurrence of
    [problems/] followed by such a character; so a URL that ends in
    [problems/<slug>], without a slash after it, yields [<slug>], and
    what follows the slug up to the next ["/"] is part of the result. *)
Theorem extract_question_slug_first_match
  (url pre rest : string) (c : ascii) :
  (url = pre +:+ marker +:+ String c rest -> c <> "/"%char ->
   (forall k, k < String.length pre -> ~ matches_at url k) ->
   exists g, extract_question_slug url = Some g /\
             maximal_non_slash_run g (String c rest))
  /\ (url = pre +:+ marker +:+ String c rest ->
      Text.mem "/" (String c rest) = false ->
      (forall k, k < String.length pre -> ~ matches_at url k) ->
      extract_question_slug url = Some (String c rest))
  /\ extract_question_slug
       "https://leetcode.com/problems/two-sum?tab=description"
     = Some "two-sum?tab=description".
Proof.
  split; [|split; [|reflexivity]].
  - intros E Hc Hfirst. exists (non_slash_run (String c rest)). split.
    + now apply (re_search_first url pre rest c).
    + apply non_slash_run_maximal.
  - intros E Hslash Hfirst.
    assert (c <> "/"%char) as Hc.
    { intros ->. cbn in Hslash. discriminate. }
    unfold extract_question_slug.
    rewrite (re_search_first url pre rest c E Hc Hfirst). f_equal.
    apply maximal_non_slash_run_unique with (s := String c rest).
    + apply non_slash_run_maximal.
    + exists "". rewrite sapp_nil_r. repeat split; [exact Hslash|now left].
Qed.

Lemma extract_question_slug_first_match_witness :
  (exists g,
     extract_question_slug "https://leetcode.com/problems/two-sum/x" = Some g
     /\ maximal_non_slash_run g "two-sum/x")
  /\ extract_question_slug "https://leetcode.com/problems/two-sum"
     = Some "two-sum".
Proof.
  split.
  - apply (proj1 (extract_question_slug_first_match
                    "https://leetcode.com/problems/two-sum/x"
                    "https://leetcode.com/" "wo-sum/x" "t")).
    + reflexivity.
    + discriminate.
    + no_earlier matches_at_drop.
  - apply (proj1 (proj2 (extract_question_slug_first_match
                    "https://leetcode.com/problems/two-sum"
                    "https://leetcode.com/" "wo-sum" "t"))).
    + reflexivity.
    + reflexivity.
    + no_earlier matches_at_drop.
Defined.

(** C10 as stated fails when the first occurrence of [problems/] is
    followed by ["/"] or by nothing.  In the first URL the marker first
    occurs at offset 21 and nothing follows it: the run is empty, and the
    extractor returns [None], not the run.  In the second the marker
    first occurs at offset 0 and the run after it is empty: the
    extractor returns ["abc"], taken after a later occurrence. *)
Lemma extract_question_slug_first_marker_unmatched :
  (marker_at "https://leetcode.com/problems/" 21
   /\ (forall k, k < 21 -> ~ marker_at "https://leetcode.com/problems/" k)
   /\ maximal_non_slash_run "" ""
   /\ extract_question_slug "https://leetcode.com/problems/" = None)
  /\ (marker_at "problems//problems/abc" 0
      /\ maximal_non_slash_run "" "/problems/abc"
      /\ extract_question_slug "problems//problems/abc" = Some "abc").
Proof.
  split; [split; [|split; [|split]]|split; [|split]].
  - exists "https://leetcode.com/", "". split; reflexivity.
  - no_earlier marker_at_drop.
  - exists "". repeat split. now left.
  - reflexivity.
  - exists "", "/problems/abc". split; reflexivity.
  - exists "/problems/abc". repeat split. right. now exists "problems/abc".
  - reflexivity.
Qed.

(** ** The sort of the index updater *)

Section Sorting.

Lemma key_le_total (a b : sort_key) : key_le a b = false -> key_le b a = true.
Proof.
  destruct a as [x|], b as [y|]; cbn; try congruence.
  rewrite N.leb_gt, N.leb_le. lia.
Qed.

Lemma key_le_trans (a b c : sort_key) :
  key_le a b = true -> key_le b c = true -> key_le a c = true.
Proof.
  destruct a as [x|], b as [y|], c as [z|]; cbn; try congruence.
  rewrite !N.leb_le. lia.
Qed.

Lemma insert_by_key_perm (x : sort_key * string) (l : list (sort_key * string)) :
  Permutation (insert_by_key x l) (x :: l).
Proof.
  induction l as [|y l IH]; cbn [insert_by_key]; [reflexivity|].
  destruct (key_le (fst x) (fst y)); [reflexivity|].
  rewrite IH. apply perm_swap.
Qed.

Lemma sort_by_key_perm (l : list (sort_key * string)) :
  Permutation (sort_by_key l) l.
Proof.
  induction l as [|x l IH]; [reflexivity|].
  change (sort_by_key (x :: l)) with (insert_by_key x (sort_by_key l)).
  rewrite insert_by_key_perm. now apply perm_skip.
Qed.

Lemma insert_by_key_sorted (x : sort_key * string) (l : list (sort_key * string)) :
  StronglySorted keyed_le l -> StronglySorted keyed_le (insert_by_key x l).
Proof.
  induction l as [|y l IH]; intros Hs; cbn [insert_by_key].
  - repeat constructor.
  - apply StronglySorted_inv in Hs as [Hl Hy].
    destruct (key_le (fst x) (fst y)) eqn:E.
    + constructor; [now constructor|]. constructor; [exact E|].
      eapply Forall_impl; [exact Hy|].
      intros z Hz. eapply key_le_trans; [exact E|exact Hz].
    + constructor; [now apply IH|].
      apply (Permutation_Forall (Permutation_sym (insert_by_key_perm x l))).
      constructor; [|exact Hy]. now apply key_le_total.
Qed.

Lemma sort_by_key_sorted (l : list (sort_key * string)) :
  StronglySorted keyed_le (sort_by_key l).
Proof.
  induction l as [|x l IH]; [constructor|].
  change (sort_by_key (x :: l)) with (insert_by_key x (sort_by_key l)).
  now apply insert_by_key_sorted.
Qed.

(** Sorting leaves a sorted list as it is. *)
Lemma sort_by_key_sorted_id (l : list (sort_key * string)) :
  StronglySorted keyed_le l -> sort_by_key l = l.
Proof.
  induction l as [|x l IH]; intros Hs; [reflexivity|].
  apply StronglySorted_inv in Hs as [Hl Hx].
  change (sort_by_key (x :: l)) with (insert_by_key x (sort_by_key l)).
  rewrite (IH Hl). destruct l as [|y l]; [reflexivity|].
  cbn [insert_by_key]. apply Forall_inv in Hx. unfold keyed_le in Hx.
  now rewrite Hx.
Qed.

(** The sort is stable: rows with the same key keep their order. *)
Lemma insert_by_key_filter (P : sort_key * string -> bool)
  (x : sort_key * string) (l : list (sort_key * string)) :
  (forall y, P x = true -> P y = true -> key_le (fst x) (fst y) = true) ->
  filter P (insert_by_key x l) = filter P (x :: l).
Proof.
  intros HP. induction l as [|y l IH]; [reflexivity|].
  cbn [insert_by_key]. destruct (key_le (fst x) (fst y)) eqn:E; [reflexivity|].
  rewrite filter_cons, IH, !filter_cons.
  destruct (decide (P y)) as [Hy|Hy], (decide (P x)) as [Hx|Hx];
    try reflexivity.
  apply Is_true_true in Hx, Hy. rewrite (HP y Hx Hy) in E. discriminate.
Qed.

Lemma sort_by_key_stable (k : sort_key) (l : list (sort_key * string)) :
  filter (fun y => key_le k (fst y) && key_le (fst y) k) (sort_by_key l)
  = filter (fun y => key_le k (fst y) && key_le (fst y) k) l.
Proof.
  induction l as [|x l IH]; [reflexivity|].
  change (sort_by_key (x :: l)) with (insert_by_key x (sort_by_key l)).
  rewrite insert_by_key_filter.
  - rewrite !filter_cons, IH. reflexivity.
  - intros y Hx Hy. apply andb_true_iff in Hx as [Hx1 Hx2].
    apply andb_true_iff in Hy as [Hy1 Hy2].
    eapply key_le_trans; eassumption.
Qed.

Lemma mapM_Return {A B : Type} (f : A -> outcome B) (l : list A) (ys : list B) :
  Py.mapM f l = Return ys <-> Forall2 (fun x y => f x = Return y) l ys.
Proof.
  revert ys; induction l as [|x l IH]; intros ys; cbn [Py.mapM].
  - split.
    + intros [= <-]. constructor.
    + intros H. inversion H. reflexivity.
  - split.
    + destruct (f x) as [y|e] eqn:Ex; cbn [obind]; [|discriminate].
      destruct (Py.mapM f l) as [ys'|e] eqn:El; cbn [obind]; [|discriminate].
      intros [= <-]. constructor; [exact Ex|]. now apply IH.
    + intros H. inversion H as [|x' y l' ys' Hx Hl]; subst.
      rewrite Hx. cbn [obind]. apply IH in Hl. rewrite Hl. reflexivity.
Qed.

Lemma entry_key_numeric_id (row : string) (k : sort_key) :
  entry_key row = Return k ->
  numeric_id row = match k with Num n => Some n | Inf => None end.
Proof.
  unfold entry_key, numeric_id.
  destruct (id_column row) as [col|e]; cbn [obind]; [|discriminate].
  destruct (Text.isdigit col).
  - destruct (Text.int col); [|discriminate]. now intros [= <-].
  - now intros [= <-].
Qed.

Lemma mapM_keyed_right (keyed : list (sort_key * string)) :
  Forall keyed_right keyed ->
  Py.mapM (fun x => k <~ entry_key x ; Return (k, x)) (map snd keyed)
  = Return keyed.
Proof.
  intros H. apply mapM_Return.
  induction H as [|[k x] l Hx _ IH]; [constructor|].
  cbn [map snd]. constructor; [|exact IH].
  unfold keyed_right in Hx. cbn [fst snd] in Hx. now rewrite Hx.
Qed.

(** What [entries.sort(key=...)] gives when no key raises. *)
Lemma sort_entries_Return (entries sorted : list string) :
  sort_entries entries = Return sorted ->
  exists keyed,
    sorted = map snd keyed
    /\ Forall keyed_right keyed
    /\ StronglySorted keyed_le keyed
    /\ Permutation sorted entries.
Proof.
  unfold sort_entries.
  destruct (Py.mapM _ entries) as [keyed|e] eqn:E; cbn [obind]; [|discriminate].
  intros [= <-]. exists (sort_by_key keyed).
  apply mapM_Return in E.
  assert (Forall keyed_right keyed /\ map snd keyed = entries) as [Hk Hm].
  { induction E as [|x kx l l' Hx _ [IH1 IH2]]; [now split|].
    destruct (entry_key x) as [k|] eqn:Ek; cbn [obind] in Hx; [|discriminate].
    injection Hx as <-.
    split; [constructor; [exact Ek|exact IH1]|]. cbn. now rewrite IH2. }
  split; [reflexivity|]. split; [|split].
  - apply (Permutation_Forall (Permutation_sym (sort_by_key_perm keyed))).
    exact Hk.
  - apply sort_by_key_sorted.
  - rewrite <- Hm. apply Permutation_map, sort_by_key_perm.
Qed.

(** Sorting again what the sort gave changes nothing. *)
Lemma sort_entries_again (entries sorted : list string) :
  sort_entries entries = Return sorted -> sort_entries sorted = Return sorted.
Proof.
  intros H. apply sort_entries_Return in H as (keyed & -> & Hk & Hs & _).
  unfold sort_entries. rewrite (mapM_keyed_right _ Hk). cbn [obind].
  now rewrite (sort_by_key_sorted_id _ Hs).
Qed.

Lemma sort_entries_id_order (entries sorted : list string) :
  sort_entries entries = Return sorted -> StronglySorted id_order sorted.
Proof.
  intros H. apply sort_entries_Return in H as (keyed & -> & Hf & Hs & _).
  induction Hs as [|kx l Hs IH Hall]; [constructor|].
  apply Forall_cons in Hf as [Hx Hf].
  cbn [map]. constructor; [now apply IH|].
  apply Forall_map. rewrite Forall_forall in Hall, Hf |- *.
  intros ky Hin. specialize (Hall ky Hin). specialize (Hf ky Hin).
  unfold id_order, keyed_le, keyed_right in *.
  rewrite (entry_key_numeric_id _ _ Hx), (entry_key_numeric_id _ _ Hf).
  destruct (fst kx), (fst ky); cbn in Hall; try congruence; try exact I.
  now apply N.leb_le.
Qed.

End Sorting.

(** ** The index updater: from the lines read to the rows written *)

Section Rewrite.

Lemma rewritten_rows_Return (lines rows : list string) (entry : string) :
  rewritten_rows lines entry = Return rows <->
  exists entries,
    sort_entries (filter row_like (drop 4 (append_if_new entry lines)))
    = Return entries
    /\ rows = take 4 (append_if_new entry lines) ++ entries.
Proof.
  unfold rewritten_rows. fold row_like.
  destruct (sort_entries _) as [entries|e]; cbn [obind].
  - split.
    + intros [= <-]. now exists entries.
    + intros (entries' & [= <-] & ->). reflexivity.
  - split; [discriminate|]. intros (entries' & [=] & _).
Qed.

(** The header and the entries of the rows written are where the
    split of the lines put them. *)
Lemma header_entries_split (lines entries : list string) :
  Permutation entries (filter row_like (drop 4 lines)) ->
  take 4 (take 4 lines ++ entries) = take 4 lines
  /\ drop 4 (take 4 lines ++ entries) = entries.
Proof.
  intros Hp. destruct (decide (4 <= length lines)) as [Hl|Hl].
  - assert (length (take 4 lines) = 4) as E by (rewrite length_take; lia).
    split.
    + now apply take_app_length'.
    + now apply drop_app_length'.
  - rewrite drop_ge in Hp by lia. cbn in Hp.
    apply Permutation_nil_r in Hp. subst entries.
    rewrite app_nil_r. split.
    + apply take_take.
    + apply drop_ge. rewrite length_take. lia.
Qed.

Lemma rewritten_rows_split (lines rows : list string) (entry : string) :
  rewritten_rows lines entry = Return rows ->
  take 4 rows = take 4 (append_if_new entry lines)
  /\ sort_entries (filter row_like (drop 4 (append_if_new entry lines)))
     = Return (drop 4 rows).
Proof.
  intros H. apply rewritten_rows_Return in H as (entries & Hs & ->).
  destruct (header_entries_split (append_if_new entry lines) entries)
    as [Ht Hd].
  - now apply sort_entries_Return in Hs as (_ & _ & _ & _ & Hp).
  - rewrite Ht, Hd. now split.
Qed.

(** With fewer than four lines after the append, every line is header:
    nothing is filtered, nothing is sorted, nothing can raise. *)
Lemma rewritten_rows_short (lines : list string) (entry : string) :
  length (append_if_new entry lines) <= 4 ->
  rewritten_rows lines entry = Return (append_if_new entry lines).
Proof.
  intros H. unfold rewritten_rows.
  rewrite (drop_ge _ 4) by exact H. cbn.
  now rewrite app_nil_r, take_ge.
Qed.

Lemma append_if_new_spec (entry : string) (lines : list string) :
  (In entry lines -> append_if_new entry lines = lines)
  /\ (~ In entry lines -> append_if_new entry lines = lines ++ [entry]).
Proof.
  unfold append_if_new.
  destruct (existsb (String.eqb entry) lines) eqn:E.
  - split; [reflexivity|]. intros Hn. exfalso. apply Hn.
    apply existsb_exists in E as (x & Hx & Ex).
    apply String.eqb_eq in Ex. now subst x.
  - split; [|reflexivity]. intros Hin.
    assert (existsb (String.eqb entry) lines = true) as E'.
    { apply existsb_exists. exists entry. split; [exact Hin|].
      apply String.eqb_refl. }
    congruence.
Qed.

Lemma append_if_new_In (entry : string) (lines : list string) :
  In entry (append_if_new entry lines).
Proof.
  destruct (append_if_new_spec entry lines) as [H1 H2].
  destruct (in_dec string_dec entry lines) as [Hin|Hn].
  - now rewrite H1.
  - rewrite (H2 Hn). apply in_or_app. right. now left.
Qed.

End Rewrite.

(** ** The index updater: runs *)

Section UpdateRuns.

Lemma parent_check_root (f : gmap string node) :
  Fs.parent_check f root_readme = Return tt.
Proof. reflexivity. Qed.

(** What the updater does once the index is there with text [text]. *)
Lemma update_main_readme_file
  (q : question_data string) (url text : string) (w : world) :
  files w !! root_readme = Some (File text) ->
  update_main_readme q url w
  = match rewritten_rows (lines_read w) (new_entry q url) with
    | Return rows => (Return tt, with_index rows w)
    | Raise e => (Raise e, w)
    end.
Proof.
  intros H.
  unfold update_main_readme, lines_read, with_index, bind, ret, lift,
    Fs.path_exists, Fs.read_file, Fs.write_file.
  cbv beta. rewrite !H.
  destruct (rewritten_rows _ _) as [rows|e]; [|reflexivity].
  now rewrite parent_check_root.
Qed.

(** Without an index the header is written first. *)
Lemma update_main_readme_absent
  (q : question_data string) (url : string) (w : world) :
  files w !! root_readme = None ->
  update_main_readme q url w
  = match rewritten_rows (lines_read w) (new_entry q url) with
    | Return rows => (Return tt, with_index rows w)
    | Raise e =>
        (Raise e,
         set_files (<[root_readme := File initial_readme]> (files w)) w)
    end.
Proof.
  intros H.
  unfold update_main_readme, lines_read, with_index, bind, ret, lift,
    Fs.path_exists, Fs.read_file, Fs.write_file.
  cbv beta. rewrite !H, parent_check_root. cbn [files set_files].
  rewrite lookup_insert_eq.
  destruct (rewritten_rows _ _) as [rows|e]; [|reflexivity].
  cbn [files set_files console requests].
  rewrite lookup_insert_eq, parent_check_root.
  unfold set_files. cbn [files console requests].
  now rewrite insert_insert_eq.
Qed.

(** A directory in the place of the index makes the read raise. *)
Lemma update_main_readme_dir
  (q : question_data string) (url : string) (w : world) :
  files w !! root_readme = Some Dir ->
  update_main_readme q url w = (Raise IsADirectoryError, w).
Proof.
  intros H.
  unfold update_main_readme, bind, ret, lift,
    Fs.path_exists, Fs.read_file, Fs.write_file.
  cbv beta. now rewrite !H.
Qed.

(** A run that returns has written the rows computed from the lines read. *)
Lemma update_main_readme_Return
  (q : question_data string) (url : string) (w w' : world) :
  update_main_readme q url w = (Return tt, w') ->
  exists rows,
    rewritten_rows (lines_read w) (new_entry q url) = Return rows
    /\ w' = with_index rows w.
Proof.
  destruct (files w !! root_readme) as [[text|]|] eqn:E.
  - rewrite (update_main_readme_file q url text w E).
    destruct (rewritten_rows _ _) as [rows|e]; [|discriminate].
    intros [= <-]. now exists rows.
  - rewrite (update_main_readme_dir q url w E). discriminate.
  - rewrite (update_main_readme_absent q url w E).
    destruct (rewritten_rows _ _) as [rows|e]; [|discriminate].
    intros [= <-]. now exists rows.
Qed.

Lemma index_text_with_index (rows : list string) (w : world) :
  index_text (with_index rows w)
  = Some (Text.join Text.LF rows +:+ Text.LF).
Proof.
  unfold index_text, with_index, set_files. cbn [files].
  now rewrite lookup_insert_eq.
Qed.

End UpdateRuns.

(** ** The index updater: sorted rows, filtered rows, first run *)

Section UpdateRows.

Lemma count_app (c : ascii) (s t : string) :
  Text.count c (s +:+ t) = Text.count c s + Text.count c t.
Proof.
  induction s as [|d s IH]; [reflexivity|].
  rewrite sapp_cons. cbn [Text.count]. rewrite IH. lia.
Qed.

(** The new row always looks like a row of the table. *)
Lemma new_entry_row_like (q : question_data string) (url : string) :
  row_like (new_entry q url) = true.
Proof.
  unfold row_like, new_entry. rewrite !count_app.
  apply Nat.leb_le.
  change (Text.count "|" "| ") with 1.
  change (Text.count "|" " | [") with 1.
  change (Text.count "|" ") | [Python](") with 1.
  change (Text.count "|" ") | ") with 1.
  change (Text.count "|" " | ") with 1.
  change (Text.count "|" " |") with 1.
  lia.
Qed.

Lemma In_filter_row_like (line : string) (l : list string) :
  In line (filter row_like l) <-> In line l /\ row_like line = true.
Proof.
  rewrite <- !list_elem_of_In, list_elem_of_filter, Is_true_true. tauto.
Qed.

End UpdateRows.

(** C2, as amended.  When there is no index yet, or when the index
    holds the four lines of the header and nothing else,
    [update_main_readme] with the record of Two Sum and its URL leaves
    an index made of the four header lines and the single row of the
    problem, each line ended by a newline. *)
Theorem update_main_readme_first_entry (w : world) :
  (files w !! root_readme = None
   \/ exists text,
        files w !! root_readme = Some (File text)
        /\ stripped_lines (Text.universal_newlines text) = header_lines) ->
  new_entry two_sum two_sum_url = two_sum_row
  /\ update_main_readme two_sum two_sum_url w
     = (Return tt, with_index (header_lines ++ [two_sum_row]) w)
  /\ index_text (with_index (header_lines ++ [two_sum_row]) w)
     = Some ("# Leetcode" +:+ Text.LF
             +:+ "### Leetcode Problem Index" +:+ Text.LF
             +:+ "| # | Title | Solution | Tags | Difficulty |" +:+ Text.LF
             +:+ "|:----:|:--------:|:--------:|:-------:|:----------:|"
             +:+ Text.LF
             +:+ "| 1 | [Two Sum](https://leetcode.com/problems/two-sum/) | [Python](problemset/1.two-sum/two-sum.py) | Array, Hash Table | Easy |"
             +:+ Text.LF).
Proof.
  intros H. split; [reflexivity|]. split.
  - assert (rewritten_rows header_lines (new_entry two_sum two_sum_url)
            = Return (header_lines ++ [two_sum_row])) as Hr
      by (vm_compute; reflexivity).
    destruct H as [H|(text & H & Hl)].
    + rewrite (update_main_readme_absent _ _ _ H).
      assert (lines_read w = header_lines) as ->
        by (unfold lines_read; now rewrite H).
      now rewrite Hr.
    + rewrite (update_main_readme_file _ _ text _ H).
      assert (lines_read w = header_lines) as ->
        by (unfold lines_read; now rewrite H).
      now rewrite Hr.
  - rewrite index_text_with_index. reflexivity.
Qed.

Lemma update_main_readme_first_entry_witness :
  update_main_readme two_sum two_sum_url empty_world
  = (Return tt, with_index (header_lines ++ [two_sum_row]) empty_world)
  /\ update_main_readme two_sum two_sum_url (world_with_index initial_readme)
     = (Return tt,
        with_index (header_lines ++ [two_sum_row])
          (world_with_index initial_readme)).
Proof.
  split.
  - apply (update_main_readme_first_entry empty_world). now left.
  - apply (update_main_readme_first_entry (world_with_index initial_readme)).
    right. exists initial_readme. split; reflexivity.
Defined.

(** C2 as stated fails for an index that is there and empty: the header
    is written only when there is no index file, so the row is then
    written alone, without the header. *)
Lemma update_main_readme_empty_file :
  update_main_readme two_sum two_sum_url (world_with_index "")
  = (Return tt, world_with_index (two_sum_row +:+ Text.LF))
  /\ index_text (world_with_index (two_sum_row +:+ Text.LF))
     = Some (two_sum_row +:+ Text.LF)
  /\ two_sum_row +:+ Text.LF <> index_of [two_sum_row].
Proof.
  split; [vm_compute; reflexivity|]. split; [reflexivity|].
  vm_compute. discriminate.
Qed.

(** C9.  The new row is appended before the split into header and
    entries.  If the index is there with fewer than four non-blank
    lines, all its lines and the new row are written back as they are,
    the new row among the first four: no filter, no sort.  If it has at
    least four, its first four lines stay the header and the new row,
    unless it was already a line of the index, is among the rows after
    them.  So an index holding the one line [notes] keeps it and gets
    the row as its second line, and an index that is there but empty
    gets the row and no header. *)
Theorem update_main_readme_short_index
  (q : question_data string) (url text : string) (w : world) :
  files w !! root_readme = Some (File text) ->
  (length (lines_read w) < 4 ->
   update_main_readme q url w
   = (Return tt,
      with_index (append_if_new (new_entry q url) (lines_read w)) w)
   /\ In (new_entry q url)
        (take 4 (append_if_new (new_entry q url) (lines_read w))))
  /\ (4 <= length (lines_read w) ->
      forall w', update_main_readme q url w = (Return tt, w') ->
      exists rows,
        w' = with_index rows w
        /\ take 4 rows = take 4 (lines_read w)
        /\ (In (new_entry q url) (lines_read w)
            \/ In (new_entry q url) (drop 4 rows)))
  /\ update_main_readme two_sum two_sum_url
       (world_with_index ("notes" +:+ Text.LF))
     = (Return tt,
        world_with_index
          ("notes" +:+ Text.LF +:+ two_sum_row +:+ Text.LF))
  /\ update_main_readme two_sum two_sum_url (world_with_index "")
     = (Return tt, world_with_index (two_sum_row +:+ Text.LF)).
Proof.
  intros H.
  split; [|split; [|split; vm_compute; reflexivity]].
  - intros Hlen.
    assert (length (append_if_new (new_entry q url) (lines_read w)) <= 4)
      as Hl.
    { unfold append_if_new. destruct (existsb _ _); [lia|].
      rewrite length_app. cbn. lia. }
    split.
    + rewrite (update_main_readme_file q url text w H).
      now rewrite (rewritten_rows_short _ _ Hl).
    + rewrite take_ge by exact Hl. apply append_if_new_In.
  - intros Hlen w' Hrun.
    apply update_main_readme_Return in Hrun as (rows & Hr & ->).
    exists rows. split; [reflexivity|].
    apply rewritten_rows_split in Hr as [Ht Hs].
    destruct (append_if_new_spec (new_entry q url) (lines_read w))
      as [Hold Hnew].
    destruct (in_dec string_dec (new_entry q url) (lines_read w))
      as [Hin|Hn].
    + rewrite (Hold Hin) in Ht. split; [exact Ht|]. now left.
    + rewrite (Hnew Hn) in Ht, Hs.
      rewrite take_app_le in Ht by exact Hlen. split; [exact Ht|]. right.
      apply sort_entries_Return in Hs as (_ & _ & _ & _ & Hp).
      apply (Permutation_in _ (Permutation_sym Hp)).
      apply In_filter_row_like. split; [|apply new_entry_row_like].
      rewrite drop_app_le by exact Hlen.
      apply in_or_app. right. now left.
Qed.

Lemma update_main_readme_short_index_witness :
  (update_main_readme two_sum two_sum_url
     (world_with_index ("notes" +:+ Text.LF))
   = (Return tt,
      with_index
        (append_if_new (new_entry two_sum two_sum_url)
           (lines_read (world_with_index ("notes" +:+ Text.LF))))
        (world_with_index ("notes" +:+ Text.LF)))
   /\ In (new_entry two_sum two_sum_url)
        (take 4
           (append_if_new (new_entry two_sum two_sum_url)
              (lines_read (world_with_index ("notes" +:+ Text.LF))))))
  /\ exists rows,
       snd (update_main_readme two_sum two_sum_url
              (world_with_index (index_of [add_two_numbers_row])))
       = with_index rows (world_with_index (index_of [add_two_numbers_row]))
       /\ take 4 rows
          = take 4 (lines_read
                      (world_with_index (index_of [add_two_numbers_row])))
       /\ (In (new_entry two_sum two_sum_url)
             (lines_read (world_with_index (index_of [add_two_numbers_row])))
           \/ In (new_entry two_sum two_sum_url) (drop 4 rows)).
Proof.
  split.
  - apply (proj1 (update_main_readme_short_index two_sum two_sum_url
                    ("notes" +:+ Text.LF)
                    (world_with_index ("notes" +:+ Text.LF)) eq_refl)).
    vm_compute. lia.
  - apply (proj1 (proj2 (update_main_readme_short_index two_sum two_sum_url
                    (index_of [add_two_numbers_row])
                    (world_with_index (index_of [add_two_numbers_row]))
                    eq_refl))).
    + vm_compute. lia.
    + vm_compute. reflexivity.
Defined.

(** ** Reading back what was written *)

Section ReadBack.

Import Text.

Lemma mem_cons (c d : ascii) (s : string) :
  mem c (String d s) = Ascii.eqb c d || mem c s.
Proof. cbn [mem]. now destruct (Ascii.eqb c d). Qed.

Lemma mem_app (c : ascii) (s t : string) :
  mem c (s +:+ t) = mem c s || mem c t.
Proof.
  induction s as [|d s IH]; [reflexivity|].
  rewrite sapp_cons, !mem_cons, IH. now rewrite orb_assoc.
Qed.

Lemma universal_newlines_id (s : string) :
  mem cr s = false -> universal_newlines s = s.
Proof.
  induction s as [|c s IH]; [reflexivity|].
  rewrite mem_cons, Ascii.eqb_sym. intros H.
  apply orb_false_iff in H as [Hc Hs].
  cbn [universal_newlines]. rewrite Hc. now rewrite IH.
Qed.

Lemma universal_newlines_no_cr (s : string) :
  mem cr (universal_newlines s) = false.
Proof.
  enough (mem cr (universal_newlines s) = false
          /\ forall c, mem cr (universal_newlines (String c s)) = false)
    by tauto.
  induction s as [|d s [IH1 IH2]].
  - split; [reflexivity|]. intros c. cbn [universal_newlines].
    destruct (Ascii.eqb_spec c cr) as [->|Hc]; [reflexivity|].
    rewrite mem_cons. apply orb_false_iff. split; [|reflexivity].
    apply Ascii.eqb_neq. congruence.
  - split; [apply IH2|]. intros c.
    change (universal_newlines (String c (String d s)))
      with (if Ascii.eqb c cr
            then if Ascii.eqb d lf
                 then String lf (universal_newlines s)
                 else String lf (universal_newlines (String d s))
            else String c (universal_newlines (String d s))).
    destruct (Ascii.eqb_spec c cr) as [->|Hc].
    + destruct (Ascii.eqb d lf); rewrite mem_cons; [exact IH1|apply IH2].
    + rewrite mem_cons. apply orb_false_iff. split; [|apply IH2].
      apply Ascii.eqb_neq. congruence.
Qed.

Lemma readlines_app (r t : string) :
  mem lf r = false -> readlines (r +:+ LF +:+ t) = (r +:+ LF) :: readlines t.
Proof.
  induction r as [|c r IH]; intros H.
  - reflexivity.
  - rewrite mem_cons in H. apply orb_false_iff in H as [Hc Hr].
    rewrite !sapp_cons. cbn [readlines].
    rewrite Ascii.eqb_sym, Hc. now rewrite (IH Hr).
Qed.

(** A line of [readlines] is a body without line feed, followed or not
    by its terminator; its characters are characters of the text. *)
Lemma readlines_lines (t l : string) :
  In l (readlines t) ->
  exists body,
    (l = body +:+ LF \/ l = body) /\ mem lf body = false
    /\ forall c, mem c body = true -> mem c t = true.
Proof.
  revert l; induction t as [|c t IH]; intros l Hin; [destruct Hin|].
  cbn [readlines] in Hin.
  assert (forall l', In l' (readlines t) ->
            exists body,
              (l' = body +:+ LF \/ l' = body) /\ mem lf body = false
              /\ forall a, mem a body = true -> mem a (String c t) = true)
    as IH'.
  { intros l' Hl'. destruct (IH l' Hl') as (body & Hb & Hlf & Hsub).
    exists body. repeat split; [exact Hb|exact Hlf|].
    intros a Ha. rewrite mem_cons, (Hsub a Ha). apply orb_true_r. }
  destruct (Ascii.eqb_spec c lf) as [->|Hc].
  - destruct Hin as [<-|Hin]; [|now apply IH'].
    exists "". repeat split; [now left|]. discriminate.
  - assert (forall h, (h = String c "" \/ exists h', h = String c h'
                        /\ In h' (readlines t)) ->
              exists body,
                (h = body +:+ LF \/ h = body) /\ mem lf body = false
                /\ forall a, mem a body = true -> mem a (String c t) = true)
      as Hhead.
    { intros h [->|(h' & -> & Hh')].
      - exists (String c ""). repeat split; [now right| |].
        + rewrite mem_cons. apply orb_false_iff. split; [|reflexivity].
          apply Ascii.eqb_neq. congruence.
        + intros a. rewrite !mem_cons. cbn [mem]. rewrite orb_false_r.
          intros ->. reflexivity.
      - destruct (IH h' Hh') as (body & Hb & Hlf & Hsub).
        exists (String c body). repeat split.
        + destruct Hb as [->| ->]; [left|right]; reflexivity.
        + rewrite mem_cons. apply orb_false_iff. split; [|exact Hlf].
          apply Ascii.eqb_neq. congruence.
        + intros a. rewrite !mem_cons. intros Ha.
          apply orb_true_iff in Ha as [Ha|Ha]; [now rewrite Ha|].
          rewrite (Hsub a Ha). apply orb_true_r. }
    destruct (readlines t) as [|h tl] eqn:E.
    + destruct Hin as [<-|[]]. apply Hhead. now left.
    + destruct Hin as [<-|Hin].
      * apply Hhead. right. exists h. split; [reflexivity|now left].
      * apply IH'. now right.
Qed.

Lemma lstrip_sub (c : ascii) (s : string) :
  mem c (lstrip s) = true -> mem c s = true.
Proof.
  induction s as [|d s IH]; [discriminate|].
  cbn [lstrip]. destruct (isspace d); [|tauto].
  intros H. rewrite mem_cons, (IH H). apply orb_true_r.
Qed.

Lemma rstrip_sub (c : ascii) (s : string) :
  mem c (rstrip s) = true -> mem c s = true.
Proof.
  induction s as [|d s IH]; [discriminate|].
  cbn [rstrip]. destruct (rstrip s) as [|e r] eqn:E.
  - destruct (isspace d); [discriminate|].
    rewrite !mem_cons. cbn [mem]. rewrite orb_false_r. now intros ->.
  - rewrite !mem_cons. intros H.
    apply orb_true_iff in H as [H|H]; [now rewrite H|].
    rewrite mem_cons in IH. rewrite (IH H). apply orb_true_r.
Qed.

Lemma strip_sub (c : ascii) (s : string) :
  mem c (strip s) = true -> mem c s = true.
Proof. intros H. now apply lstrip_sub, rstrip_sub. Qed.

Lemma strip_keeps_absent (c : ascii) (s : string) :
  mem c s = false -> mem c (strip s) = false.
Proof.
  intros H. destruct (mem c (strip s)) eqn:E; [|reflexivity].
  apply strip_sub in E. congruence.
Qed.

Lemma rstrip_app_space (s : string) (c : ascii) :
  isspace c = true -> rstrip (s +:+ String c "") = rstrip s.
Proof.
  intros Hc. induction s as [|a s IH].
  - rewrite sapp_nil_l. cbn [rstrip]. now rewrite Hc.
  - rewrite sapp_cons. cbn [rstrip]. now rewrite IH.
Qed.

Lemma lstrip_app_space (s : string) (c : ascii) :
  isspace c = true ->
  lstrip (s +:+ String c "")
  = match lstrip s with "" => "" | t => t +:+ String c "" end.
Proof.
  intros Hc. induction s as [|a s IH].
  - rewrite sapp_nil_l. cbn [lstrip]. now rewrite Hc.
  - rewrite sapp_cons. cbn [lstrip]. destruct (isspace a); [exact IH|].
    reflexivity.
Qed.

Lemma strip_app_space (s : string) (c : ascii) :
  isspace c = true -> strip (s +:+ String c "") = strip s.
Proof.
  intros Hc. unfold strip. rewrite (lstrip_app_space s c Hc).
  destruct (lstrip s) as [|a t]; [reflexivity|].
  now apply rstrip_app_space.
Qed.

Lemma rstrip_idem (s : string) : rstrip (rstrip s) = rstrip s.
Proof.
  induction s as [|a s IH]; [reflexivity|].
  cbn [rstrip]. destruct (rstrip s) as [|b r] eqn:E.
  - destruct (isspace a) eqn:Ha; [reflexivity|]. cbn [rstrip]. now rewrite Ha.
  - cbn [rstrip]. cbn [rstrip] in IH. now rewrite IH.
Qed.

Lemma lstrip_rstrip (s : string) :
  lstrip s = s -> lstrip (rstrip s) = rstrip s.
Proof.
  destruct s as [|a s]; [reflexivity|].
  cbn [lstrip]. destruct (isspace a) eqn:Ha.
  - intros H. exfalso.
    assert (String.length (lstrip s) <= String.length s) as Hle.
    { clear. induction s as [|b s IH]; [reflexivity|].
      cbn [lstrip]. destruct (isspace b); cbn; lia. }
    rewrite H in Hle. cbn in Hle. lia.
  - intros _. cbn [rstrip]. destruct (rstrip s); [|cbn [lstrip]; now rewrite Ha].
    rewrite Ha. cbn [lstrip]. now rewrite Ha.
Qed.

Lemma lstrip_idem (s : string) : lstrip (lstrip s) = lstrip s.
Proof.
  induction s as [|a s IH]; [reflexivity|].
  cbn [lstrip]. destruct (isspace a) eqn:Ha; [exact IH|].
  cbn [lstrip]. now rewrite Ha.
Qed.

Lemma strip_idem (s : string) : strip (strip s) = strip s.
Proof.
  unfold strip.
  rewrite (lstrip_rstrip (lstrip s) (lstrip_idem s)). apply rstrip_idem.
Qed.

(** A string that ends with its own right-stripped, non-empty tail is
    right-stripped. *)
Lemma rstrip_app_fixed (s t : string) :
  rstrip t = t /\ t <> "" -> rstrip (s +:+ t) = s +:+ t /\ s +:+ t <> "".
Proof.
  intros [Ht Hne]. induction s as [|a s [IH1 IH2]]; [now split|].
  rewrite sapp_cons. split; [|discriminate].
  cbn [rstrip]. rewrite IH1. destruct (s +:+ t); [contradiction|reflexivity].
Qed.

End ReadBack.

Section ReadBackLines.

Import Text.

Lemma In_stripped_lines (l text : string) :
  In l (stripped_lines text) <->
  exists line, In line (readlines text) /\ l = strip line /\ strip line <> "".
Proof.
  unfold stripped_lines. rewrite in_map_iff. split.
  - intros (line & <- & Hin).
    apply list_elem_of_In, list_elem_of_filter in Hin as [Hp Hin].
    exists line. split; [now apply list_elem_of_In|]. split; [reflexivity|].
    apply Is_true_true, negb_true_iff, String.eqb_neq in Hp. exact Hp.
  - intros (line & Hin & -> & Hne). exists line. split; [reflexivity|].
    apply list_elem_of_In, list_elem_of_filter. split.
    + apply Is_true_true, negb_true_iff, String.eqb_neq. exact Hne.
    + now apply list_elem_of_In.
Qed.

(** The lines read are clean. *)
Lemma stripped_lines_clean (text : string) :
  Forall clean (stripped_lines (universal_newlines text)).
Proof.
  apply Forall_forall. intros l Hin.
  apply list_elem_of_In, In_stripped_lines in Hin
    as (line & Hin & -> & Hne).
  apply readlines_lines in Hin as (body & Hb & Hlf & Hsub).
  assert (strip line = strip body) as E.
  { destruct Hb as [->| ->]; [|reflexivity].
    now apply (strip_app_space body lf). }
  rewrite E in *. split; [apply strip_idem|]. split; [exact Hne|]. split.
  - now apply strip_keeps_absent.
  - apply strip_keeps_absent.
    destruct (mem cr body) eqn:Hcr; [|reflexivity].
    apply Hsub in Hcr. now rewrite universal_newlines_no_cr in Hcr.
Qed.

Lemma lines_read_clean (w : world) : Forall clean (lines_read w).
Proof.
  unfold lines_read.
  destruct (files w !! root_readme) as [[text|]|]; apply stripped_lines_clean.
Qed.

Lemma stripped_lines_cons (r t : string) :
  clean r -> stripped_lines (r +:+ LF +:+ t) = r :: stripped_lines t.
Proof.
  intros (Hs & Hne & Hlf & _). unfold stripped_lines.
  rewrite (readlines_app r t Hlf).
  assert (strip (r +:+ LF) = r) as E
    by (rewrite <- Hs at 2; now apply (strip_app_space r lf)).
  rewrite filter_cons_True.
  - cbn [map]. now rewrite E.
  - rewrite E. apply Is_true_true, negb_true_iff, String.eqb_neq. exact Hne.
Qed.

Lemma join_no_cr (rows : list string) :
  Forall clean rows -> mem cr (join LF rows) = false.
Proof.
  induction 1 as [|r rows (_ & _ & _ & Hcr) _ IH]; [reflexivity|].
  destruct rows as [|r' rows]; [exact Hcr|].
  change (join LF (r :: r' :: rows)) with (r +:+ LF +:+ join LF (r' :: rows)).
  rewrite !mem_app, Hcr, IH. reflexivity.
Qed.

(** Reading back the rows written gives the rows, when they are clean. *)
Lemma read_back (rows : list string) :
  Forall clean rows ->
  stripped_lines (universal_newlines (join LF rows +:+ LF)) = rows.
Proof.
  intros H. rewrite universal_newlines_id
    by (rewrite mem_app, (join_no_cr rows H); reflexivity).
  induction H as [|r rows Hr Hrows IH]; [reflexivity|].
  destruct rows as [|r' rows].
  - change (join LF [r] +:+ LF) with (r +:+ LF +:+ "").
    now rewrite (stripped_lines_cons r "" Hr).
  - change (join LF (r :: r' :: rows))
      with (r +:+ LF +:+ join LF (r' :: rows)).
    rewrite !sapp_assoc, (stripped_lines_cons r _ Hr). now rewrite IH.
Qed.

Lemma new_entry_clean (q : question_data string) (url : string) :
  single_line (new_entry q url) -> clean (new_entry q url).
Proof.
  intros Hsl.
  assert (rstrip (new_entry q url) = new_entry q url
          /\ new_entry q url <> "") as [Hr Hne].
  { unfold new_entry. do 12 (apply rstrip_app_fixed).
    split; [reflexivity|discriminate]. }
  split; [|split; [exact Hne|exact Hsl]].
  unfold strip.
  assert (lstrip (new_entry q url) = new_entry q url) as -> by reflexivity.
  exact Hr.
Qed.

End ReadBackLines.

(** ** The index updater: a second run *)

Section SecondRun.

Lemma filter_row_like_id (l : list string) :
  Forall (fun row => row_like row = true) l -> filter row_like l = l.
Proof.
  induction 1 as [|x l Hx _ IH]; [reflexivity|].
  rewrite filter_cons_True by now apply Is_true_true. now rewrite IH.
Qed.

(** Rewriting the rows a rewrite gave, with the same new row, gives the
    same rows. *)
Lemma rewritten_rows_again (lines rows : list string) (entry : string) :
  row_like entry = true ->
  rewritten_rows lines entry = Return rows ->
  rewritten_rows rows entry = Return rows.
Proof.
  intros He H. pose proof (rewritten_rows_split _ _ _ H) as [Ht Hs].
  pose proof (sort_entries_Return _ _ Hs) as (_ & _ & _ & _ & Hp).
  assert (Forall (fun row => row_like row = true) (drop 4 rows)) as Hall.
  { apply (Permutation_Forall (Permutation_sym Hp)).
    apply Forall_forall. intros line Hin.
    apply list_elem_of_In, In_filter_row_like in Hin. tauto. }
  assert (In entry rows) as Hin.
  { pose proof (append_if_new_In entry lines) as Hin.
    rewrite <- (take_drop 4 (append_if_new entry lines)) in Hin.
    rewrite <- (take_drop 4 rows).
    apply in_app_or in Hin as [Hin|Hin]; apply in_or_app.
    - left. now rewrite Ht.
    - right. apply (Permutation_in _ (Permutation_sym Hp)).
      apply In_filter_row_like. now split. }
  apply rewritten_rows_Return. exists (drop 4 rows).
  rewrite (proj1 (append_if_new_spec entry rows) Hin). split.
  - rewrite (filter_row_like_id _ Hall). exact (sort_entries_again _ _ Hs).
  - symmetry. apply take_drop.
Qed.

Lemma rewritten_rows_clean (lines rows : list string) (entry : string) :
  Forall clean lines -> clean entry ->
  rewritten_rows lines entry = Return rows -> Forall clean rows.
Proof.
  intros Hl He H. pose proof (rewritten_rows_split _ _ _ H) as [Ht Hs].
  apply sort_entries_Return in Hs as (_ & _ & _ & _ & Hp).
  assert (Forall clean (append_if_new entry lines)) as Hall.
  { unfold append_if_new. destruct (existsb _ _); [exact Hl|].
    apply Forall_app. split; [exact Hl|]. now constructor. }
  rewrite <- (take_drop 4 rows). apply Forall_app. split.
  - rewrite Ht. now apply Forall_take.
  - apply (Permutation_Forall (Permutation_sym Hp)).
    apply Forall_forall. intros line Hin.
    apply list_elem_of_filter in Hin as [_ Hin].
    rewrite Forall_forall in Hall. apply Hall.
    apply list_elem_of_In. apply list_elem_of_In in Hin.
    rewrite <- (take_drop 4 (append_if_new entry lines)).
    apply in_or_app. now right.
Qed.

Lemma with_index_twice (rows : list string) (w : world) :
  with_index rows (with_index rows w) = with_index rows w.
Proof.
  unfold with_index, set_files. cbn [files console requests].
  now rewrite insert_insert_eq.
Qed.

Lemma lines_read_with_index (rows : list string) (w : world) :
  Forall clean rows -> lines_read (with_index rows w) = rows.
Proof.
  intros H. unfold lines_read, with_index, set_files. cbn [files].
  rewrite lookup_insert_eq. now apply read_back.
Qed.

(** The rows a run wrote are the lines the next run reads, when the new
    row holds no line break. *)
Lemma rows_read_back
  (q : question_data string) (url : string) (w : world) (rows : list string) :
  rewritten_rows (lines_read w) (new_entry q url) = Return rows ->
  single_line (new_entry q url) ->
  lines_read (with_index rows w) = rows.
Proof.
  intros Hr Hsl. apply lines_read_with_index.
  eapply rewritten_rows_clean; [apply lines_read_clean| |exact Hr].
  now apply new_entry_clean.
Qed.

End SecondRun.

(** C1, as amended.  After every invocation of [update_main_readme]
    that returns, for a new row that holds no line break, the lines of
    the index after its first four are sorted ascending by the numeric
    value of their id column, the lines whose id column is not numeric
    standing after all the numeric ones; and inserting the row of id 3
    into an index with the rows of ids 5 and 2 gives the order 2, 3, 5.
    The lines of the index are then the rows the run writes: the first
    four lines as read, then the lines that look like rows. *)
Theorem update_main_readme_sorted
  (q : question_data string) (url : string) (w w' : world) :
  (single_line (new_entry q url) ->
   update_main_readme q url w = (Return tt, w') ->
   exists rows,
     index_text w' = Some (Text.join Text.LF rows +:+ Text.LF)
     /\ Forall clean rows
     /\ lines_read w' = rows
     /\ take 4 rows = take 4 (append_if_new (new_entry q url) (lines_read w))
     /\ Permutation (drop 4 rows)
          (filter row_like
             (drop 4 (append_if_new (new_entry q url) (lines_read w))))
     /\ StronglySorted id_order (drop 4 (lines_read w')))
  /\ update_main_readme longest_substring longest_substring_url
       (world_with_index
          (index_of [longest_palindrome_row; add_two_numbers_row]))
     = (Return tt,
        world_with_index
          (index_of [add_two_numbers_row; longest_substring_row;
                     longest_palindrome_row])).
Proof.
  split; [|vm_compute; reflexivity].
  intros Hsl H. apply update_main_readme_Return in H as (rows & Hr & ->).
  exists rows. split; [apply index_text_with_index|].
  pose proof (rewritten_rows_split _ _ _ Hr) as [Ht Hs].
  pose proof (rows_read_back q url w rows Hr Hsl) as Hback.
  split; [|split; [exact Hback|split; [exact Ht|split]]].
  - eapply rewritten_rows_clean; [apply lines_read_clean| |exact Hr].
    now apply new_entry_clean.
  - now apply sort_entries_Return in Hs as (_ & _ & _ & _ & Hp).
  - rewrite Hback. now apply sort_entries_id_order in Hs.
Qed.

Lemma update_main_readme_sorted_witness :
  exists rows,
    index_text (snd (update_main_readme two_sum two_sum_url
                       (world_with_index
                          (index_of [longest_palindrome_row;
                                     add_two_numbers_row]))))
    = Some (Text.join Text.LF rows +:+ Text.LF)
    /\ lines_read (snd (update_main_readme two_sum two_sum_url
                          (world_with_index
                             (index_of [longest_palindrome_row;
                                        add_two_numbers_row]))))
       = rows
    /\ StronglySorted id_order
         (drop 4 (lines_read
                    (snd (update_main_readme two_sum two_sum_url
                            (world_with_index
                               (index_of [longest_palindrome_row;
                                          add_two_numbers_row])))))).
Proof.
  destruct (proj1 (update_main_readme_sorted two_sum two_sum_url
                     (world_with_index
                        (index_of [longest_palindrome_row;
                                   add_two_numbers_row]))
                     (snd (update_main_readme two_sum two_sum_url
                             (world_with_index
                                (index_of [longest_palindrome_row;
                                           add_two_numbers_row]))))))
    as (rows & Ht & _ & Hl & _ & _ & Hs).
  - split; reflexivity.
  - vm_compute. reflexivity.
  - exists rows. split; [exact Ht|]. split; [exact Hl|exact Hs].
Defined.

(** C1 as stated fails for a record whose row holds a line break: the
    rows are sorted before they are written, and a row written over two
    lines puts a second line into the index that was never sorted.
    With the difficulty of the problem of id 5 followed by a line feed
    and a row of id 2, the run returns and the lines of the index after
    the header carry the ids 5, 2. *)
Lemma update_main_readme_sorted_line_break :
  update_main_readme palindrome_two_lines palindrome_url empty_world
  = (Return tt, world_with_index (index_of [palindrome_cut_row; stray_row]))
  /\ drop 4 (lines_read
               (world_with_index (index_of [palindrome_cut_row; stray_row])))
     = [palindrome_cut_row; stray_row]
  /\ numeric_id palindrome_cut_row = Some 5%N
  /\ numeric_id stray_row = Some 2%N
  /\ ~ StronglySorted id_order
         (drop 4 (lines_read
                    (world_with_index
                       (index_of [palindrome_cut_row; stray_row])))).
Proof.
  split; [vm_compute; reflexivity|]. split; [vm_compute; reflexivity|].
  split; [vm_compute; reflexivity|]. split; [vm_compute; reflexivity|].
  assert (drop 4 (lines_read
                    (world_with_index
                       (index_of [palindrome_cut_row; stray_row])))
          = [palindrome_cut_row; stray_row]) as ->
    by (vm_compute; reflexivity).
  intros H. inversion H as [|? ? _ Hall]; subst.
  inversion Hall as [|? ? Hle _]; subst.
  vm_compute in Hle. now apply Hle.
Qed.

(** C4, as amended.  On every rewrite that [update_main_readme]
    completes, for a new row that holds no line break, the lines of the
    resulting index after its first four are the lines found after the
    first four (the new row among them, if it was appended) that hold at
    least five ["|"]: a line with fewer is dropped, a line with five or
    more is kept, up to the order the sort gives them.  The first four
    lines are written as they are. *)
Theorem update_main_readme_filters
  (q : question_data string) (url : string) (w w' : world) :
  single_line (new_entry q url) ->
  update_main_readme q url w = (Return tt, w') ->
  exists rows,
    index_text w' = Some (Text.join Text.LF rows +:+ Text.LF)
    /\ Forall clean rows
    /\ lines_read w' = rows
    /\ take 4 (lines_read w')
       = take 4 (append_if_new (new_entry q url) (lines_read w))
    /\ Permutation (drop 4 (lines_read w'))
         (filter row_like
            (drop 4 (append_if_new (new_entry q url) (lines_read w))))
    /\ (forall line,
          In line (drop 4 (lines_read w')) <->
          In line (drop 4 (append_if_new (new_entry q url) (lines_read w)))
          /\ 5 <= Text.count "|" line)
    /\ (forall line,
          In line (drop 4 (lines_read w)) -> 5 <= Text.count "|" line ->
          In line (drop 4 (lines_read w'))).
Proof.
  intros Hsl H. apply update_main_readme_Return in H as (rows & Hr & ->).
  exists rows. split; [apply index_text_with_index|].
  pose proof (rewritten_rows_split _ _ _ Hr) as [Ht Hs].
  pose proof (rows_read_back q url w rows Hr Hsl) as Hback.
  apply sort_entries_Return in Hs as (_ & _ & _ & _ & Hp).
  assert (forall line,
            In line (drop 4 rows) <->
            In line (drop 4 (append_if_new (new_entry q url) (lines_read w)))
            /\ 5 <= Text.count "|" line) as Hiff.
  { intros line. split.
    - intros Hin. apply (Permutation_in _ Hp), In_filter_row_like in Hin.
      destruct Hin as [Hin Hc]. split; [exact Hin|]. now apply Nat.leb_le.
    - intros [Hin Hc]. apply (Permutation_in _ (Permutation_sym Hp)).
      apply In_filter_row_like. split; [exact Hin|]. now apply Nat.leb_le. }
  split; [|split; [exact Hback|]].
  { eapply rewritten_rows_clean; [apply lines_read_clean| |exact Hr].
    now apply new_entry_clean. }
  rewrite Hback. split; [exact Ht|]. split; [exact Hp|]. split; [exact Hiff|].
  intros line Hin Hc. apply Hiff. split; [|exact Hc].
  unfold append_if_new. destruct (existsb _ _); [exact Hin|].
  rewrite skipn_app. apply in_or_app. now left.
Qed.

Lemma update_main_readme_filters_witness :
  exists rows,
    index_text
      (snd (update_main_readme two_sum two_sum_url
              (world_with_index
                 (index_of [add_two_numbers_row; "not a row"]))))
    = Some (Text.join Text.LF rows +:+ Text.LF)
    /\ lines_read
         (snd (update_main_readme two_sum two_sum_url
                 (world_with_index
                    (index_of [add_two_numbers_row; "not a row"]))))
       = rows
    /\ take 4 rows = header_lines
    /\ Permutation (drop 4 rows) [add_two_numbers_row; two_sum_row]
    /\ ~ In "not a row" (drop 4 rows).
Proof.
  destruct (update_main_readme_filters two_sum two_sum_url
              (world_with_index (index_of [add_two_numbers_row; "not a row"]))
              (snd (update_main_readme two_sum two_sum_url
                      (world_with_index
                         (index_of [add_two_numbers_row; "not a row"])))))
    as (rows & Ht & _ & Hl & Hh & Hp & Hin & _).
  - split; reflexivity.
  - vm_compute. reflexivity.
  - rewrite Hl in Hh, Hp, Hin.
    exists rows. split; [exact Ht|]. split; [exact Hl|].
    split; [exact Hh|]. split; [exact Hp|].
    intros H. apply Hin in H as [_ H]. vm_compute in H. lia.
Defined.

(** C4 as stated fails for a record whose row holds a line break: the
    filter runs on the rows before they are written, and a row written
    over two lines can put a line with fewer than five ["|"] into the
    index.  With a line feed inside the title, the line [| 1 | [Two],
    of two ["|"], stands after the header before the rewrite and after
    it. *)
Lemma update_main_readme_short_line_kept :
  update_main_readme two_sum_split_title two_sum_url
    (world_with_index (index_of [two_sum_split_head; two_sum_split_tail]))
  = (Return tt,
     world_with_index
       (index_of [two_sum_split_head; two_sum_split_tail;
                  two_sum_split_tail]))
  /\ Text.count "|" two_sum_split_head = 2
  /\ In two_sum_split_head
       (drop 4 (lines_read
                  (world_with_index
                     (index_of [two_sum_split_head; two_sum_split_tail]))))
  /\ In two_sum_split_head
       (drop 4 (lines_read
                  (world_with_index
                     (index_of [two_sum_split_head; two_sum_split_tail;
                                two_sum_split_tail])))).
Proof.
  split; [vm_compute; reflexivity|]. split; [reflexivity|].
  split; vm_compute; auto.
Qed.

(** C3, as amended.  [update_main_readme] appends the new row only when
    no line read from the index is textually identical to it; and when
    the row holds no line break, applying [update_main_readme] a second
    time with the same record and URL leaves the index as the first
    application left it: the row already there is not added again. *)
Theorem update_main_readme_idempotent
  (q : question_data string) (url : string) (w w1 : world) :
  (In (new_entry q url) (lines_read w) ->
   append_if_new (new_entry q url) (lines_read w) = lines_read w)
  /\ (~ In (new_entry q url) (lines_read w) ->
      append_if_new (new_entry q url) (lines_read w)
      = lines_read w ++ [new_entry q url])
  /\ (single_line (new_entry q url) ->
      update_main_readme q url w = (Return tt, w1) ->
      update_main_readme q url w1 = (Return tt, w1)).
Proof.
  split; [apply append_if_new_spec|]. split; [apply append_if_new_spec|].
  intros Hsl H. apply update_main_readme_Return in H as (rows & Hr & ->).
  assert (Forall clean rows) as Hc.
  { eapply rewritten_rows_clean; [apply lines_read_clean| |exact Hr].
    now apply new_entry_clean. }
  rewrite (update_main_readme_file q url
             (Text.join Text.LF rows +:+ Text.LF) (with_index rows w))
    by (unfold with_index, set_files; cbn [files]; apply lookup_insert_eq).
  rewrite (lines_read_with_index rows w Hc).
  rewrite (rewritten_rows_again _ _ _ (new_entry_row_like q url) Hr).
  now rewrite with_index_twice.
Qed.

Lemma update_main_readme_idempotent_witness :
  update_main_readme two_sum two_sum_url
    (with_index (header_lines ++ [two_sum_row]) empty_world)
  = (Return tt, with_index (header_lines ++ [two_sum_row]) empty_world)
  /\ append_if_new (new_entry two_sum two_sum_url)
       (lines_read (with_index (header_lines ++ [two_sum_row]) empty_world))
     = lines_read (with_index (header_lines ++ [two_sum_row]) empty_world)
  /\ append_if_new (new_entry two_sum two_sum_url) (lines_read empty_world)
     = lines_read empty_world ++ [new_entry two_sum two_sum_url].
Proof.
  split; [|split].
  - apply (proj2 (proj2 (update_main_readme_idempotent two_sum two_sum_url
                           empty_world _))).
    + split; reflexivity.
    + vm_compute. reflexivity.
  - apply (proj1 (update_main_readme_idempotent two_sum two_sum_url
                    (with_index (header_lines ++ [two_sum_row]) empty_world)
                    empty_world)).
    vm_compute. tauto.
  - apply (proj1 (proj2 (update_main_readme_idempotent two_sum two_sum_url
                    empty_world empty_world))).
    vm_compute. intuition discriminate.
Defined.

(** C3 as stated fails for a record whose row holds a line break: the
    row is written as two lines, the second run does not find it among
    the lines it reads and appends it again.  With a line feed at the
    end of the difficulty, the index holds one cut row after the first
    run and two after the second; with a line feed inside the title, the
    tail of the row is there once after the first run and twice after
    the second. *)
Lemma update_main_readme_twice_differs :
  (update_main_readme two_sum_line_feed two_sum_url empty_world
   = (Return tt,
      world_with_index (index_of [two_sum_cut_row; " |"]))
   /\ update_main_readme two_sum_line_feed two_sum_url
        (world_with_index (index_of [two_sum_cut_row; " |"]))
      = (Return tt,
         world_with_index
           (index_of [two_sum_cut_row; two_sum_cut_row; " |"]))
   /\ index_of [two_sum_cut_row; " |"]
      <> index_of [two_sum_cut_row; two_sum_cut_row; " |"])
  /\ (update_main_readme two_sum_split_title two_sum_url empty_world
      = (Return tt,
         world_with_index
           (index_of [two_sum_split_head; two_sum_split_tail]))
      /\ update_main_readme two_sum_split_title two_sum_url
           (world_with_index
              (index_of [two_sum_split_head; two_sum_split_tail]))
         = (Return tt,
            world_with_index
              (index_of [two_sum_split_head; two_sum_split_tail;
                         two_sum_split_tail]))
      /\ index_of [two_sum_split_head; two_sum_split_tail]
         <> index_of [two_sum_split_head; two_sum_split_tail;
                      two_sum_split_tail]).
Proof.
  split; (split; [vm_compute; reflexivity|]);
    (split; [vm_compute; reflexivity|]); vm_compute; discriminate.
Qed.


(** ** The metadata fetcher *)

Section Fetcher.

(** Unfolds a run of the fetcher to the case analysis it performs. *)
Ltac run_fetch :=
  unfold fetch_problem_data, try_except, bind, post, lift, print, ret;
  cbv beta.

Lemma fetch_problem_data_returns (s : session) (slug : string) (w : world) :
  exists r w', fetch_problem_data s slug w = (Return r, w').
Proof.
  run_fetch. repeat case_match; simplify_eq; eauto.
Qed.

Lemma fetch_problem_data_transport
  (s : session) (slug : string) (w : world) (e : exn) :
  s slug = TransportFailure e ->
  fst (fetch_problem_data s slug w) = Return None.
Proof. intros H. run_fetch. now rewrite H. Qed.

Lemma fetch_problem_data_status
  (s : session) (slug : string) (w : world) (status : Z) (body : outcome json) :
  s slug = Response status body -> status <> 200%Z ->
  fst (fetch_problem_data s slug w) = Return None.
Proof.
  intros H Hs. run_fetch. rewrite H. cbn [fst snd].
  apply Z.eqb_neq in Hs. now rewrite Hs.
Qed.

Lemma fetch_problem_data_body_raises
  (s : session) (slug : string) (w : world) (status : Z) (e : exn) :
  s slug = Response status (Raise e) ->
  fst (fetch_problem_data s slug w) = Return None.
Proof.
  intros H. run_fetch. rewrite H. cbn [fst snd].
  now destruct (Z.eqb status 200).
Qed.

Lemma fetch_problem_data_no_data
  (s : session) (slug : string) (w : world) (status : Z) (data : json) :
  s slug = Response status (Return data) ->
  Py.contains_key "data" data = Return false ->
  fst (fetch_problem_data s slug w) = Return None.
Proof.
  intros H Hd. run_fetch. rewrite H. cbn [fst snd].
  destruct (Z.eqb status 200); [|reflexivity]. cbn [obind fst snd negb]. now rewrite Hd.
Qed.

Lemma fetch_problem_data_no_question
  (s : session) (slug : string) (w : world) (status : Z) (data question : json) :
  s slug = Response status (Return data) ->
  question_of data = Return question -> Py.truthy question = false ->
  fst (fetch_problem_data s slug w) = Return None.
Proof.
  intros H Hq Ht. run_fetch. rewrite H. cbn [fst snd].
  destruct (Z.eqb status 200); [|reflexivity]. cbn [obind fst snd negb].
  destruct (Py.contains_key "data" data) as [[|]|]; try reflexivity.
  cbn [obind fst snd negb]. rewrite Hq. cbn [obind fst snd negb]. now rewrite Ht.
Qed.

(** Any exception raised while the body is taken apart is caught. *)
Lemma fetch_problem_data_decoding_raises
  (s : session) (slug : string) (w : world) (status : Z) (data : json) (e : exn) :
  s slug = Response status (Return data) ->
  (Py.contains_key "data" data = Raise e
   \/ question_of data = Raise e
   \/ exists question,
        question_of data = Return question
        /\ (Py.getitem question "questionFrontendId" = Raise e
            \/ Py.getitem question "title" = Raise e
            \/ Py.getitem question "difficulty" = Raise e
            \/ joined_tags question = Raise e)) ->
  fst (fetch_problem_data s slug w) = Return None.
Proof.
  intros H Hraise. run_fetch. rewrite H. cbn [fst snd].
  destruct (Z.eqb status 200); [|reflexivity]. cbn [obind fst snd negb].
  destruct Hraise as [Hd|[Hq|(question & Hq & Hf)]].
  - now rewrite Hd.
  - destruct (Py.contains_key "data" data) as [[|]|]; try reflexivity.
    cbn [obind fst snd negb]. now rewrite Hq.
  - destruct (Py.contains_key "data" data) as [[|]|]; try reflexivity.
    cbn [obind fst snd negb]. rewrite Hq. cbn [obind fst snd negb]. destruct (Py.truthy question); [|reflexivity].
    cbn [obind fst snd negb].
    destruct Hf as [Hf|[Hf|[Hf|Hf]]]; repeat case_match; simplify_eq;
      reflexivity.
Qed.

Lemma question_of_has_data (data question : json) :
  question_of data = Return question ->
  Py.contains_key "data" data = Return true.
Proof.
  unfold question_of, Py.getitem, Py.contains_key.
  destruct data; try discriminate.
  destruct (Py.assoc "data" fields); [reflexivity|discriminate].
Qed.

(** What a run that returns a record has read. *)
Lemma fetch_problem_data_Some
  (s : session) (slug : string) (w w' : world) (r : question_data json) :
  fetch_problem_data s slug w = (Return (Some r), w') <->
  exists data question,
    s slug = Response 200 (Return data)
    /\ question_of data = Return question
    /\ Py.truthy question = true
    /\ Py.getitem question "questionFrontendId" = Return (question_id r)
    /\ Py.getitem question "title" = Return (question_title r)
    /\ Py.getitem question "difficulty" = Return (difficulty r)
    /\ joined_tags question = Return (topic_tags r)
    /\ question_slug r = slug
    /\ w' = {| files := files w; console := console w;
               requests := requests w ++ [slug] |}.
Proof.
  split.
  - run_fetch. destruct (s slug) as [e|status body]; [discriminate|].
    cbn [fst snd]. destruct (Z.eqb_spec status 200) as [->|Hs];
      [|discriminate].
    cbn [obind fst snd negb]. destruct body as [data|e]; [|discriminate]. cbn [obind fst snd negb].
    destruct (Py.contains_key "data" data) as [[|]|]; try discriminate.
    cbn [obind fst snd negb]. destruct (question_of data) as [question|e] eqn:Hq;
      [|discriminate].
    cbn [obind fst snd negb]. destruct (Py.truthy question) eqn:Ht; [|discriminate].
    cbn [obind fst snd negb].
    destruct (Py.getitem question "questionFrontendId") as [qid|] eqn:E1;
      [|discriminate].
    destruct (Py.getitem question "title") as [title|] eqn:E2;
      [|discriminate].
    destruct (Py.getitem question "difficulty") as [level|] eqn:E3;
      [|discriminate].
    destruct (joined_tags question) as [tags|] eqn:E4; [|discriminate].
    intros [= <- <-]. exists data, question. cbn [obind fst snd negb]. auto 10.
  - intros (data & question & Hs & Hq & Ht & E1 & E2 & E3 & E4 & Hslug & ->).
    run_fetch. rewrite Hs. cbn [obind fst snd negb].
    rewrite (question_of_has_data _ _ Hq). cbn [obind fst snd negb]. rewrite Hq. cbn [obind fst snd negb].
    rewrite Ht. cbn [obind fst snd negb]. rewrite E1, E2, E3, E4. cbn [obind fst snd negb].
    destruct r. cbn in *. now subst.
Qed.

Lemma getitem_assoc (fields : list (string * json)) (k : string) (v : json) :
  Py.assoc k fields = Some v -> Py.getitem (JDict fields) k = Return v.
Proof. intros H. unfold Py.getitem. now rewrite H. Qed.

(** The tags of a list of tag objects with string names. *)
Lemma joined_tags_named
  (qfields : list (string * json)) (tags : list json) (names : list string) :
  Py.assoc "topicTags" qfields = Some (JList tags) ->
  Forall2 named_tag tags names ->
  joined_tags (JDict qfields) = Return (Text.join ", " names).
Proof.
  intros Ht Hn. unfold joined_tags.
  rewrite (getitem_assoc _ _ _ Ht). cbn [obind Py.iterate].
  assert (Py.mapM (fun tag => Py.getitem tag "name") tags
          = Return (map JStr names)) as ->.
  { apply mapM_Return. clear Ht.
    induction Hn as [|tag name ? ? (tf & -> & Hf) _ IH]; [constructor|].
    cbn [map]. constructor; [now apply getitem_assoc|exact IH]. }
  cbn [obind].
  assert (Py.mapM Py.as_str (map JStr names) = Return names) as ->.
  { apply mapM_Return. clear. induction names; constructor; auto. }
  reflexivity.
Qed.

End Fetcher.

(** C6, as amended.  [fetch_problem_data] never lets an exception out.
    It returns [None] if the transport raises, if the status is not 200,
    if the body cannot be decoded, if the body has no [data] key or its
    question is null or empty, and also if taking the body apart raises
    (the [data] value is not an object, a field of the question is
    missing, a tag has no string name).  It returns a populated record
    when the status is 200 and the question object holds the four
    fields, the tags being objects with a string name; and a record it
    returns holds the fields of such a reply. *)
Theorem fetch_problem_data_spec
  (s : session) (slug : string) (w : world) :
  (exists r w', fetch_problem_data s slug w = (Return r, w'))
  /\ (forall e, s slug = TransportFailure e ->
        fst (fetch_problem_data s slug w) = Return None)
  /\ (forall status body, s slug = Response status body ->
        status <> 200%Z ->
        fst (fetch_problem_data s slug w) = Return None)
  /\ (forall status e, s slug = Response status (Raise e) ->
        fst (fetch_problem_data s slug w) = Return None)
  /\ (forall status fields, s slug = Response status (Return (JDict fields)) ->
        Py.assoc "data" fields = None ->
        fst (fetch_problem_data s slug w) = Return None)
  /\ (forall status data question,
        s slug = Response status (Return data) ->
        question_of data = Return question -> Py.truthy question = false ->
        fst (fetch_problem_data s slug w) = Return None)
  /\ (forall status data e,
        s slug = Response status (Return data) ->
        (Py.contains_key "data" data = Raise e
         \/ question_of data = Raise e
         \/ exists question,
              question_of data = Return question
              /\ (Py.getitem question "questionFrontendId" = Raise e
                  \/ Py.getitem question "title" = Raise e
                  \/ Py.getitem question "difficulty" = Raise e
                  \/ joined_tags question = Raise e)) ->
        fst (fetch_problem_data s slug w) = Return None)
  /\ (forall fields dfields qfields qid title level tags names,
        s slug = Response 200 (Return (JDict fields)) ->
        Py.assoc "data" fields = Some (JDict dfields) ->
        Py.assoc "question" dfields = Some (JDict qfields) ->
        Py.assoc "questionFrontendId" qfields = Some qid ->
        Py.assoc "title" qfields = Some title ->
        Py.assoc "difficulty" qfields = Some level ->
        Py.assoc "topicTags" qfields = Some (JList tags) ->
        Forall2 named_tag tags names ->
        fst (fetch_problem_data s slug w)
        = Return (Some {| question_id := qid; question_title := title;
                          question_slug := slug; difficulty := level;
                          topic_tags := Text.join ", " names |}))
  /\ (forall r, fst (fetch_problem_data s slug w) = Return (Some r) ->
        question_slug r = slug
        /\ exists data question,
             s slug = Response 200 (Return data)
             /\ question_of data = Return question
             /\ Py.truthy question = true
             /\ Py.getitem question "questionFrontendId"
                = Return (question_id r)
             /\ Py.getitem question "title" = Return (question_title r)
             /\ Py.getitem question "difficulty" = Return (difficulty r)
             /\ joined_tags question = Return (topic_tags r)).
Proof.
  split; [apply fetch_problem_data_returns|].
  split; [intros e; apply fetch_problem_data_transport|].
  split; [intros status body; apply fetch_problem_data_status|].
  split; [intros status e; apply fetch_problem_data_body_raises|].
  split.
  { intros status fields H Hd.
    apply (fetch_problem_data_no_data s slug w status _ H).
    cbn. now rewrite Hd. }
  split; [intros status data question; apply fetch_problem_data_no_question|].
  split; [intros status data e; apply fetch_problem_data_decoding_raises|].
  split.
  - intros fields dfields qfields qid title level tags names
      Hs Hd Hq E1 E2 E3 E4 Hn.
    destruct (fetch_problem_data s slug w) as [o w'] eqn:E.
    assert ((o, w')
            = (Return (Some {| question_id := qid; question_title := title;
                               question_slug := slug; difficulty := level;
                               topic_tags := Text.join ", " names |}),
               {| files := files w; console := console w;
                  requests := requests w ++ [slug] |})) as [= -> _];
      [|reflexivity].
    rewrite <- E. apply fetch_problem_data_Some.
    exists (JDict fields), (JDict qfields). cbn [question_id question_title
      difficulty topic_tags question_slug].
    split; [exact Hs|]. split.
    { unfold question_of. rewrite (getitem_assoc _ _ _ Hd). cbn [obind].
      now apply getitem_assoc. }
    split; [destruct qfields; [discriminate|reflexivity]|].
    repeat split; try (now apply getitem_assoc).
    now apply joined_tags_named with (tags := tags).
  - intros r Hr.
    destruct (fetch_problem_data s slug w) as [o w'] eqn:E.
    cbn [fst] in Hr. subst o.
    apply fetch_problem_data_Some in E
      as (data & question & Hs & Hq & Ht & E1 & E2 & E3 & E4 & Hslug & _).
    split; [exact Hslug|]. exists data, question. auto 10.
Qed.

Lemma fetch_problem_data_spec_witness :
  fst (fetch_problem_data (always (Response 200 (Return two_sum_body)))
         "two-sum" empty_world)
  = Return (Some {| question_id := JStr "1"; question_title := JStr "Two Sum";
                    question_slug := "two-sum"; difficulty := JStr "Easy";
                    topic_tags := "Array, Hash Table" |})
  /\ fst (fetch_problem_data (always (Response 404 (Raise ContentTypeError)))
            "two-sum" empty_world)
     = Return None
  /\ fst (fetch_problem_data (always (TransportFailure ClientError))
            "two-sum" empty_world)
     = Return None
  /\ fst (fetch_problem_data
            (always (Response 200
                       (Return (JDict [("data",
                                        JDict [("question", JNull)])]))))
            "two-sum" empty_world)
     = Return None.
Proof.
  split; [|split; [|split]].
  - destruct (fetch_problem_data_spec
                (always (Response 200 (Return two_sum_body)))
                "two-sum" empty_world)
      as (_ & _ & _ & _ & _ & _ & _ & H & _).
    apply (H _ _ _ _ _ _ _ ["Array"; "Hash Table"] eq_refl eq_refl eq_refl
             eq_refl eq_refl eq_refl eq_refl).
    repeat constructor; eexists; split; reflexivity.
  - destruct (fetch_problem_data_spec
                (always (Response 404 (Raise ContentTypeError)))
                "two-sum" empty_world)
      as (_ & _ & H & _).
    apply (H 404%Z (Raise ContentTypeError) eq_refl). discriminate.
  - destruct (fetch_problem_data_spec
                (always (TransportFailure ClientError))
                "two-sum" empty_world)
      as (_ & H & _).
    apply (H ClientError eq_refl).
  - destruct (fetch_problem_data_spec
                (always (Response 200
                           (Return (JDict [("data",
                                            JDict [("question", JNull)])]))))
                "two-sum" empty_world)
      as (_ & _ & _ & _ & _ & H & _).
    apply (H 200%Z _ JNull eq_refl); reflexivity.
Defined.

(** C6 as stated fails for a reply of status 200 whose body has the
    [data] key and no null question, and yet cannot be taken apart: the
    fetcher returns [None], not a record.  First a body whose [data] is
    null, as a GraphQL server sends with its errors; then a question
    object without its identifier. *)
Lemma fetch_problem_data_envelope_not_enough :
  (Py.contains_key "data" (JDict [("data", JNull)]) = Return true
   /\ question_of (JDict [("data", JNull)]) = Raise TypeError
   /\ fetch_problem_data
        (always (Response 200 (Return (JDict [("data", JNull)]))))
        "two-sum" empty_world
      = (Return None,
         {| files := ∅; console := [MsgFetchError TypeError];
            requests := ["two-sum"] |}))
  /\ (Py.contains_key "data"
        (JDict [("data",
                 JDict [("question", JDict [("title", JStr "Two Sum")])])])
      = Return true
      /\ question_of
           (JDict [("data",
                    JDict [("question", JDict [("title", JStr "Two Sum")])])])
         = Return (JDict [("title", JStr "Two Sum")])
      /\ Py.truthy (JDict [("title", JStr "Two Sum")]) = true
      /\ fetch_problem_data
           (always (Response 200
                      (Return (JDict [("data",
                                       JDict [("question",
                                               JDict [("title",
                                                       JStr "Two Sum")])])]))))
           "two-sum" empty_world
         = (Return None,
            {| files := ∅;
               console := [MsgFetchError (KeyError "questionFrontendId")];
               requests := ["two-sum"] |})).
Proof. repeat split. Qed.

(** ** The orchestrator *)

Section Orchestrator.

Lemma match_here_nonempty (s g : string) : match_here s = Some g -> g <> "".
Proof.
  unfold match_here. destruct (Text.strip_prefix marker s); [|discriminate].
  destruct (non_slash_run s0); [discriminate|]. now intros [= <-].
Qed.

(** The extractor never returns the empty string. *)
Lemma extract_question_slug_nonempty (url slug : string) :
  extract_question_slug url = Some slug -> slug <> "".
Proof.
  unfold extract_question_slug.
  induction url as [|c url IH]; cbn [re_search].
  - destruct (match_here "") eqn:E; [|discriminate].
    intros [= <-]. now apply match_here_nonempty in E.
  - destruct (match_here (String c url)) eqn:E; [|exact IH].
    intros [= <-]. now apply match_here_nonempty in E.
Qed.

(** A fetch that returns [None] has sent one request, printed one
    warning and left the files alone. *)
Lemma fetch_problem_data_None (s : session) (slug : string) (w w' : world) :
  fetch_problem_data s slug w = (Return None, w') ->
  exists msg,
    w' = {| files := files w; console := console w ++ [msg];
            requests := requests w ++ [slug] |}.
Proof.
  unfold fetch_problem_data, try_except, bind, post, lift, print, ret.
  cbv beta. repeat case_match; simplify_eq; cbn; intros [= <-]; eauto.
Qed.

(** What the fetcher returns does not depend on the world. *)
Lemma fetch_problem_data_result (s : session) (slug : string) (w w0 : world) :
  fst (fetch_problem_data s slug w) = fst (fetch_problem_data s slug w0).
Proof.
  unfold fetch_problem_data, try_except, bind, post, lift, print, ret.
  cbv beta.
  repeat case_match;
    repeat (cbn [fst snd] in *; simplify_eq;
            try match goal with
                | H1 : ?o = Return ?x, H2 : ?o = Return ?y |- _ =>
                    assert (y = x) by congruence; clear H2; subst
                end);
    try reflexivity; congruence.
Qed.

End Orchestrator.

(** C7.  If the extractor finds no slug, [main] prints an error and
    returns with the files as they were and no request sent; if the
    fetcher returns [None], [main] prints an error and returns with the
    files as they were.  For [https://leetcode.com/discuss/general] the
    run ends before any request. *)
Theorem main_aborts
  (py_str : json -> string) (s : session) (now : datetime) (url : string)
  (w : world) :
  (extract_question_slug url = None ->
   main py_str s now url w
   = (Return tt,
      {| files := files w; console := console w ++ [Prompt; MsgInvalidURL];
         requests := requests w |}))
  /\ (forall slug,
        extract_question_slug url = Some slug ->
        fst (fetch_problem_data s slug w) = Return None ->
        exists warning,
          main py_str s now url w
          = (Return tt,
             {| files := files w;
                console := console w ++ [Prompt; warning; MsgFetchFailed];
                requests := requests w ++ [slug] |}))
  /\ main py_str s now "https://leetcode.com/discuss/general" w
     = (Return tt,
        {| files := files w; console := console w ++ [Prompt; MsgInvalidURL];
           requests := requests w |}).
Proof.
  assert (forall u, extract_question_slug u = None ->
            main py_str s now u w
            = (Return tt,
               {| files := files w;
                  console := console w ++ [Prompt; MsgInvalidURL];
                  requests := requests w |})) as Hnone.
  { intros u H. unfold main, bind, print, ret. cbv beta. rewrite H.
    cbn [slug_missing files console requests]. now rewrite <- app_assoc. }
  split; [apply Hnone|]. split; [|now apply Hnone].
  intros slug H Hf.
  pose proof (extract_question_slug_nonempty _ _ H) as Hne.
  unfold main, bind, print, ret. cbv beta. rewrite H.
  cbn [slug_missing default from_option id].
  apply String.eqb_neq in Hne. rewrite Hne.
  rewrite (fetch_problem_data_result s slug w
             {| files := files w; console := console w ++ [Prompt];
                requests := requests w |}) in Hf.
  destruct (fetch_problem_data s slug _) as [o w1] eqn:E.
  cbn [fst] in Hf. subst o.
  apply fetch_problem_data_None in E as (msg & ->).
  exists msg. cbn [files console requests].
  now rewrite <- !app_assoc.
Qed.

Lemma main_aborts_witness :
  main (fun _ => "") (always (Response 404 (Raise ContentTypeError)))
    (DateTime 1 1 2025 0 0 0) "https://leetcode.com/problems" empty_world
  = (Return tt,
     {| files := ∅; console := [Prompt; MsgInvalidURL]; requests := [] |})
  /\ exists warning,
       main (fun _ => "") (always (Response 404 (Raise ContentTypeError)))
         (DateTime 1 1 2025 0 0 0) "https://leetcode.com/problems/two-sum/"
         empty_world
       = (Return tt,
          {| files := ∅; console := [Prompt; warning; MsgFetchFailed];
             requests := ["two-sum"] |}).
Proof.
  split.
  - apply (proj1 (main_aborts (fun _ => "")
                    (always (Response 404 (Raise ContentTypeError)))
                    (DateTime 1 1 2025 0 0 0) "https://leetcode.com/problems"
                    empty_world)).
    reflexivity.
  - apply (proj1 (proj2 (main_aborts (fun _ => "")
                    (always (Response 404 (Raise ContentTypeError)))
                    (DateTime 1 1 2025 0 0 0)
                    "https://leetcode.com/problems/two-sum/" empty_world))
             "two-sum"); reflexivity.
Defined.

(** ** The directory scaffolder *)

Section Scaffolder.

Lemma setup_problem_directory_scaffold
  (now : datetime) (id slug title : string) (w : world) :
  setup_problem_directory now id slug title w
  = scaffold (folder_path id slug) (readme_path id slug)
      (solution_path id slug) "" (generate_solution_metadata now title) w.
Proof.
  unfold setup_problem_directory, scaffold, ensure_file, bind. cbv beta.
  destruct (Fs.makedirs _ w) as [[[]|e] wa]; [|reflexivity].
  destruct (Fs.path_exists _ wa) as [[there|e] wb]; [|reflexivity].
  destruct ((if there then ret () else Fs.write_file _ "") wb)
    as [[[]|e] wc]; reflexivity.
Qed.

Lemma add_dir_subseteq (p : string) (f : gmap string node) : f ⊆ Fs.add_dir p f.
Proof.
  unfold Fs.add_dir. destruct (f !! p) eqn:E; [reflexivity|].
  now apply insert_subseteq.
Qed.

Lemma foldr_add_dir_subseteq (l : list string) (f : gmap string node) :
  f ⊆ foldr Fs.add_dir f l.
Proof.
  induction l as [|p l IH]; [reflexivity|].
  cbn [foldr]. etransitivity; [exact IH|apply add_dir_subseteq].
Qed.

Lemma add_dir_lookup (p : string) (f : gmap string node) :
  f !! p = None -> Fs.add_dir p f !! p = Some Dir.
Proof. intros H. unfold Fs.add_dir. rewrite H. apply lookup_insert_eq. Qed.

(** An existing directory is accepted and nothing changes. *)
Lemma makedirs_existing (p : string) (w : world) :
  files w !! p = Some Dir -> Fs.makedirs p w = (Return tt, w).
Proof. intros H. unfold Fs.makedirs. now rewrite H. Qed.

Lemma makedirs_cases (p : string) (w : world) :
  (exists e, Fs.makedirs p w = (Raise e, w))
  \/ (exists w',
        Fs.makedirs p w = (Return tt, w')
        /\ files w ⊆ files w' /\ files w' !! p = Some Dir).
Proof.
  unfold Fs.makedirs. destruct (files w !! p) as [[text|]|] eqn:E.
  - left. eauto.
  - right. exists w. now rewrite E.
  - destruct (existsb _ _); [left; eauto|]. right. eexists.
    split; [reflexivity|]. unfold set_files. cbn [files]. split.
    + apply foldr_add_dir_subseteq.
    + rewrite foldr_app. cbn [foldr].
      eapply lookup_weaken; [|apply foldr_add_dir_subseteq].
      now apply add_dir_lookup.
Qed.

(** What [ensure_file] does: nothing when the path is taken; otherwise
    it raises, whatever the text, or creates the file. *)
Lemma ensure_file_cases (p text : string) (w : world) :
  (is_Some (files w !! p) /\ forall text', ensure_file p text' w = (Return tt, w))
  \/ (files w !! p = None
      /\ exists e, forall text', ensure_file p text' w = (Raise e, w))
  \/ (files w !! p = None
      /\ ensure_file p text w
         = (Return tt, set_files (<[p := File text]> (files w)) w)).
Proof.
  unfold ensure_file, bind, Fs.path_exists, ret, Fs.write_file. cbv beta.
  destruct (files w !! p) as [n|] eqn:E; [left; eauto|]. right.
  cbv beta iota. rewrite ?E.
  destruct (Fs.parent_check (files w) p); [right|left]; eauto.
Qed.

Lemma ensure_file_there (p text : string) (w : world) :
  is_Some (files w !! p) -> ensure_file p text w = (Return tt, w).
Proof.
  intros [n H]. unfold ensure_file, bind, Fs.path_exists, ret. cbv beta.
  now rewrite H.
Qed.

Lemma lookup_after_write (p q text : string) (n : node) (w : world) :
  files w !! p = None -> files w !! q = Some n ->
  files (set_files (<[p := File text]> (files w)) w) !! q = Some n.
Proof.
  intros Hp Hq. unfold set_files. cbn [files].
  rewrite lookup_insert_ne; [exact Hq|]. intros ->. congruence.
Qed.

Lemma lookup_written (p text : string) (w : world) :
  is_Some (files (set_files (<[p := File text]> (files w)) w) !! p).
Proof. unfold set_files. cbn [files]. rewrite lookup_insert_eq. eauto. Qed.

(** Once the directory and the two files are there a run changes
    nothing. *)
Lemma scaffold_settled (p1 p2 p3 t2 t3 : string) (w : world) :
  files w !! p1 = Some Dir ->
  is_Some (files w !! p2) -> is_Some (files w !! p3) ->
  scaffold p1 p2 p3 t2 t3 w = (Return tt, w).
Proof.
  intros H1 H2 H3. unfold scaffold, bind.
  now rewrite (makedirs_existing p1 w H1), (ensure_file_there p2 t2 w H2),
    (ensure_file_there p3 t3 w H3).
Qed.

(** Running the three steps again, on the world the first run left,
    gives the outcome and the world of the first run; the text for the
    third file may differ between the runs. *)
Lemma scaffold_again (p1 p2 p3 t2 t3 t3' : string) (w : world) :
  scaffold p1 p2 p3 t2 t3' (snd (scaffold p1 p2 p3 t2 t3 w))
  = scaffold p1 p2 p3 t2 t3 w.
Proof.
  unfold scaffold at 2 3. unfold bind.
  destruct (makedirs_cases p1 w) as [[e He]|(wa & Ha & _ & H1)].
  { rewrite He. cbn [snd]. unfold scaffold, bind. now rewrite He. }
  rewrite Ha. clear Ha w.
  destruct (ensure_file_cases p2 t2 wa)
    as [[H2 E2]|[[H2 (e & E2)]|[H2 E2]]].
  - rewrite (E2 t2).
    destruct (ensure_file_cases p3 t3 wa)
      as [[H3 E3]|[[H3 (e & E3)]|[H3 E3]]].
    + rewrite (E3 t3). cbn [snd]. now apply scaffold_settled.
    + rewrite (E3 t3). cbn [snd]. unfold scaffold, bind.
      now rewrite (makedirs_existing p1 wa H1), (E2 t2), (E3 t3').
    + rewrite E3. cbn [snd]. destruct H2 as [n2 H2]. apply scaffold_settled.
      * now apply lookup_after_write.
      * exists n2. now apply lookup_after_write.
      * apply lookup_written.
  - rewrite (E2 t2). cbn [snd]. unfold scaffold, bind.
    now rewrite (makedirs_existing p1 wa H1), (E2 t2).
  - rewrite E2.
    pose proof (lookup_after_write p2 p1 t2 Dir wa H2 H1) as H1'.
    pose proof (lookup_written p2 t2 wa) as H2'.
    set (wb := set_files (<[p2 := File t2]> (files wa)) wa) in *.
    destruct (ensure_file_cases p3 t3 wb)
      as [[H3 E3]|[[H3 (e & E3)]|[H3 E3]]].
    + rewrite (E3 t3). cbn [snd]. now apply scaffold_settled.
    + rewrite (E3 t3). cbn [snd]. unfold scaffold, bind.
      now rewrite (makedirs_existing p1 wb H1'),
        (ensure_file_there p2 t2 wb H2'), (E3 t3').
    + rewrite E3. cbn [snd]. destruct H2' as [n2 H2'].
      apply scaffold_settled.
      * now apply lookup_after_write.
      * exists n2. now apply lookup_after_write.
      * apply lookup_written.
Qed.

Lemma ensure_file_keeps (p text : string) (w : world) :
  files w ⊆ files (snd (ensure_file p text w)).
Proof.
  destruct (ensure_file_cases p text w)
    as [[_ E]|[[_ (e & E)]|[H E]]].
  - now rewrite (E text).
  - now rewrite (E text).
  - rewrite E. now apply insert_subseteq.
Qed.

(** Whatever the outcome, what was in the file system is still there. *)
Lemma scaffold_keeps (p1 p2 p3 t2 t3 : string) (w : world) :
  files w ⊆ files (snd (scaffold p1 p2 p3 t2 t3 w)).
Proof.
  unfold scaffold, bind.
  destruct (makedirs_cases p1 w) as [[e He]|(wa & Ha & Hsub & _)].
  { now rewrite He. }
  rewrite Ha. etransitivity; [exact Hsub|].
  pose proof (ensure_file_keeps p2 t2 wa) as H2.
  destruct (ensure_file p2 t2 wa) as [[[]|e] wb]; [|exact H2].
  etransitivity; [exact H2|]. apply ensure_file_keeps.
Qed.

End Scaffolder.

(** C8.  [setup_problem_directory] is idempotent: run again for the same
    id, slug and title, at any later time, on the world the first run
    left, it ends as the first run ended and leaves that world as it is.
    A run changes nothing that was in the file system: a [README.md] or
    a solution file already there keeps its content.  A directory
    already there is accepted by the creation of the directory. *)
Theorem setup_problem_directory_idempotent
  (now now' : datetime) (id slug title : string) (w : world) :
  setup_problem_directory now' id slug title
    (snd (setup_problem_directory now id slug title w))
  = setup_problem_directory now id slug title w
  /\ files w ⊆ files (snd (setup_problem_directory now id slug title w))
  /\ (forall n,
        files w !! readme_path id slug = Some n ->
        files (snd (setup_problem_directory now id slug title w))
          !! readme_path id slug = Some n)
  /\ (forall n,
        files w !! solution_path id slug = Some n ->
        files (snd (setup_problem_directory now id slug title w))
          !! solution_path id slug = Some n)
  /\ (files w !! folder_path id slug = Some Dir ->
      Fs.makedirs (folder_path id slug) w = (Return tt, w))
  /\ (let w1 := snd (setup_problem_directory noon "1" "two-sum" "Two Sum"
                       empty_world) in
      fst (setup_problem_directory noon "1" "two-sum" "Two Sum" empty_world)
      = Return tt
      /\ files w1 !! "problemset/1.two-sum" = Some Dir
      /\ files w1 !! "problemset/1.two-sum/README.md" = Some (File "")
      /\ files w1 !! "problemset/1.two-sum/two-sum.py"
         = Some (File (generate_solution_metadata noon "Two Sum"))).
Proof.
  assert (files w ⊆ files (snd (setup_problem_directory now id slug title w)))
    as Hkeep.
  { rewrite setup_problem_directory_scaffold. apply scaffold_keeps. }
  split; [|split; [exact Hkeep|split; [|split; [|split]]]].
  - rewrite !setup_problem_directory_scaffold. apply scaffold_again.
  - intros n H. exact (lookup_weaken _ _ _ _ H Hkeep).
  - intros n H. exact (lookup_weaken _ _ _ _ H Hkeep).
  - apply makedirs_existing.
  - vm_compute. repeat split.
Qed.

Lemma setup_problem_directory_idempotent_witness :
  files (snd (setup_problem_directory noon "1" "two-sum" "Two Sum"
                solved_world))
    !! "problemset/1.two-sum/two-sum.py" = Some (File "pass")
  /\ Fs.makedirs "problemset/1.two-sum" solved_world
     = (Return tt, solved_world)
  /\ files (snd (setup_problem_directory noon "1" "two-sum" "Two Sum"
                   (snd (setup_problem_directory noon "1" "two-sum" "Two Sum"
                           empty_world))))
       !! "problemset/1.two-sum/README.md" = Some (File "").
Proof.
  pose proof (setup_problem_directory_idempotent noon noon "1" "two-sum"
                "Two Sum" solved_world) as (_ & _ & _ & Hsol & Hdir & _).
  pose proof (setup_problem_directory_idempotent noon noon "1" "two-sum"
                "Two Sum"
                (snd (setup_problem_directory noon "1" "two-sum" "Two Sum"
                        empty_world))) as (_ & _ & Hreadme & _).
  split; [|split].
  - apply (Hsol (File "pass")). reflexivity.
  - apply Hdir. reflexivity.
  - apply (Hreadme (File "")). vm_compute. reflexivity.
Defined.

(** * Part III: further properties of the code *)

(** ** The slug extractor: what a result tells *)

Section ExtractorSound.

Import Text.

Lemma re_search_sound (url slug : string) :
  re_search url = Some slug ->
  exists pre c rest,
    url = pre +:+ marker +:+ String c rest /\ c <> "/"%char
    /\ slug = non_slash_run (String c rest)
    /\ forall k, k < String.length pre -> ~ matches_at url k.
Proof.
  revert slug; induction url as [|a url IH]; intros slug.
  - cbn [re_search]. destruct (match_here "") eqn:E; [|discriminate].
    apply match_here_Some in E as (c & post & E & _). discriminate.
  - cbn [re_search]. destruct (match_here (String a url)) as [g|] eqn:E.
    + intros [= <-]. apply match_here_Some in E as (c & post & E & Hc & Hg).
      exists "", c, post. rewrite sapp_nil_l. repeat split; auto.
      intros k Hk. cbn in Hk. lia.
    + intros H. apply IH in H as (pre & c & rest & -> & Hc & Hs & Hfirst).
      exists (String a pre), c, rest. rewrite sapp_cons.
      repeat split; auto. intros [|k] Hk.
      * rewrite <- sapp_cons. now apply match_here_None.
      * rewrite matches_at_S. apply Hfirst. cbn in Hk. lia.
Qed.

End ExtractorSound.

(** X1.  A slug the extractor returns is never empty and holds no ["/"];
    it stands in the URL right after the marker, at the first place
    where the pattern matches, and is followed there by ["/"] or by the
    end of the URL. *)
Theorem extract_question_slug_sound (url slug : string) :
  extract_question_slug url = Some slug ->
  slug <> ""
  /\ Text.mem "/" slug = false
  /\ exists pre post,
       url = pre +:+ marker +:+ slug +:+ post
       /\ (post = "" \/ exists t, post = String "/" t)
       /\ forall k, k < String.length pre -> ~ matches_at url k.
Proof.
  intros H. pose proof (extract_question_slug_nonempty _ _ H) as Hne.
  apply re_search_sound in H as (pre & c & rest & -> & Hc & -> & Hfirst).
  destruct (non_slash_run_maximal (String c rest)) as (tail & Ht & Hs & Hend).
  split; [exact Hne|]. split; [exact Hs|].
  exists pre, tail. rewrite <- Ht. auto.
Qed.

Lemma extract_question_slug_sound_witness :
  "two-sum" <> ""
  /\ Text.mem "/" "two-sum" = false
  /\ exists pre post,
       "https://leetcode.com/problems/two-sum/description/"
       = pre +:+ marker +:+ "two-sum" +:+ post
       /\ (post = "" \/ exists t, post = String "/" t)
       /\ forall k, k < String.length pre ->
            ~ matches_at "https://leetcode.com/problems/two-sum/description/" k.
Proof.
  apply (extract_question_slug_sound
           "https://leetcode.com/problems/two-sum/description/" "two-sum").
  reflexivity.
Defined.

(** ** The fetcher: what a call leaves behind *)

(** X2.  A call of [fetch_problem_data] never touches the files and
    sends exactly one request, for the slug it was given.  It prints
    nothing when it returns a record and exactly one warning when it
    returns [None]: the status for a status other than 200, the
    exception for a failure of the transport. *)
Theorem fetch_problem_data_effects (s : session) (slug : string) (w : world) :
  files (snd (fetch_problem_data s slug w)) = files w
  /\ requests (snd (fetch_problem_data s slug w)) = requests w ++ [slug]
  /\ (forall r, fst (fetch_problem_data s slug w) = Return (Some r) ->
        console (snd (fetch_problem_data s slug w)) = console w)
  /\ (fst (fetch_problem_data s slug w) = Return None ->
      exists msg,
        console (snd (fetch_problem_data s slug w)) = console w ++ [msg])
  /\ (forall status body, s slug = Response status body ->
        status <> 200%Z ->
        console (snd (fetch_problem_data s slug w))
        = console w ++ [MsgStatusFailed status])
  /\ (forall e, s slug = TransportFailure e ->
        console (snd (fetch_problem_data s slug w))
        = console w ++ [MsgFetchError e]).
Proof.
  destruct (fetch_problem_data_returns s slug w) as (r & w' & E).
  rewrite E. cbn [fst snd].
  assert (files w' = files w /\ requests w' = requests w ++ [slug]
          /\ match r with
             | Some _ => console w' = console w
             | None => exists msg, console w' = console w ++ [msg]
             end) as (Hf & Hr & Hc).
  { destruct r as [q|].
    - apply fetch_problem_data_Some in E
        as (? & ? & _ & _ & _ & _ & _ & _ & _ & _ & ->).
      repeat split.
    - apply fetch_problem_data_None in E as (msg & ->).
      repeat split. now exists msg. }
  split; [exact Hf|]. split; [exact Hr|]. split; [|split; [|split]].
  - intros q [= ->]. exact Hc.
  - intros [= ->]. exact Hc.
  - intros status body Hs Hne. revert E.
    unfold fetch_problem_data, try_except, bind, post, lift, print, ret.
    cbv beta. rewrite Hs. cbn [fst snd].
    apply Z.eqb_neq in Hne. rewrite Hne. cbn [negb].
    now intros [= <- <-].
  - intros e Hs. revert E.
    unfold fetch_problem_data, try_except, bind, post, lift, print, ret.
    cbv beta. rewrite Hs. now intros [= <- <-].
Qed.

Lemma fetch_problem_data_effects_witness :
  console (snd (fetch_problem_data two_sum_session "two-sum" empty_world)) = []
  /\ (exists msg,
        console (snd (fetch_problem_data
                        (always (Response 200 (Return (JDict []))))
                        "two-sum" empty_world))
        = [] ++ [msg])
  /\ console (snd (fetch_problem_data
                     (always (Response 404 (Raise ContentTypeError)))
                     "two-sum" empty_world))
     = [] ++ [MsgStatusFailed 404]
  /\ console (snd (fetch_problem_data
                     (always (TransportFailure ClientError))
                     "two-sum" empty_world))
     = [] ++ [MsgFetchError ClientError].
Proof.
  split; [|split; [|split]].
  - destruct (fetch_problem_data_effects two_sum_session "two-sum"
                empty_world) as (_ & _ & H & _).
    eapply H. vm_compute. reflexivity.
  - destruct (fetch_problem_data_effects
                (always (Response 200 (Return (JDict []))))
                "two-sum" empty_world) as (_ & _ & _ & H & _).
    apply H. reflexivity.
  - destruct (fetch_problem_data_effects
                (always (Response 404 (Raise ContentTypeError)))
                "two-sum" empty_world) as (_ & _ & _ & _ & H & _).
    apply (H 404%Z (Raise ContentTypeError)); [reflexivity|discriminate].
  - destruct (fetch_problem_data_effects
                (always (TransportFailure ClientError))
                "two-sum" empty_world) as (_ & _ & _ & _ & _ & H).
    apply (H ClientError). reflexivity.
Defined.

(** ** The index updater: keys, failures and totality *)

Section UpdateKeys.

Import Text.

Lemma split_length (c : ascii) (s : string) :
  length (split c s) = S (count c s).
Proof.
  induction s as [|d s IH]; [reflexivity|].
  cbn [split count]. destruct (Ascii.eqb d c).
  - cbn [length]. now rewrite IH.
  - destruct (split c s) as [|h t]; [discriminate|]. exact IH.
Qed.

(** After the filter the id column is always there. *)
Lemma id_column_row_like (line : string) :
  row_like line = true -> exists col, id_column line = Return col.
Proof.
  unfold row_like, id_column. intros H. apply Nat.leb_le in H.
  pose proof (split_length "|" line) as Hl.
  destruct (split "|" line) as [|a [|b l]]; cbn in Hl; try lia.
  now exists (strip b).
Qed.

Lemma entry_key_raises (line : string) (e : exn) :
  row_like line = true -> entry_key line = Raise e -> e = ValueError.
Proof.
  intros Hr. destruct (id_column_row_like line Hr) as (col & Hc).
  unfold entry_key. rewrite Hc. cbn [obind].
  destruct (isdigit col); [|discriminate].
  destruct (int col); [discriminate|]. now intros [= <-].
Qed.

Lemma mapM_Raise {A B : Type} (f : A -> outcome B) (l : list A) (e : exn) :
  Py.mapM f l = Raise e -> exists x, In x l /\ f x = Raise e.
Proof.
  induction l as [|x l IH]; [discriminate|]. cbn [Py.mapM].
  destruct (f x) as [y|e'] eqn:Ex; cbn [obind].
  - destruct (Py.mapM f l) as [ys|e'']; cbn [obind]; [discriminate|].
    intros [= ->]. destruct (IH eq_refl) as (x' & Hin & Hx').
    exists x'. split; [now right|exact Hx'].
  - intros [= ->]. exists x. split; [now left|exact Ex].
Qed.

Lemma mapM_total {A B : Type} (f : A -> outcome B) (l : list A) :
  (forall x, In x l -> exists y, f x = Return y) ->
  exists ys, Py.mapM f l = Return ys.
Proof.
  induction l as [|x l IH]; intros H; [now exists []|].
  destruct (H x (or_introl eq_refl)) as (y & Hy).
  destruct IH as (ys & Hys); [intros x' Hx'; apply H; now right|].
  exists (y :: ys). cbn [Py.mapM]. now rewrite Hy, Hys.
Qed.

Lemma rewritten_rows_sort_entries (lines : list string) (entry : string) :
  rewritten_rows lines entry
  = (entries <~ sort_entries
                  (filter row_like (skipn 4 (append_if_new entry lines))) ;
     Return (firstn 4 (append_if_new entry lines) ++ entries)).
Proof. reflexivity. Qed.

Lemma sort_entries_raises (entries : list string) (e : exn) :
  Forall (fun line => row_like line = true) entries ->
  sort_entries entries = Raise e -> e = ValueError.
Proof.
  intros Hall. unfold sort_entries.
  destruct (Py.mapM _ _) as [keyed|e'] eqn:E; cbn [obind]; [discriminate|].
  intros [= ->]. apply mapM_Raise in E as (line & Hin & Hk).
  rewrite Forall_forall in Hall. apply list_elem_of_In, Hall in Hin.
  destruct (entry_key line) as [k|e'] eqn:Ek; cbn [obind] in Hk;
    [discriminate|].
  injection Hk as ->. now apply (entry_key_raises line).
Qed.

Lemma Forall_filter_row_like (l : list string) :
  Forall (fun line => row_like line = true) (filter row_like l).
Proof.
  apply Forall_forall. intros line Hin.
  apply list_elem_of_In, In_filter_row_like in Hin. tauto.
Qed.

(** The rewrite can only raise [ValueError]. *)
Lemma rewritten_rows_raises (lines : list string) (entry : string) (e : exn) :
  rewritten_rows lines entry = Raise e -> e = ValueError.
Proof.
  rewrite rewritten_rows_sort_entries.
  destruct (sort_entries _) as [entries|e'] eqn:E; cbn [obind]; [discriminate|].
  intros [= ->]. apply sort_entries_raises in E; [exact E|].
  apply Forall_filter_row_like.
Qed.

Lemma all_chars_mem (f : ascii -> bool) (s : string) :
  all_chars f s <-> forall c, mem c s = true -> f c = true.
Proof.
  unfold all_chars. induction s as [|d s IH]; cbn [forallb_string].
  - split; [discriminate|reflexivity].
  - rewrite andb_true_iff, IH. split.
    + intros [Hd Hs] c. rewrite mem_cons, orb_true_iff.
      intros [Hc|Hc]; [|now apply Hs].
      apply Ascii.eqb_eq in Hc. now subst.
    + intros H. split.
      * apply H. rewrite mem_cons, Ascii.eqb_refl. reflexivity.
      * intros c Hc. apply H. rewrite mem_cons, Hc. apply orb_true_r.
Qed.

Lemma split_sub (d c : ascii) (s part : string) :
  In part (split d s) -> mem c part = true -> mem c s = true.
Proof.
  revert part; induction s as [|a s IH]; intros part.
  - intros [<-|[]]. discriminate.
  - cbn [split]. destruct (Ascii.eqb a d).
    + intros [<-|Hin]; [discriminate|]. intros Hc.
      rewrite mem_cons, (IH part Hin Hc). apply orb_true_r.
    + destruct (split d s) as [|h t] eqn:E.
      * pose proof (split_length d s) as Hl. rewrite E in Hl. discriminate.
      * intros [<-|Hin]; rewrite !mem_cons.
        -- intros Hc. apply orb_true_iff in Hc as [Hc|Hc]; [now rewrite Hc|].
           rewrite (IH h (or_introl eq_refl) Hc). apply orb_true_r.
        -- intros Hc. rewrite (IH part (or_intror Hin) Hc). apply orb_true_r.
Qed.

Lemma int_digits_total (s : string) (acc : N) :
  all_chars isdecimal s -> exists n, int_digits acc s = Some n.
Proof.
  unfold all_chars. revert acc; induction s as [|c s IH]; intros acc H.
  - now exists acc.
  - cbn [forallb_string] in H. apply andb_true_iff in H as [Hc Hs].
    cbn [int_digits]. rewrite Hc. now apply IH.
Qed.

Lemma length_sapp (s t : string) :
  String.length (s +:+ t) = String.length s + String.length t.
Proof.
  induction s as [|c s IH]; [reflexivity|].
  rewrite sapp_cons. cbn [String.length]. now rewrite IH.
Qed.

Lemma lstrip_length (s : string) :
  String.length (lstrip s) <= String.length s.
Proof.
  induction s as [|c s IH]; [reflexivity|]. cbn [lstrip].
  destruct (isspace c); [cbn [String.length]; lia|reflexivity].
Qed.

Lemma rstrip_length (s : string) :
  String.length (rstrip s) <= String.length s.
Proof.
  induction s as [|c s IH]; [reflexivity|]. cbn [rstrip].
  destruct (rstrip s) as [|d r].
  - destruct (isspace c); cbn [String.length]; lia.
  - cbn [String.length] in *. lia.
Qed.

Lemma strip_length (s : string) :
  String.length (strip s) <= String.length s.
Proof.
  unfold strip. etransitivity; [apply rstrip_length|apply lstrip_length].
Qed.

Lemma split_part_length (c : ascii) (s part : string) :
  In part (split c s) -> String.length part <= String.length s.
Proof.
  revert part; induction s as [|a s IH]; intros part.
  - intros [<-|[]]. reflexivity.
  - cbn [split]. destruct (Ascii.eqb a c).
    + intros [<-|Hin]; cbn [String.length]; [lia|].
      specialize (IH part Hin). lia.
    + destruct (split c s) as [|h t] eqn:E.
      * pose proof (split_length c s) as Hl. rewrite E in Hl. discriminate.
      * intros [<-|Hin]; cbn [String.length].
        -- specialize (IH h (or_introl eq_refl)). lia.
        -- specialize (IH part (or_intror Hin)). lia.
Qed.

(** [int] reads every string of digits without superscripts that is
    not longer than its limit. *)
Lemma int_total (col : string) :
  isdigit col = true -> plain col -> short col -> exists n, int col = Some n.
Proof.
  intros Hd Hp Hs. destruct col as [|c col]; [discriminate|].
  unfold int. unfold short in Hs. apply Nat.ltb_ge in Hs. rewrite Hs.
  apply int_digits_total.
  apply all_chars_mem. intros a Ha.
  assert (isdigit_char a = true) as H1.
  { unfold isdigit in Hd. now apply (proj1 (all_chars_mem _ _) Hd). }
  assert (negb (superscript a) = true) as H2.
  { now apply (proj1 (all_chars_mem _ _) Hp). }
  unfold isdigit_char, superscript in *.
  destruct (isdecimal a); [reflexivity|]. cbn [orb] in H1.
  rewrite H1 in H2. discriminate.
Qed.

Lemma entry_key_total (line : string) :
  row_like line = true -> readable line -> exists k, entry_key line = Return k.
Proof.
  intros Hr [Hp Hs]. unfold entry_key, id_column in *.
  pose proof (split_length "|" line) as Hl.
  apply Nat.leb_le in Hr.
  destruct (split "|" line) as [|a [|b l]] eqn:E; cbn in Hl; try lia.
  cbn [nth_error obind].
  destruct (isdigit (strip b)) eqn:Hd; [|now exists Inf].
  assert (In b (split "|" line)) as Hb by (rewrite E; right; now left).
  destruct (int_total (strip b) Hd) as (n & Hn);
    [| |rewrite Hn; now exists (Num n)].
  - apply all_chars_mem. intros c Hc.
    apply (proj1 (all_chars_mem _ _) Hp).
    apply (split_sub "|" c line b Hb). now apply strip_sub.
  - unfold short in *. etransitivity; [apply strip_length|].
    etransitivity; [apply (split_part_length "|" line b Hb)|exact Hs].
Qed.

(** The rewrite returns when [int] can read every line. *)
Lemma rewritten_rows_total (lines : list string) (entry : string) :
  Forall readable lines -> readable entry ->
  exists rows, rewritten_rows lines entry = Return rows.
Proof.
  intros Hl He.
  assert (Forall readable (append_if_new entry lines)) as Hall.
  { unfold append_if_new. destruct (existsb _ _); [exact Hl|].
    apply Forall_app. split; [exact Hl|]. now constructor. }
  rewrite rewritten_rows_sort_entries. unfold sort_entries.
  destruct (mapM_total (fun x => k <~ entry_key x ; Return (k, x))
              (filter row_like (skipn 4 (append_if_new entry lines))))
    as (keyed & Hk).
  - intros line Hin. apply In_filter_row_like in Hin as [Hin Hr].
    destruct (entry_key_total line Hr) as (k & Hk).
    + rewrite Forall_forall in Hall. apply Hall, list_elem_of_In.
      rewrite <- (take_drop 4 (append_if_new entry lines)).
      apply in_or_app. now right.
    + rewrite Hk. now exists (k, line).
  - rewrite Hk. cbn [obind]. eauto.
Qed.

End UpdateKeys.

(** X3.  [update_main_readme] writes nowhere but to the index: in every
    outcome the console, the requests and every other path of the file
    system are as they were. *)
Theorem update_main_readme_only_index
  (q : question_data string) (url : string) (w : world) :
  console (snd (update_main_readme q url w)) = console w
  /\ requests (snd (update_main_readme q url w)) = requests w
  /\ forall p, p <> root_readme ->
       files (snd (update_main_readme q url w)) !! p = files w !! p.
Proof.
  destruct (files w !! root_readme) as [[text|]|] eqn:E.
  - rewrite (update_main_readme_file q url text w E).
    destruct (rewritten_rows _ _); cbn [snd]; repeat split.
    intros p Hp. unfold with_index, set_files. cbn [files].
    now rewrite lookup_insert_ne.
  - rewrite (update_main_readme_dir q url w E). repeat split.
  - rewrite (update_main_readme_absent q url w E).
    destruct (rewritten_rows _ _); cbn [snd]; repeat split;
      intros p Hp; unfold with_index, set_files; cbn [files];
      now rewrite lookup_insert_ne.
Qed.

(** X4.  After a run of [update_main_readme] that returns, the row of
    the problem is one of the rows written to the index; when it holds no
    line break it is one of the lines the next run reads. *)
Theorem update_main_readme_row_present
  (q : question_data string) (url : string) (w w' : world) :
  update_main_readme q url w = (Return tt, w') ->
  exists rows,
    w' = with_index rows w
    /\ In (new_entry q url) rows
    /\ (single_line (new_entry q url) -> In (new_entry q url) (lines_read w')).
Proof.
  intros H. apply update_main_readme_Return in H as (rows & Hr & ->).
  exists rows. split; [reflexivity|].
  assert (In (new_entry q url) rows) as Hin.
  { pose proof (rewritten_rows_split _ _ _ Hr) as [Ht Hs].
    apply sort_entries_Return in Hs as (_ & _ & _ & _ & Hp).
    pose proof (append_if_new_In (new_entry q url) (lines_read w)) as Hin.
    rewrite <- (take_drop 4 (append_if_new _ _)) in Hin.
    rewrite <- (take_drop 4 rows).
    apply in_app_or in Hin as [Hin|Hin]; apply in_or_app.
    - left. now rewrite Ht.
    - right. apply (Permutation_in _ (Permutation_sym Hp)).
      apply In_filter_row_like. split; [exact Hin|apply new_entry_row_like]. }
  split; [exact Hin|]. intros Hsl.
  now rewrite (rows_read_back q url w rows Hr Hsl).
Qed.

Lemma update_main_readme_row_present_witness :
  exists rows,
    snd (update_main_readme two_sum two_sum_url
           (world_with_index (index_of [add_two_numbers_row])))
    = with_index rows (world_with_index (index_of [add_two_numbers_row]))
    /\ In (new_entry two_sum two_sum_url) rows.
Proof.
  destruct (update_main_readme_row_present two_sum two_sum_url
              (world_with_index (index_of [add_two_numbers_row]))
              (snd (update_main_readme two_sum two_sum_url
                      (world_with_index (index_of [add_two_numbers_row])))))
    as (rows & Hw & Hin & _).
  - vm_compute. reflexivity.
  - exists rows. now split.
Defined.



(** X6.  [update_main_readme] returns whenever the index is a file or
    is missing and [int] can read every line read from it and the new
    row: none holds a superscript digit (the only digits [int] rejects)
    and none is longer than the 4300 digits [int] accepts. *)
Theorem update_main_readme_returns
  (q : question_data string) (url : string) (w : world) :
  files w !! root_readme <> Some Dir ->
  Forall readable (lines_read w) -> readable (new_entry q url) ->
  exists w', update_main_readme q url w = (Return tt, w').
Proof.
  intros Hd Hl He.
  destruct (rewritten_rows_total (lines_read w) (new_entry q url) Hl He)
    as (rows & Hr).
  destruct (files w !! root_readme) as [[text|]|] eqn:E.
  - rewrite (update_main_readme_file q url text w E), Hr. eauto.
  - contradiction.
  - rewrite (update_main_readme_absent q url w E), Hr. eauto.
Qed.

Lemma update_main_readme_returns_witness :
  exists w',
    update_main_readme two_sum two_sum_url
      (world_with_index (index_of [add_two_numbers_row; "not a row"]))
    = (Return tt, w').
Proof.
  apply (update_main_readme_returns two_sum two_sum_url
           (world_with_index (index_of [add_two_numbers_row; "not a row"]))).
  - discriminate.
  - repeat (constructor; [split; [reflexivity|apply Nat.leb_le; reflexivity]|]).
    constructor.
  - split; [reflexivity|apply Nat.leb_le; reflexivity].
Defined.

(** ** The index updater: a fresh index, the order of equal ids *)

Section UpdateFresh.

Lemma split_head_sub (c : ascii) (a b : string) :
  exists h t,
    Text.split c (a +:+ String c b) = h :: t
    /\ (forall x, Text.mem x h = true -> Text.mem x a = true)
    /\ (h = a \/ exists r, a = h +:+ String c r).
Proof.
  induction a as [|d a IH].
  - exists "", (Text.split c b). split; [|split; [discriminate|now left]].
    rewrite sapp_nil_l. cbn [Text.split]. now rewrite Ascii.eqb_refl.
  - rewrite sapp_cons. cbn [Text.split].
    destruct (Ascii.eqb_spec d c) as [->|Hdc].
    + eexists "", _. split; [reflexivity|]. split; [discriminate|].
      right. now exists a.
    + destruct IH as (h & t & -> & Hsub & Hpre).
      exists (String d h), t. split; [reflexivity|]. split.
      * intros x. rewrite !mem_cons, !orb_true_iff.
        intros [Hx|Hx]; [now left|right; now apply Hsub].
      * destruct Hpre as [->|(r & ->)]; [now left|].
        right. now exists r.
Qed.

Lemma new_entry_shape (q : question_data string) (url : string) :
  exists rest,
    new_entry q url
    = String "|" (String " " ((question_id q +:+ " ") +:+ String "|" rest)).
Proof.
  unfold new_entry. eexists. rewrite !sapp_assoc. reflexivity.
Qed.

(** The id column of the new row is no longer than the id. *)
Lemma strip_spaced_length (id h : string) :
  (h = id +:+ " " \/ exists r, id +:+ " " = h +:+ String "|" r) ->
  String.length (Text.strip h) <= String.length id.
Proof.
  intros [->|(r & E)].
  - rewrite (strip_app_space id " " eq_refl). apply strip_length.
  - etransitivity; [apply strip_length|].
    apply (f_equal String.length) in E. rewrite !length_sapp in E.
    cbn [String.length] in E. lia.
Qed.

(** The key of the new row is there when [int] can read its id. *)
Lemma entry_key_new_entry (q : question_data string) (url : string) :
  readable (question_id q) ->
  exists k, entry_key (new_entry q url) = Return k.
Proof.
  intros [Hp Hs]. destruct (new_entry_shape q url) as (rest & ->).
  destruct (split_head_sub "|" (question_id q +:+ " ") rest)
    as (h & t & E & Hsub & Hpre).
  unfold entry_key, id_column. cbn [Text.split].
  change (Ascii.eqb "|" "|") with true.
  change (Ascii.eqb " " "|") with false. cbv iota. rewrite E.
  cbn [nth_error obind].
  assert (Text.strip (String " " h) = Text.strip h) as -> by reflexivity.
  destruct (Text.isdigit (Text.strip h)) eqn:Hd; [|now exists Inf].
  destruct (int_total (Text.strip h) Hd) as (n & Hn);
    [| |rewrite Hn; now exists (Num n)].
  - apply all_chars_mem. intros c Hc.
    apply strip_sub, Hsub in Hc.
    rewrite !mem_app, !orb_true_iff in Hc.
    destruct Hc as [Hc|Hc].
    + now apply (proj1 (all_chars_mem _ _) Hp).
    + rewrite mem_cons, orb_true_iff in Hc. destruct Hc as [Hc|Hc];
        [|discriminate]. apply Ascii.eqb_eq in Hc. now subst.
  - unfold short in *.
    etransitivity; [apply (strip_spaced_length (question_id q) h Hpre)|].
    exact Hs.
Qed.

Lemma new_entry_bracket (q : question_data string) (url : string) :
  Text.mem "[" (new_entry q url) = true.
Proof.
  unfold new_entry. rewrite !mem_app.
  change (Text.mem "[" " | [") with true.
  now rewrite !orb_true_r.
Qed.

(** The new row is never a line of the header. *)
Lemma new_entry_not_header (q : question_data string) (url : string) :
  existsb (String.eqb (new_entry q url)) header_lines = false.
Proof.
  assert (forall h, Text.mem "[" h = false ->
                    String.eqb (new_entry q url) h = false) as H.
  { intros h Hh. apply String.eqb_neq. intros E.
    pose proof (new_entry_bracket q url) as Hb. rewrite E in Hb. congruence. }
  unfold header_lines. cbn [existsb].
  rewrite !H by reflexivity. reflexivity.
Qed.

Lemma rewritten_rows_fresh (q : question_data string) (url : string) :
  readable (question_id q) ->
  rewritten_rows header_lines (new_entry q url)
  = Return (header_lines ++ [new_entry q url]).
Proof.
  intros Hp. destruct (entry_key_new_entry q url Hp) as (k & Hk).
  rewrite rewritten_rows_sort_entries. unfold append_if_new.
  rewrite new_entry_not_header.
  change (skipn 4 (header_lines ++ [new_entry q url]))
    with [new_entry q url].
  change (firstn 4 (header_lines ++ [new_entry q url])) with header_lines.
  rewrite filter_cons_True by apply Is_true_true, new_entry_row_like.
  rewrite filter_nil. unfold sort_entries. cbn [Py.mapM].
  rewrite Hk. reflexivity.
Qed.

Lemma mapM_keyed (entries : list string) (keyed : list (sort_key * string)) :
  Py.mapM (fun x => k <~ entry_key x ; Return (k, x)) entries = Return keyed ->
  Forall keyed_right keyed /\ map snd keyed = entries.
Proof.
  intros H. apply mapM_Return in H.
  induction H as [|x y l l' Hxy _ [IH1 IH2]]; [now split|].
  destruct (entry_key x) as [k|e] eqn:Ek; cbn [obind] in Hxy;
    [|discriminate].
  injection Hxy as <-. split.
  - constructor; [exact Ek|exact IH1].
  - cbn [map snd]. now rewrite IH2.
Qed.

Lemma filter_map_snd (P : string -> bool) (Q : sort_key * string -> bool)
  (l : list (sort_key * string)) :
  (forall y, In y l -> P (snd y) = Q y) ->
  filter P (map snd l) = map snd (filter Q l).
Proof.
  induction l as [|y l IH]; intros H; [reflexivity|].
  cbn [map]. rewrite !filter_cons, (H y) by now left.
  rewrite IH by (intros z Hz; apply H; now right).
  now destruct (decide (Q y)).
Qed.

Lemma id_is_key (k : option N) (y : sort_key * string) :
  keyed_right y ->
  id_is k (snd y)
  = key_le (match k with Some n => Num n | None => Inf end) (fst y)
    && key_le (fst y) (match k with Some n => Num n | None => Inf end).
Proof.
  destruct y as [key x]. unfold keyed_right, id_is. cbn [fst snd].
  intros H. rewrite (entry_key_numeric_id x key H).
  destruct key as [a|], k as [b|]; cbn [key_le andb]; try reflexivity.
  destruct (N.eqb_spec a b) as [->|Hne].
  - now rewrite N.leb_refl.
  - destruct (N.leb_spec b a), (N.leb_spec a b); try reflexivity; lia.
Qed.

End UpdateFresh.

(** X7.  On a repository without an index, [update_main_readme] with
    the record of any problem whose id [int] can read (no superscript
    digit, no more than 4300 characters) returns and leaves an index
    made of the header and the one row of the problem. *)
Theorem update_main_readme_fresh
  (q : question_data string) (url : string) (w : world) :
  files w !! root_readme = None -> readable (question_id q) ->
  update_main_readme q url w
  = (Return tt, with_index (header_lines ++ [new_entry q url]) w)
  /\ index_text (snd (update_main_readme q url w))
     = Some (index_of [new_entry q url]).
Proof.
  intros H Hp.
  assert (update_main_readme q url w
          = (Return tt, with_index (header_lines ++ [new_entry q url]) w))
    as E.
  { rewrite (update_main_readme_absent _ _ _ H).
    assert (lines_read w = header_lines) as ->.
    { unfold lines_read. now rewrite H. }
    now rewrite (rewritten_rows_fresh q url Hp). }
  split; [exact E|]. rewrite E. cbn [snd].
  now rewrite index_text_with_index.
Qed.

Lemma update_main_readme_fresh_witness :
  update_main_readme longest_substring longest_substring_url empty_world
  = (Return tt,
     with_index
       (header_lines ++ [new_entry longest_substring longest_substring_url])
       empty_world)
  /\ index_text (snd (update_main_readme longest_substring
                        longest_substring_url empty_world))
     = Some (index_of [new_entry longest_substring longest_substring_url]).
Proof.
  apply (update_main_readme_fresh longest_substring longest_substring_url
           empty_world); [reflexivity|].
  split; [reflexivity|apply Nat.leb_le; reflexivity].
Defined.

(** X8.  The rewrite keeps the order of rows with the same id: among
    the rows written after the header, those with a given numeric id, or
    those without one, stand in the order in which the rewrite met them:
    the rows read in the order of the file and the new row, when it was
    appended, after them. *)
Theorem update_main_readme_stable
  (q : question_data string) (url : string) (w w' : world) (k : option N) :
  update_main_readme q url w = (Return tt, w') ->
  exists rows,
    w' = with_index rows w
    /\ filter (id_is k) (drop 4 rows)
       = filter (id_is k) (table_rows (lines_read w) (new_entry q url)).
Proof.
  intros H. apply update_main_readme_Return in H as (rows & Hr & ->).
  exists rows. split; [reflexivity|].
  apply rewritten_rows_split in Hr as [_ Hs]. fold (table_rows (lines_read w)
    (new_entry q url)) in Hs. unfold sort_entries in Hs.
  destruct (Py.mapM _ _) as [keyed|e] eqn:E; cbn [obind] in Hs;
    [|discriminate].
  injection Hs as Hs. apply mapM_keyed in E as [Hk Hm].
  rewrite <- Hs, <- Hm.
  rewrite (filter_map_snd (id_is k)
             (fun y => key_le (match k with Some n => Num n | None => Inf end)
                         (fst y)
                       && key_le (fst y)
                            (match k with Some n => Num n | None => Inf end))).
  - rewrite sort_by_key_stable. symmetry. apply filter_map_snd.
    intros y Hy. apply id_is_key.
    rewrite Forall_forall in Hk. now apply Hk, list_elem_of_In.
  - intros y Hy. apply id_is_key.
    rewrite Forall_forall in Hk. apply Hk, list_elem_of_In.
    now apply (Permutation_in _ (sort_by_key_perm keyed)).
Qed.

Lemma update_main_readme_stable_witness :
  exists rows,
    snd (update_main_readme two_sum two_sum_url
           (world_with_index (index_of [two_sum_cut_row; add_two_numbers_row])))
    = with_index rows
        (world_with_index (index_of [two_sum_cut_row; add_two_numbers_row]))
    /\ filter (id_is (Some 1%N)) (drop 4 rows)
       = [two_sum_cut_row; two_sum_row].
Proof.
  destruct (update_main_readme_stable two_sum two_sum_url
              (world_with_index
                 (index_of [two_sum_cut_row; add_two_numbers_row]))
              (snd (update_main_readme two_sum two_sum_url
                      (world_with_index
                         (index_of [two_sum_cut_row; add_two_numbers_row]))))
              (Some 1%N))
    as (rows & Hw & Hf).
  - vm_compute. reflexivity.
  - exists rows. split; [exact Hw|]. rewrite Hf. vm_compute. reflexivity.
Defined.

(** X9.  The index format is stable under the rewrite's own reading and
    writing: the lines read from any text are stripped, not blank and on
    one line, and writing them, one per line, and reading the result
    gives the same lines. *)
Theorem index_lines_round_trip (text : string) :
  Forall clean (stripped_lines (Text.universal_newlines text))
  /\ stripped_lines
       (Text.universal_newlines
          (Text.join Text.LF (stripped_lines (Text.universal_newlines text))
           +:+ Text.LF))
     = stripped_lines (Text.universal_newlines text).
Proof.
  split; [apply stripped_lines_clean|].
  apply read_back, stripped_lines_clean.
Qed.

(** ** The scaffolder: the paths it touches *)

Section ScaffolderFrame.

Lemma join_path_cases (a b : string) :
  (Fs.join_path a b = b /\ (a = "" \/ exists r, b = String "/" r))
  \/ (a <> ""
      /\ (Fs.join_path a b = a +:+ b \/ Fs.join_path a b = a +:+ "/" +:+ b)).
Proof.
  unfold Fs.join_path. destruct (Text.strip_prefix "/" b) as [r|] eqn:E.
  - left. split; [reflexivity|]. right. exists r.
    now apply strip_prefix_Some in E.
  - destruct a as [|c a]; [left; auto|]. right. split; [discriminate|].
    destruct (String.rev (String c a)) as [|d t]; [now right|].
    destruct d as [[] [] [] [] [] [] [] []]; auto.
Qed.

Lemma join_path_scaffold_like (a b : string) :
  scaffold_like a -> scaffold_like (Fs.join_path a b).
Proof.
  intros Ha. destruct (join_path_cases a b) as [[-> [->|[r ->]]]|[_ [->| ->]]].
  - destruct Ha.
  - now right.
  - destruct a; [destruct Ha|exact Ha].
  - destruct a; [destruct Ha|exact Ha].
Qed.

Lemma folder_path_scaffold_like (id slug : string) :
  scaffold_like (folder_path id slug).
Proof. apply join_path_scaffold_like. now left. Qed.

Lemma readme_path_scaffold_like (id slug : string) :
  scaffold_like (readme_path id slug).
Proof. apply join_path_scaffold_like, folder_path_scaffold_like. Qed.

Lemma solution_path_scaffold_like (id slug : string) :
  scaffold_like (solution_path id slug).
Proof. apply join_path_scaffold_like, folder_path_scaffold_like. Qed.

Lemma ancestors_head (c : ascii) (r a : string) :
  In a (Fs.ancestors (String c r)) -> exists r', a = String c r'.
Proof.
  unfold Fs.ancestors. rewrite <- list_elem_of_In, list_elem_of_filter.
  intros [Hne Hin]. cbn [Fs.prefixes_before_slash] in Hin.
  apply list_elem_of_In, in_app_or in Hin as [Hin|Hin].
  - destruct (Ascii.eqb c "/"); [|destruct Hin].
    destruct Hin as [<-|[]]. destruct Hne.
  - apply in_map_iff in Hin as (r' & <- & _). now exists r'.
Qed.

Lemma ancestors_scaffold_like (p a : string) :
  scaffold_like p -> In a (Fs.ancestors p) -> scaffold_like a.
Proof.
  destruct p as [|c r]; [intros []|]. intros Hp Hin.
  apply ancestors_head in Hin as (r' & ->). exact Hp.
Qed.

(** The index is no path of the scaffolder. *)
Lemma root_readme_not_scaffold_like : ~ scaffold_like root_readme.
Proof. intros [H|H]; discriminate. Qed.

Lemma foldr_add_dir_frame (l : list string) (f : gmap string node) (x : string) :
  ~ In x l -> foldr Fs.add_dir f l !! x = f !! x.
Proof.
  induction l as [|p l IH]; intros Hx; [reflexivity|].
  cbn [foldr]. unfold Fs.add_dir at 1.
  destruct (foldr Fs.add_dir f l !! p).
  - apply IH. intros H. apply Hx. now right.
  - rewrite lookup_insert_ne by (intros ->; apply Hx; now left).
    apply IH. intros H. apply Hx. now right.
Qed.

Lemma makedirs_frame (p : string) (w : world) :
  console (snd (Fs.makedirs p w)) = console w
  /\ requests (snd (Fs.makedirs p w)) = requests w
  /\ forall x, ~ In x (Fs.ancestors p ++ [p]) ->
       files (snd (Fs.makedirs p w)) !! x = files w !! x.
Proof.
  unfold Fs.makedirs. destruct (files w !! p) as [[text|]|]; auto.
  destruct (existsb _ _); auto. cbn [snd]. unfold set_files.
  cbn [files console requests]. repeat split.
  intros x Hx. now apply foldr_add_dir_frame.
Qed.

Lemma ensure_file_frame (p text : string) (w : world) :
  console (snd (ensure_file p text w)) = console w
  /\ requests (snd (ensure_file p text w)) = requests w
  /\ forall x, x <> p ->
       files (snd (ensure_file p text w)) !! x = files w !! x.
Proof.
  destruct (ensure_file_cases p text w)
    as [[_ E]|[[_ (e & E)]|[H E]]].
  - now rewrite (E text).
  - now rewrite (E text).
  - rewrite E. cbn [snd]. unfold set_files. cbn [files console requests].
    repeat split. intros x Hx. now rewrite lookup_insert_ne.
Qed.

Lemma scaffold_frame (p1 p2 p3 t2 t3 : string) (w : world) :
  console (snd (scaffold p1 p2 p3 t2 t3 w)) = console w
  /\ requests (snd (scaffold p1 p2 p3 t2 t3 w)) = requests w
  /\ forall x, ~ In x (Fs.ancestors p1 ++ [p1; p2; p3]) ->
       files (snd (scaffold p1 p2 p3 t2 t3 w)) !! x = files w !! x.
Proof.
  unfold scaffold, bind.
  destruct (makedirs_frame p1 w) as (Hc1 & Hr1 & Hf1).
  assert (forall x, ~ In x (Fs.ancestors p1 ++ [p1; p2; p3]) ->
            ~ In x (Fs.ancestors p1 ++ [p1]) /\ x <> p2 /\ x <> p3) as Hx.
  { intros x H. repeat split.
    - intros Hin. apply H. apply in_app_or in Hin as [Hin|[<-|[]]];
        apply in_or_app; [now left|right; now left].
    - intros ->. apply H, in_or_app. right. right. now left.
    - intros ->. apply H, in_or_app. right. right. right. now left. }
  destruct (Fs.makedirs p1 w) as [[[]|e] wa]; cbn [snd] in *.
  2:{ repeat split; auto. intros x H. now apply Hf1, Hx. }
  destruct (ensure_file_frame p2 t2 wa) as (Hc2 & Hr2 & Hf2).
  destruct (ensure_file p2 t2 wa) as [[[]|e] wb]; cbn [snd] in *.
  2:{ repeat split; try congruence. intros x H.
      destruct (Hx x H) as (H1 & H2 & _). now rewrite Hf2, Hf1. }
  destruct (ensure_file_frame p3 t3 wb) as (Hc3 & Hr3 & Hf3).
  repeat split; try congruence. intros x H.
  destruct (Hx x H) as (H1 & H2 & H3). now rewrite Hf3, Hf2, Hf1.
Qed.

Lemma scaffold_paths_not_index (id slug : string) :
  ~ In root_readme
      (Fs.ancestors (folder_path id slug)
       ++ [folder_path id slug; readme_path id slug; solution_path id slug]).
Proof.
  intros H. apply root_readme_not_scaffold_like.
  apply in_app_or in H as [H|[<-|[<-|[<-|[]]]]].
  - apply (ancestors_scaffold_like (folder_path id slug));
      [apply folder_path_scaffold_like|exact H].
  - apply folder_path_scaffold_like.
  - apply readme_path_scaffold_like.
  - apply solution_path_scaffold_like.
Qed.

(** The scaffolder leaves the console, the requests and the index as
    they were. *)
Lemma setup_problem_directory_index
  (now : datetime) (id slug title : string) (w : world) :
  console (snd (setup_problem_directory now id slug title w)) = console w
  /\ requests (snd (setup_problem_directory now id slug title w)) = requests w
  /\ files (snd (setup_problem_directory now id slug title w)) !! root_readme
     = files w !! root_readme.
Proof.
  rewrite setup_problem_directory_scaffold.
  destruct (scaffold_frame (folder_path id slug) (readme_path id slug)
              (solution_path id slug) ""
              (generate_solution_metadata now title) w) as (Hc & Hr & Hf).
  repeat split; auto. apply Hf, scaffold_paths_not_index.
Qed.

End ScaffolderFrame.

(** ** The scaffolder: when it succeeds, when it is blocked *)

Section ScaffolderRuns.







Lemma strip_prefix_no_slash (b : string) :
  b <> "" -> no_slash b -> Text.strip_prefix "/" b = None.
Proof.
  destruct b as [|c b]; [congruence|]. intros _ H.
  unfold no_slash in H. rewrite mem_cons in H.
  apply orb_false_iff in H as [H _]. cbn [Text.strip_prefix]. now rewrite H.
Qed.

(** [os.path.join] of a directory that does not end in ["/"] and a
    relative name. *)
Lemma join_path_relative (a b : string) :
  (exists c t, String.rev a = String c t /\ c <> "/"%char) ->
  Text.strip_prefix "/" b = None ->
  Fs.join_path a b = a +:+ "/" +:+ b.
Proof.
  intros (c & t & E & Hc) Hb. unfold Fs.join_path. rewrite Hb.
  destruct a as [|d a]; [discriminate|]. rewrite E.
  destruct c as [[] [] [] [] [] [] [] []]; try reflexivity.
  now contradiction Hc.
Qed.

Lemma prefixes_no_slash (b : string) :
  no_slash b -> Fs.prefixes_before_slash b = [].
Proof.
  unfold no_slash. induction b as [|c b IH]; [reflexivity|].
  rewrite mem_cons. intros H. apply orb_false_iff in H as [Hc Hb].
  cbn [Fs.prefixes_before_slash]. rewrite Ascii.eqb_sym, Hc, (IH Hb).
  reflexivity.
Qed.

Lemma prefixes_app_slash (a b : string) :
  Fs.prefixes_before_slash (a +:+ String "/" b)
  = Fs.prefixes_before_slash a
    ++ map (String.app a) (Fs.prefixes_before_slash (String "/" b)).
Proof.
  induction a as [|c a IH].
  - rewrite sapp_nil_l. cbn [Fs.prefixes_before_slash app].
    symmetry. apply map_id.
  - rewrite sapp_cons. cbn [Fs.prefixes_before_slash].
    rewrite IH, map_app, map_map, app_assoc. reflexivity.
Qed.

(** The directories above a child of [a] are those above [a], and [a]. *)
Lemma ancestors_child (a b : string) :
  a <> "" -> no_slash b ->
  Fs.ancestors (a +:+ "/" +:+ b) = Fs.ancestors a ++ [a].
Proof.
  intros Ha Hb. unfold Fs.ancestors.
  change (a +:+ "/" +:+ b) with (a +:+ String "/" b).
  rewrite prefixes_app_slash. cbn [Fs.prefixes_before_slash].
  change (Ascii.eqb "/" "/") with true. cbv iota.
  rewrite (prefixes_no_slash b Hb). cbn [map app].
  rewrite sapp_nil_r, filter_app. f_equal.
  rewrite filter_cons_True, filter_nil; [reflexivity|].
  apply Is_true_true, negb_true_iff, String.eqb_neq, Ha.
Qed.







Lemma no_slash_app (a b : string) :
  no_slash a -> no_slash b -> no_slash (a +:+ b).
Proof. unfold no_slash. intros Ha Hb. now rewrite mem_app, Ha, Hb. Qed.

Lemma folder_name_no_slash (id slug : string) :
  no_slash id -> no_slash slug ->
  no_slash (id +:+ "." +:+ slug) /\ id +:+ "." +:+ slug <> "".
Proof.
  intros Hi Hs. split.
  - apply no_slash_app; [exact Hi|]. now apply (no_slash_app "." slug).
  - destruct id; discriminate.
Qed.

Lemma folder_path_plain (id slug : string) :
  no_slash id -> no_slash slug ->
  folder_path id slug = base_directory +:+ "/" +:+ id +:+ "." +:+ slug.
Proof.
  intros Hi Hs. destruct (folder_name_no_slash id slug Hi Hs) as [Hn Hne].
  unfold folder_path. apply join_path_relative.
  - exists "t"%char, "esmelborp". split; [reflexivity|discriminate].
  - now apply strip_prefix_no_slash.
Qed.





(** A folder name that is one directory entry is made of an id and a
    slug without ["/"]. *)
Lemma component_names (id slug : string) :
  component (id +:+ "." +:+ slug) -> no_slash id /\ no_slash slug.
Proof.
  intros (_ & _ & _ & H & _). unfold no_slash. rewrite !mem_app in H.
  apply orb_false_iff in H as [Hi H]. apply orb_false_iff in H as [_ Hs].
  now split.
Qed.



End ScaffolderRuns.

(** X10.  For a folder name [<id>.<slug>] that is the name of one
    directory entry (not ["."] nor [".."], without ["/"] and without
    the character of code 0), [setup_problem_directory], whatever its
    outcome, prints nothing, sends nothing and changes no path other
    than [problemset], the folder of the problem, the [README.md] of the
    folder and the solution file; the index [README.md] of the
    repository is not one of them. *)
Theorem setup_problem_directory_frame
  (now : datetime) (id slug title : string) (w : world) :
  component (id +:+ "." +:+ slug) ->
  console (snd (setup_problem_directory now id slug title w)) = console w
  /\ requests (snd (setup_problem_directory now id slug title w)) = requests w
  /\ (forall p,
        p <> base_directory -> p <> folder_path id slug ->
        p <> readme_path id slug -> p <> solution_path id slug ->
        files (snd (setup_problem_directory now id slug title w)) !! p
        = files w !! p)
  /\ files (snd (setup_problem_directory now id slug title w)) !! root_readme
     = files w !! root_readme.
Proof.
  intros Hc. destruct (component_names id slug Hc) as [Hi Hs].
  destruct (folder_name_no_slash id slug Hi Hs) as [Hn _].
  assert (Fs.ancestors (folder_path id slug) = [base_directory]) as Hanc.
  { rewrite (folder_path_plain id slug Hi Hs).
    now rewrite (ancestors_child base_directory _ ltac:(discriminate) Hn). }
  rewrite setup_problem_directory_scaffold.
  destruct (scaffold_frame (folder_path id slug) (readme_path id slug)
              (solution_path id slug) ""
              (generate_solution_metadata now title) w) as (Hc1 & Hr1 & Hf).
  split; [exact Hc1|]. split; [exact Hr1|]. split.
  - intros p H1 H2 H3 H4. apply Hf. rewrite Hanc.
    intros [<-|[<-|[<-|[<-|[]]]]]; congruence.
  - apply Hf, scaffold_paths_not_index.
Qed.

Lemma setup_problem_directory_frame_witness :
  files (snd (setup_problem_directory noon "1" "two-sum" "Two Sum"
                (world_with_index (index_of [two_sum_row])))) !! root_readme
  = Some (File (index_of [two_sum_row]))
  /\ console (snd (setup_problem_directory noon "1" "two-sum" "Two Sum"
                     (world_with_index (index_of [two_sum_row])))) = [].
Proof.
  destruct (setup_problem_directory_frame noon "1" "two-sum" "Two Sum"
              (world_with_index (index_of [two_sum_row])))
    as (Hc & _ & _ & Hi).
  - repeat split; (discriminate || reflexivity).
  - split; [rewrite Hi; reflexivity|exact Hc].
Defined.





(** ** The orchestrator: requests, exceptions, success *)

Section OrchestratorRuns.

Variable py_str : json -> string.
Variable s : session.
Variable now : datetime.

Lemma extract_question_slug_no_slash (url slug : string) :
  extract_question_slug url = Some slug -> no_slash slug.
Proof.
  intros H.
  apply re_search_sound in H as (pre & c & rest & -> & Hc & -> & Hfirst).
  destruct (non_slash_run_maximal (String c rest)) as (tail & Ht & Hs & Hend).
  exact Hs.
Qed.

(** The three ways of a run of [main]. *)
Lemma main_cases (url : string) (w : world) :
  (extract_question_slug url = None
   /\ main py_str s now url w
      = (Return tt,
         {| files := files w; console := console w ++ [Prompt; MsgInvalidURL];
            requests := requests w |}))
  \/ (exists slug warning,
        extract_question_slug url = Some slug
        /\ fst (fetch_problem_data s slug w) = Return None
        /\ main py_str s now url w
           = (Return tt,
              {| files := files w;
                 console := console w ++ [Prompt; warning; MsgFetchFailed];
                 requests := requests w ++ [slug] |}))
  \/ (exists slug q,
        extract_question_slug url = Some slug
        /\ fst (fetch_problem_data s slug w) = Return (Some q)
        /\ question_slug q = slug
        /\ main py_str s now url w = late_steps py_str now url q (asked slug w)).
Proof.
  destruct (extract_question_slug url) as [slug|] eqn:H.
  - right.
    pose proof (extract_question_slug_nonempty _ _ H) as Hne.
    apply String.eqb_neq in Hne.
    pose proof (fetch_problem_data_result s slug w
                  {| files := files w; console := console w ++ [Prompt];
                     requests := requests w |}) as Hf.
    unfold main, bind, print, ret. cbv beta. rewrite H.
    cbn [slug_missing default from_option id]. rewrite Hne.
    destruct (fetch_problem_data s slug
                {| files := files w; console := console w ++ [Prompt];
                   requests := requests w |}) as [o w1] eqn:E.
    cbn [fst] in Hf.
    destruct (fetch_problem_data_returns s slug
                {| files := files w; console := console w ++ [Prompt];
                   requests := requests w |}) as (r & w1' & E').
    rewrite E in E'. injection E' as -> <-.
    destruct r as [q|].
    + right. exists slug, q. split; [reflexivity|]. split; [exact Hf|].
      apply fetch_problem_data_Some in E
        as (? & ? & _ & _ & _ & _ & _ & _ & _ & Hs & ->).
      split; [exact Hs|]. reflexivity.
    + left. apply fetch_problem_data_None in E as (msg & ->).
      exists slug, msg. split; [reflexivity|]. split; [exact Hf|].
      cbn [files console requests]. now rewrite <- !app_assoc.
  - left. split; [reflexivity|].
    unfold main, bind, print, ret. cbv beta. rewrite H.
    cbn [slug_missing files console requests]. now rewrite <- app_assoc.
Qed.

Lemma update_main_readme_quiet
  (q : question_data string) (url : string) (w : world) :
  console (snd (update_main_readme q url w)) = console w
  /\ requests (snd (update_main_readme q url w)) = requests w.
Proof.
  destruct (files w !! root_readme) as [[text|]|] eqn:E.
  - rewrite (update_main_readme_file q url text w E).
    destruct (rewritten_rows _ _); split; reflexivity.
  - rewrite (update_main_readme_dir q url w E). split; reflexivity.
  - rewrite (update_main_readme_absent q url w E).
    destruct (rewritten_rows _ _); split; reflexivity.
Qed.

Lemma update_main_readme_raises
  (q : question_data string) (url : string) (w w' : world) (e : exn) :
  update_main_readme q url w = (Raise e, w') ->
  e = IsADirectoryError \/ e = ValueError.
Proof.
  destruct (files w !! root_readme) as [[text|]|] eqn:E.
  - rewrite (update_main_readme_file q url text w E).
    destruct (rewritten_rows _ _) as [rows|x] eqn:Hr; [discriminate|].
    intros [= -> _]. right. now apply rewritten_rows_raises in Hr.
  - rewrite (update_main_readme_dir q url w E). intros [= <- _]. now left.
  - rewrite (update_main_readme_absent q url w E).
    destruct (rewritten_rows _ _) as [rows|x] eqn:Hr; [discriminate|].
    intros [= -> _]. right. now apply rewritten_rows_raises in Hr.
Qed.

Lemma rewritten_rows_In (lines rows : list string) (entry : string) :
  row_like entry = true ->
  rewritten_rows lines entry = Return rows -> In entry rows.
Proof.
  intros Hrow Hr. pose proof (rewritten_rows_split _ _ _ Hr) as [Ht Hs].
  apply sort_entries_Return in Hs as (_ & _ & _ & _ & Hp).
  pose proof (append_if_new_In entry lines) as Hin.
  rewrite <- (take_drop 4 (append_if_new _ _)) in Hin.
  rewrite <- (take_drop 4 rows).
  apply in_app_or in Hin as [Hin|Hin]; apply in_or_app.
  - left. now rewrite Ht.
  - right. apply (Permutation_in _ (Permutation_sym Hp)).
    apply In_filter_row_like. now split.
Qed.

Lemma makedirs_raises (p : string) (w w' : world) (e : exn) :
  Fs.makedirs p w = (Raise e, w') ->
  e = FileExistsError \/ e = NotADirectoryError.
Proof.
  unfold Fs.makedirs. destruct (files w !! p) as [[text|]|].
  - intros [= <- _]. now left.
  - discriminate.
  - destruct (existsb _ _); [|discriminate]. intros [= <- _]. now right.
Qed.

Lemma ensure_file_raises (p text : string) (w w' : world) (e : exn) :
  ensure_file p text w = (Raise e, w') ->
  e = NotADirectoryError \/ e = FileNotFoundError.
Proof.
  unfold ensure_file, bind, Fs.path_exists, ret, Fs.write_file. cbv beta.
  destruct (files w !! p) as [n|] eqn:E; [discriminate|].
  cbv beta iota. rewrite ?E. unfold Fs.parent_check.
  destruct (last _) as [d|]; [|discriminate].
  destruct (files w !! d) as [[t|]|]; [| |]; try discriminate;
    intros [= <- _]; auto.
Qed.

(** What a run of the scaffolder that returns leaves; what it can
    raise. *)
Lemma scaffold_outcome (p1 p2 p3 t2 t3 : string) (w : world) :
  (exists w',
     scaffold p1 p2 p3 t2 t3 w = (Return tt, w')
     /\ files w' !! p1 = Some Dir
     /\ is_Some (files w' !! p2) /\ is_Some (files w' !! p3))
  \/ (exists e w',
        scaffold p1 p2 p3 t2 t3 w = (Raise e, w')
        /\ (e = FileExistsError \/ e = NotADirectoryError
            \/ e = FileNotFoundError)).
Proof.
  unfold scaffold, bind.
  destruct (Fs.makedirs p1 w) as [[[]|e] wa] eqn:Ea.
  2:{ right. exists e, wa. split; [reflexivity|].
      apply makedirs_raises in Ea as [->| ->]; auto. }
  assert (files wa !! p1 = Some Dir) as H1.
  { destruct (makedirs_cases p1 w) as [[e He]|(wa' & Ha & _ & H)];
      congruence. }
  pose proof (ensure_file_keeps p2 t2 wa) as K2.
  destruct (ensure_file p2 t2 wa) as [[[]|e] wb] eqn:Eb; cbn [snd] in K2.
  2:{ right. exists e, wb. split; [reflexivity|].
      apply ensure_file_raises in Eb as [->| ->]; auto. }
  assert (is_Some (files wb !! p2)) as H2.
  { destruct (ensure_file_cases p2 t2 wa)
      as [[H E]|[[H (e & E)]|[H E]]].
    - rewrite (E t2) in Eb. now injection Eb as <-.
    - rewrite (E t2) in Eb. discriminate.
    - rewrite E in Eb. injection Eb as <-. apply lookup_written. }
  pose proof (ensure_file_keeps p3 t3 wb) as K3.
  destruct (ensure_file p3 t3 wb) as [[[]|e] wc] eqn:Ec; cbn [snd] in K3.
  2:{ right. exists e, wc. split; [reflexivity|].
      apply ensure_file_raises in Ec as [->| ->]; auto. }
  left. exists wc. split; [reflexivity|]. split; [|split].
  - exact (lookup_weaken _ _ _ _ (lookup_weaken _ _ _ _ H1 K2) K3).
  - destruct H2 as [n H2]. exists n. exact (lookup_weaken _ _ _ _ H2 K3).
  - destruct (ensure_file_cases p3 t3 wb)
      as [[H E]|[[H (e & E)]|[H E]]].
    + rewrite (E t3) in Ec. now injection Ec as <-.
    + rewrite (E t3) in Ec. discriminate.
    + rewrite E in Ec. injection Ec as <-. apply lookup_written.
Qed.

(** The three ways of the steps that follow the fetch. *)
Lemma late_steps_cases (url : string) (q : question_data json) (w : world) :
  let id := py_str (question_id q) in
  let slug := question_slug q in
  let setup := setup_problem_directory now id slug (py_str (question_title q)) in
  let update := update_main_readme (formatted py_str q) url in
  (exists e,
     fst (setup w) = Raise e
     /\ (e = FileExistsError \/ e = NotADirectoryError
         \/ e = FileNotFoundError)
     /\ late_steps py_str now url q w = (Raise e, snd (setup w)))
  \/ (exists e,
        fst (setup w) = Return tt
        /\ fst (update (snd (setup w))) = Raise e
        /\ (e = IsADirectoryError \/ e = ValueError)
        /\ late_steps py_str now url q w
           = (Raise e, snd (update (snd (setup w)))))
  \/ (exists rows,
        fst (setup w) = Return tt
        /\ update (snd (setup w))
           = (Return tt, with_index rows (snd (setup w)))
        /\ rewritten_rows (lines_read (snd (setup w)))
             (new_entry (formatted py_str q) url) = Return rows
        /\ In (new_entry (formatted py_str q) url) rows
        /\ files (snd (setup w)) !! folder_path id slug = Some Dir
        /\ is_Some (files (snd (setup w)) !! readme_path id slug)
        /\ is_Some (files (snd (setup w)) !! solution_path id slug)
        /\ late_steps py_str now url q w
           = (Return tt,
              {| files := files (with_index rows (snd (setup w)));
                 console := console (with_index rows (snd (setup w)))
                            ++ [MsgSuccess (py_str (question_title q))];
                 requests := requests (with_index rows (snd (setup w))) |})).
Proof.
  intros id slug setup update. subst setup update id slug.
  unfold late_steps, bind.
  pose proof (setup_problem_directory_scaffold now (py_str (question_id q))
                (question_slug q) (py_str (question_title q)) w) as Es.
  destruct (scaffold_outcome
              (folder_path (py_str (question_id q)) (question_slug q))
              (readme_path (py_str (question_id q)) (question_slug q))
              (solution_path (py_str (question_id q)) (question_slug q)) ""
              (generate_solution_metadata now (py_str (question_title q))) w)
    as [(w2 & E & H1 & H2 & H3)|(e & w2 & E & He)]; rewrite <- Es in E;
    rewrite E; cbn [fst snd].
  2:{ left. exists e. auto. }
  right.
  destruct (update_main_readme (formatted py_str q) url w2)
    as [[[]|e] w3] eqn:Eu; cbn [fst snd].
  - right. apply update_main_readme_Return in Eu as (rows & Hr & ->).
    exists rows. repeat split; auto.
    apply (rewritten_rows_In _ _ _ (new_entry_row_like _ _) Hr).
  - left. exists e. repeat split; auto.
    now apply update_main_readme_raises in Eu.
Qed.

End OrchestratorRuns.

Section OrchestratorWorlds.


Lemma lines_read_same (w w' : world) :
  files w' !! root_readme = files w !! root_readme ->
  lines_read w' = lines_read w.
Proof. unfold lines_read. now intros ->. Qed.


Lemma with_index_lookup (rows : list string) (w : world) (p : string) :
  scaffold_like p -> files (with_index rows w) !! p = files w !! p.
Proof.
  intros Hp. unfold with_index, set_files. cbn [files].
  apply lookup_insert_ne. intros <-.
  now apply root_readme_not_scaffold_like.
Qed.

Lemma last_two {A : Type} (l : list A) (a b : A) :
  last (l ++ [a; b]) = Some b.
Proof. change [a; b] with ([a] ++ [b]). now rewrite app_assoc, last_snoc. Qed.

End OrchestratorWorlds.

(** X13.  Whatever its outcome, a run of [main] sends no request when
    the URL gives no slug and otherwise exactly one, for the slug
    extracted; it prints the prompt first and at most two messages
    after it. *)
Theorem main_requests
  (py_str : json -> string) (s : session) (now : datetime) (url : string)
  (w : world) :
  requests (snd (main py_str s now url w))
  = requests w ++ match extract_question_slug url with
                  | Some slug => [slug]
                  | None => []
                  end
  /\ exists msgs,
       console (snd (main py_str s now url w)) = console w ++ Prompt :: msgs
       /\ length msgs <= 2.
Proof.
  destruct (main_cases py_str s now url w)
    as [[H E]|[(slug & msg & H & _ & E)|(slug & q & H & _ & _ & E)]];
    rewrite E, H; clear E.
  - cbn [snd requests console]. split; [now rewrite app_nil_r|].
    exists [MsgInvalidURL]. split; [reflexivity|]. cbn. lia.
  - cbn [snd requests console]. split; [reflexivity|].
    exists [msg; MsgFetchFailed]. split; [reflexivity|]. cbn. lia.
  - pose proof (setup_problem_directory_index now (py_str (question_id q))
                  (question_slug q) (py_str (question_title q))
                  (asked slug w)) as (Hc1 & Hr1 & _).
    pose proof (update_main_readme_quiet (formatted py_str q) url
                  (snd (setup_problem_directory now (py_str (question_id q))
                          (question_slug q) (py_str (question_title q))
                          (asked slug w)))) as (Hc2 & Hr2).
    destruct (late_steps_cases py_str now url q (asked slug w))
      as [(e & _ & _ & E)|[(e & _ & _ & _ & E)|(rows & _ & Eu & _ & _ & _ & _ & _ & E)]];
      rewrite E; clear E; cbn [snd requests console].
    + rewrite Hr1, Hc1. split; [reflexivity|].
      exists []. split; [reflexivity|]. cbn. lia.
    + rewrite Hr2, Hc2, Hr1, Hc1. split; [reflexivity|].
      exists []. split; [reflexivity|]. cbn. lia.
    + rewrite Eu in Hr2, Hc2. cbn [snd] in Hr2, Hc2.
      rewrite Hr2, Hc2, Hr1, Hc1. split; [reflexivity|].
      exists [MsgSuccess (py_str (question_title q))].
      split; [|cbn; lia]. cbn [asked console]. now rewrite <- app_assoc.
Qed.



(** X15.  When the last message of a run of [main] announces success,
    the run has returned, the title announced is that of the record
    fetched for the slug of the URL, the folder of the problem is a
    directory holding its [README.md] and its solution file, and the
    row of the problem is one of the rows of the index. *)
Theorem main_success_announced
  (py_str : json -> string) (s : session) (now : datetime) (url : string)
  (w : world) (title : string) :
  last (console (snd (main py_str s now url w))) = Some (MsgSuccess title) ->
  fst (main py_str s now url w) = Return tt
  /\ exists slug q rows,
       extract_question_slug url = Some slug
       /\ fst (fetch_problem_data s slug w) = Return (Some q)
       /\ title = py_str (question_title q)
       /\ files (snd (main py_str s now url w))
            !! folder_path (py_str (question_id q)) slug = Some Dir
       /\ is_Some (files (snd (main py_str s now url w))
                     !! readme_path (py_str (question_id q)) slug)
       /\ is_Some (files (snd (main py_str s now url w))
                     !! solution_path (py_str (question_id q)) slug)
       /\ index_text (snd (main py_str s now url w))
          = Some (Text.join Text.LF rows +:+ Text.LF)
       /\ In (new_entry (formatted py_str q) url) rows.
Proof.
  destruct (main_cases py_str s now url w)
    as [[H E]|[(slug & msg & H & _ & E)|(slug & q & H & Hf & Hs & E)]];
    rewrite E; clear E; cbn [fst snd console].
  - rewrite last_two. discriminate.
  - change [Prompt; msg; MsgFetchFailed] with ([Prompt] ++ [msg; MsgFetchFailed]).
    rewrite app_assoc, last_two. discriminate.
  - pose proof (setup_problem_directory_index now (py_str (question_id q))
                  (question_slug q) (py_str (question_title q))
                  (asked slug w)) as (Hc1 & _ & _).
    pose proof (update_main_readme_quiet (formatted py_str q) url
                  (snd (setup_problem_directory now (py_str (question_id q))
                          (question_slug q) (py_str (question_title q))
                          (asked slug w)))) as (Hc2 & _).
    destruct (late_steps_cases py_str now url q (asked slug w))
      as [(e' & _ & _ & E)|[(e' & _ & _ & _ & E)
                           |(rows & _ & _ & _ & Hin & H1 & H2 & H3 & E)]];
      rewrite E; clear E; cbn [fst snd console].
    + rewrite Hc1. cbn [asked console]. rewrite last_snoc. discriminate.
    + rewrite Hc2, Hc1. cbn [asked console]. rewrite last_snoc. discriminate.
    + rewrite last_snoc. intros [= <-]. split; [reflexivity|].
      subst slug. exists (question_slug q), q, rows.
      split; [exact H|]. split; [exact Hf|]. split; [reflexivity|].
      cbn [files].
      rewrite !with_index_lookup
        by first [apply folder_path_scaffold_like
                 |apply readme_path_scaffold_like
                 |apply solution_path_scaffold_like].
      split; [exact H1|]. split; [exact H2|]. split; [exact H3|].
      split; [|exact Hin].
      unfold index_text. cbn [files]. unfold with_index, set_files.
      cbn [files]. now rewrite lookup_insert_eq.
Qed.

Lemma main_success_announced_witness :
  fst (main (fun _ => "1") two_sum_session noon two_sum_url empty_world)
  = Return tt
  /\ files (snd (main (fun _ => "1") two_sum_session noon two_sum_url
                   empty_world)) !! "problemset/1.two-sum" = Some Dir.
Proof.
  destruct (main_success_announced (fun _ => "1") two_sum_session noon
              two_sum_url empty_world "1")
    as (Hr & slug & q & rows & Hs & Hq & _ & Hd & _).
  - vm_compute. reflexivity.
  - split; [exact Hr|].
    assert (slug = "two-sum") as -> by (vm_compute in Hs; congruence).
    exact Hd.
Defined.

Section OrchestratorSucceeds.



End OrchestratorSucceeds.



(** X17.  Running [main] again for a problem it has just set up, with
    the same URL and a session that answers as before, at any later
    time, changes no file: when the first run returns after a record was
    fetched and the row of the problem holds no line break, the second
    run returns, leaves the files as the first run left them, and prints
    the prompt and the success message after one more request. *)
Theorem main_again
  (py_str : json -> string) (s : session) (now now' : datetime)
  (url : string) (w : world) (slug : string) (q : question_data json) :
  extract_question_slug url = Some slug ->
  fst (fetch_problem_data s slug w) = Return (Some q) ->
  single_line (new_entry (formatted py_str q) url) ->
  fst (main py_str s now url w) = Return tt ->
  main py_str s now' url (snd (main py_str s now url w))
  = (Return tt,
     {| files := files (snd (main py_str s now url w));
        console := console (snd (main py_str s now url w))
                   ++ [Prompt; MsgSuccess (py_str (question_title q))];
        requests := requests (snd (main py_str s now url w)) ++ [slug] |}).
Proof.
  intros H Hf Hsl.
  destruct (main_cases py_str s now url w)
    as [[H' E]|[(slug' & msg & H' & Hf' & E)|(slug' & q' & H' & Hf' & Hs & E)]];
    [congruence|congruence|].
  assert (slug' = slug) as -> by congruence.
  assert (q' = q) as -> by congruence.
  rewrite E. clear E H' Hf'.
  destruct (late_steps_cases py_str now url q (asked slug w))
    as [(e' & _ & _ & E)|[(e' & _ & _ & _ & E)
                         |(rows & _ & _ & Hr & _ & H1 & H2 & H3 & E)]];
    rewrite E; clear E; cbn [fst snd]; [discriminate|discriminate|].
  intros _.
  set (w2 := snd (setup_problem_directory now (py_str (question_id q))
                    (question_slug q) (py_str (question_title q))
                    (asked slug w))) in *.
  set (w1 := {| files := files (with_index rows w2);
                console := console (with_index rows w2)
                           ++ [MsgSuccess (py_str (question_title q))];
                requests := requests (with_index rows w2) |}).
  assert (Forall clean rows) as Hclean.
  { eapply rewritten_rows_clean; [apply lines_read_clean| |exact Hr].
    now apply new_entry_clean. }
  destruct (main_cases py_str s now' url w1)
    as [[H' E]|[(slug' & msg & H' & Hf' & E)|(slug' & q' & H' & Hf' & _ & E)]];
    [congruence| |].
  { rewrite (fetch_problem_data_result s slug' w1 w) in Hf'. congruence. }
  assert (slug' = slug) as -> by congruence.
  rewrite (fetch_problem_data_result s slug w1 w) in Hf'.
  assert (q' = q) as -> by congruence.
  rewrite E. clear E H' Hf'.
  unfold late_steps, bind.
  rewrite setup_problem_directory_scaffold.
  rewrite scaffold_settled.
  - assert (files (asked slug w1) !! root_readme
            = Some (File (Text.join Text.LF rows +:+ Text.LF))) as Hi.
    { cbn [asked w1 files]. unfold with_index, set_files. cbn [files].
      apply lookup_insert_eq. }
    rewrite (update_main_readme_file _ _ _ _ Hi).
    assert (lines_read (asked slug w1) = rows) as ->.
    { rewrite <- (lines_read_with_index rows w2 Hclean).
      apply lines_read_same. reflexivity. }
    rewrite (rewritten_rows_again _ _ _ (new_entry_row_like _ _) Hr).
    unfold print, asked, w1, with_index, set_files.
    cbn [files console requests].
    rewrite insert_insert_eq, <- !app_assoc. reflexivity.
  - cbn [asked w1 files]. rewrite with_index_lookup
      by apply folder_path_scaffold_like. exact H1.
  - cbn [asked w1 files]. rewrite with_index_lookup
      by apply readme_path_scaffold_like. exact H2.
  - cbn [asked w1 files]. rewrite with_index_lookup
      by apply solution_path_scaffold_like. exact H3.
Qed.

Lemma main_again_witness :
  files (snd (main str_of_field two_sum_session noon two_sum_url
                (snd (main str_of_field two_sum_session noon two_sum_url
                        empty_world))))
  = files (snd (main str_of_field two_sum_session noon two_sum_url
                  empty_world)).
Proof.
  rewrite (main_again str_of_field two_sum_session noon noon two_sum_url
             empty_world "two-sum" two_sum_fetched);
    [reflexivity|reflexivity|reflexivity|split; reflexivity|reflexivity].
Defined.

(** ** The metadata of a solution file *)

Section Metadata.

Lemma pretty_N_char_decimal (x : N) :
  Text.isdecimal (pretty_N_char x) = true.
Proof. unfold pretty_N_char. repeat case_match; reflexivity. Qed.

Lemma pretty_N_go_decimal (x : N) (acc : string) :
  all_chars Text.isdecimal acc -> all_chars Text.isdecimal (pretty_N_go x acc).
Proof.
  revert acc. induction (N.lt_wf_0 x) as [x _ IH]. intros acc Hacc.
  destruct (N.eq_dec x 0%N) as [->|Hx]; [now rewrite pretty_N_go_0|].
  rewrite pretty_N_go_step by lia. apply IH.
  - apply N.div_lt; lia.
  - unfold all_chars in *. cbn [Text.forallb_string].
    now rewrite pretty_N_char_decimal, Hacc.
Qed.

Lemma pretty_nat_decimal (n : nat) : all_chars Text.isdecimal (pretty n).
Proof.
  unfold pretty, pretty_nat, pretty, pretty_N.
  destruct (decide (N.of_nat n = 0%N)); [reflexivity|].
  now apply pretty_N_go_decimal.
Qed.

Lemma two_digits_decimal (n : nat) : all_chars Text.isdecimal (two_digits n).
Proof.
  unfold two_digits. destruct (n <? 10); [|apply pretty_nat_decimal].
  pose proof (pretty_nat_decimal n) as H. unfold all_chars in *.
  rewrite sapp_cons, sapp_nil_l. cbn [Text.forallb_string]. now rewrite H.
Qed.

Lemma decimal_no_break (s : string) (c : ascii) :
  all_chars Text.isdecimal s -> Text.isdecimal c = false ->
  Text.mem c s = false.
Proof.
  intros Hs Hc. destruct (Text.mem c s) eqn:E; [|reflexivity].
  apply (proj1 (all_chars_mem _ _) Hs) in E. congruence.
Qed.

(** A timestamp holds no line break. *)
Lemma strftime_no_break (t : datetime) (c : ascii) :
  Text.isdecimal c = false -> Text.mem c "/: IST" = false ->
  Text.mem c (strftime t) = false.
Proof.
  intros Hc Hl. unfold strftime. rewrite !mem_app.
  rewrite !(decimal_no_break _ c (two_digits_decimal _) Hc).
  rewrite (decimal_no_break _ c (pretty_nat_decimal _) Hc).
  cbn [orb]. unfold Text.mem in *.
  destruct (Ascii.eqb c "/"); [discriminate|].
  destruct (Ascii.eqb c ":"); [discriminate|].
  destruct (Ascii.eqb c " "); [discriminate|].
  destruct (Ascii.eqb c "I"); [discriminate|].
  destruct (Ascii.eqb c "S"); [discriminate|].
  destruct (Ascii.eqb c "T"); [discriminate|]. reflexivity.
Qed.

End Metadata.

(** X18.  For a title without line break the text
    [generate_solution_metadata] gives is made of three lines, each a
    comment and each ended by a newline: the author, the title and the
    time, whatever the time is. *)
Theorem generate_solution_metadata_lines (now : datetime) (title : string) :
  single_line title ->
  Text.readlines (Text.universal_newlines
                    (generate_solution_metadata now title))
  = [ "# Author: Abhinav Singh <abhinavsingh@duck.com>" +:+ Text.LF;
      "# Question: " +:+ title +:+ Text.LF;
      "# Solved On: " +:+ strftime now +:+ Text.LF ].
Proof.
  intros [Hlf Hcr].
  pose proof (strftime_no_break now Text.lf eq_refl eq_refl) as Hslf.
  pose proof (strftime_no_break now Text.cr eq_refl eq_refl) as Hscr.
  rewrite universal_newlines_id.
  2:{ unfold generate_solution_metadata. rewrite !mem_app, Hcr, Hscr.
      reflexivity. }
  assert (generate_solution_metadata now title
          = "# Author: Abhinav Singh <abhinavsingh@duck.com>" +:+ Text.LF
            +:+ (("# Question: " +:+ title) +:+ Text.LF
                 +:+ (("# Solved On: " +:+ strftime now) +:+ Text.LF +:+ "")))
    as ->.
  { unfold generate_solution_metadata.
    now rewrite !sapp_assoc, sapp_nil_r. }
  rewrite readlines_app by reflexivity.
  rewrite readlines_app by (rewrite mem_app, Hlf; reflexivity).
  rewrite readlines_app by (rewrite mem_app, Hslf; reflexivity).
  now rewrite !sapp_assoc.
Qed.

Lemma generate_solution_metadata_lines_witness :
  Text.readlines (Text.universal_newlines
                    (generate_solution_metadata noon "Two Sum"))
  = [ "# Author: Abhinav Singh <abhinavsingh@duck.com>" +:+ Text.LF;
      "# Question: Two Sum" +:+ Text.LF;
      "# Solved On: 03/11/2026 12:00:00 IST" +:+ Text.LF ].
Proof.
  rewrite (generate_solution_metadata_lines noon "Two Sum");
    [reflexivity|split; reflexivity].
Defined.

(** ** The slug extractor on the URL of a problem page *)

(** X19.  From the URL of a problem page,
    [https://leetcode.com/problems/<slug>] alone or followed by ["/"]
    and anything, the extractor returns [<slug>], for every slug that is
    not empty and holds no ["/"]. *)
Theorem extract_question_slug_problem_page (slug tail : string) :
  slug <> "" -> no_slash slug ->
  (tail = "" \/ exists t, tail = String "/" t) ->
  extract_question_slug ("https://leetcode.com/problems/" +:+ slug +:+ tail)
  = Some slug.
Proof.
  intros Hne Hs Ht. destruct slug as [|c rest]; [contradiction|].
  assert (c <> "/"%char) as Hc.
  { intros ->. unfold no_slash in Hs. cbn in Hs. discriminate. }
  unfold extract_question_slug.
  change ("https://leetcode.com/problems/" +:+ String c rest +:+ tail)
    with ("https://leetcode.com/" +:+ marker +:+ String c (rest +:+ tail)).
  rewrite (re_search_first _ "https://leetcode.com/" (rest +:+ tail) c
             eq_refl Hc).
  - f_equal.
    apply maximal_non_slash_run_unique with (s := String c (rest +:+ tail)).
    + apply non_slash_run_maximal.
    + exists tail. repeat split; [exact Hs|exact Ht].
  - no_earlier matches_at_drop.
Qed.

Lemma extract_question_slug_problem_page_witness :
  extract_question_slug
    ("https://leetcode.com/problems/" +:+ "add-two-numbers"
     +:+ "/description/")
  = Some "add-two-numbers".
Proof.
  apply (extract_question_slug_problem_page "add-two-numbers"
           "/description/").
  - discriminate.
  - reflexivity.
  - right. now exists "description/".
Defined.
